(** * pricepy: the listing preprocessor [DataPreprocessor]

    A shallow embedding of [ml_model/src/data/data_preprocessing.py] and of
    the parts of pandas and scikit-learn that its methods call.

    - A cell is missing ([NA], covering [None] and [NaN]), a number or a
      string.  Numbers are real numbers: integer and float columns are not
      told apart and only finite numbers exist.  The methods compare
      numbers and move them, they do no arithmetic; the one place that
      does, the scaler of scikit-learn, is a parameter of the runtime.
    - A [Series] is a dtype tag with its cells, a [DataFrame] is a row index
      with named columns in order.  Column names are unique, as in a table
      read by [SELECT *].
    - Python objects live in a heap.  [self.df = ...] rebinds the attribute
      to a fresh object; [df[col] = ...] and [inplace=True] write into the
      object that is referenced, as pandas does without copy-on-write.
    - An exception keeps the writes made before it.
    - The constructor, which reads the table from the database, is not
      modelled: a world starts with the dataset already loaded. *)

From Stdlib Require Import String Ascii List ZArith QArith Qround Reals.
From Stdlib Require Import Lra Lia Bool Permutation.
Import ListNotations.
Close Scope Q_scope.
Close Scope R_scope.
Open Scope string_scope.
Open Scope list_scope.

Set Implicit Arguments.

(** ** Python results *)

Module Py.

Inductive exn : Type :=
| KeyError (key : string)
| TypeError
| ValueError.

Inductive result (A : Type) : Type :=
| Ok (a : A)
| Raise (e : exn).

Arguments Ok {A} a.
Arguments Raise {A} e.

Definition rbind {A B} (r : result A) (f : A -> result B) : result B :=
  match r with
  | Ok a => f a
  | Raise e => Raise e
  end.

Definition rmap {A B} (f : A -> B) (r : result A) : result B :=
  rbind r (fun a => Ok (f a)).

Fixpoint mapR {A B} (f : A -> result B) (l : list A) : result (list B) :=
  match l with
  | [] => Ok []
  | x :: l' => rbind (f x) (fun y => rbind (mapR f l') (fun ys => Ok (y :: ys)))
  end.

Definition is_ok {A} (r : result A) : bool :=
  match r with Ok _ => true | Raise _ => false end.

End Py.
Export Py.

(** ** Comparisons of real numbers as booleans *)

Definition Rltb (x y : R) : bool := if Rlt_dec x y then true else false.
Definition Reqb (x y : R) : bool := if Req_dec_T x y then true else false.

(** ** The runtime the module is linked against

    [str_to_float] is the parser of numeric strings behind [float(s)],
    [Series.astype(float)] and [pd.to_numeric]; [rng_permutation seed n] is
    [numpy.random.RandomState(seed).permutation(n)].

    [fit_scaler col] is [StandardScaler().fit] on one float64 column, a
    missing cell (NaN) being [None]: the statistics are computed by
    scikit-learn in float64 and are not part of this module, so the fitted
    scaler is taken as the function that [transform] then applies to each
    cell that is not NaN, whatever its rounding; it yields [None] where the
    result is not a number. *)

Class Runtime : Type := {
  str_to_float : string -> option R;
  rng_permutation : Z -> nat -> list nat;
  fit_scaler : list (option R) -> R -> option R
}.

(** The constants of [_common/misc/variables.py]. *)

Class Variables : Type := {
  NUMERIC_FEATS : list string;
  CATEGORICAL_FEATS : list string;
  FEAT_COLS : list string;
  TARGET_COL : string
}.

(** ** pandas *)

Module Pandas.

Inductive value : Type :=
| NA
| Num (x : R)
| Str (s : string).

Definition isna (v : value) : bool :=
  match v with NA => true | _ => false end.

Definition value_eqb (a b : value) : bool :=
  match a, b with
  | NA, NA => true
  | Num x, Num y => Reqb x y
  | Str s, Str t => String.eqb s t
  | _, _ => false
  end.

Inductive dtype : Type :=
| object
| float64
| category (categories : list value).

Definition is_category (d : dtype) : bool :=
  match d with category _ => true | _ => false end.

Record Series : Type := mkSeries {
  s_dtype : dtype;
  s_values : list value
}.

Record DataFrame : Type := mkDataFrame {
  index : list nat;
  columns : list (string * Series)
}.

Definition empty_frame : DataFrame := mkDataFrame [] [].

Definition column_names (df : DataFrame) : list string :=
  map fst (columns df).

Definition nrows (df : DataFrame) : nat := length (index df).

(** Every column is as long as the index. *)
Definition well_formed (df : DataFrame) : Prop :=
  Forall (fun c => length (s_values (snd c)) = nrows df) (columns df).

(** *** Lookup and assignment of columns *)

Fixpoint assoc {A} (k : string) (l : list (string * A)) : option A :=
  match l with
  | [] => None
  | (k', a) :: l' => if String.eqb k k' then Some a else assoc k l'
  end.

Fixpoint assoc_set {A} (k : string) (a : A) (l : list (string * A))
  : list (string * A) :=
  match l with
  | [] => [(k, a)]
  | (k', a') :: l' =>
      if String.eqb k k' then (k', a) :: l' else (k', a') :: assoc_set k a l'
  end.

(** [df[col]] *)
Definition getitem (df : DataFrame) (col : string) : result Series :=
  match assoc col (columns df) with
  | Some s => Ok s
  | None => Raise (KeyError col)
  end.

(** [df[col] = s] *)
Definition setitem (df : DataFrame) (col : string) (s : Series) : DataFrame :=
  mkDataFrame (index df) (assoc_set col s (columns df)).

(** [df[[c1, ..., cn]]] *)
Definition getitem_list (df : DataFrame) (cols : list string)
  : result DataFrame :=
  rmap (mkDataFrame (index df))
       (mapR (fun c => rmap (pair c) (getitem df c)) cols).

(** [df[[c1, ..., cn]] = array], one column of the array per name. *)
Fixpoint setitem_list (df : DataFrame) (cols : list string)
         (arr : list (list value)) : DataFrame :=
  match cols, arr with
  | c :: cols', a :: arr' =>
      setitem_list (setitem df c (mkSeries float64 a)) cols' arr'
  | _, _ => df
  end.

(** *** Boolean masks *)

Fixpoint filter_mask {A} (mask : list bool) (l : list A) : list A :=
  match mask, l with
  | b :: mask', x :: l' =>
      if b then x :: filter_mask mask' l' else filter_mask mask' l'
  | _, _ => []
  end.

Definition series_mask (mask : list bool) (s : Series) : Series :=
  mkSeries (s_dtype s) (filter_mask mask (s_values s)).

(** [df[mask]] *)
Definition loc_mask (df : DataFrame) (mask : list bool) : DataFrame :=
  mkDataFrame (filter_mask mask (index df))
              (map (fun c => (fst c, series_mask mask (snd c))) (columns df)).

(** [s.notna()] *)
Definition notna (s : Series) : list bool :=
  map (fun v => negb (isna v)) (s_values s).

(** *** Positional selection, [df.iloc[idx]] *)

Definition take {A} (d : A) (idx : list nat) (l : list A) : list A :=
  map (fun i => nth i l d) idx.

Definition series_take (idx : list nat) (s : Series) : Series :=
  mkSeries (s_dtype s) (take NA idx (s_values s)).

Definition iloc (df : DataFrame) (idx : list nat) : DataFrame :=
  mkDataFrame (take 0 idx (index df))
              (map (fun c => (fst c, series_take idx (snd c))) (columns df)).

(** *** Rows *)

Definition row : Type := list value.

Fixpoint transpose (n : nat) (cols : list (list value)) : list row :=
  match n with
  | 0 => []
  | S n' => map (hd NA) cols :: transpose n' (map (@tl value) cols)
  end.

Definition rows (df : DataFrame) : list row :=
  transpose (nrows df) (map (fun c => s_values (snd c)) (columns df)).

Fixpoint row_eqb (r1 r2 : row) : bool :=
  match r1, r2 with
  | [], [] => true
  | a :: r1', b :: r2' => value_eqb a b && row_eqb r1' r2'
  | _, _ => false
  end.

(** [df.duplicated()], keeping the first occurrence. *)
Fixpoint duplicated_from (seen : list row) (rs : list row) : list bool :=
  match rs with
  | [] => []
  | r :: rs' => existsb (row_eqb r) seen :: duplicated_from (r :: seen) rs'
  end.

Definition duplicated (df : DataFrame) : list bool :=
  duplicated_from [] (rows df).

(** [df.drop_duplicates()] *)
Definition drop_duplicates (df : DataFrame) : DataFrame :=
  loc_mask df (map negb (duplicated df)).

(** *** Cell conversions *)

Section WithRuntime.
Context {RT : Runtime}.

(** [pd.to_numeric(s, errors="coerce")] *)
Definition coerce_cell (v : value) : value :=
  match v with
  | NA => NA
  | Num x => Num x
  | Str s => match str_to_float s with Some x => Num x | None => NA end
  end.

Definition to_numeric_coerce (s : Series) : Series :=
  mkSeries float64 (map coerce_cell (s_values s)).

(** [s.astype(float)] *)
Definition float_cell (v : value) : result value :=
  match v with
  | NA => Ok NA
  | Num x => Ok (Num x)
  | Str s => match str_to_float s with
             | Some x => Ok (Num x)
             | None => Raise ValueError
             end
  end.

Definition astype_float (s : Series) : result Series :=
  rmap (mkSeries float64) (mapR float_cell (s_values s)).

End WithRuntime.

(** [s.astype("category")]: the categories are the distinct values present
    (pandas also sorts them, which nothing here observes). *)
Fixpoint unique (l : list value) : list value :=
  match l with
  | [] => []
  | v :: l' =>
      let u := unique l' in
      if isna v || existsb (value_eqb v) u then u else v :: u
  end.

Definition astype_category (s : Series) : Series :=
  match s_dtype s with
  | category _ => s
  | _ => mkSeries (category (unique (s_values s))) (s_values s)
  end.

(** [s < t] for a number [t].  A missing cell compares false, a string
    raises, and so does any unordered categorical. *)
Definition lt_cell (t : R) (v : value) : result bool :=
  match v with
  | NA => Ok false
  | Num x => Ok (Rltb x t)
  | Str _ => Raise TypeError
  end.

Definition lt_scalar (s : Series) (t : R) : result (list bool) :=
  match s_dtype s with
  | category _ => Raise TypeError
  | _ => mapR (lt_cell t) (s_values s)
  end.

(** [s.fillna(v)].  A categorical checks the fill value against its
    categories even when nothing is missing; a float column that receives a
    string becomes an object column. *)
Definition fill_cell (v x : value) : value :=
  if isna x then v else x.

Definition fillna (v : value) (s : Series) : result Series :=
  match s_dtype s with
  | category cats =>
      if existsb (value_eqb v) cats
      then Ok (mkSeries (s_dtype s) (map (fill_cell v) (s_values s)))
      else Raise TypeError
  | float64 =>
      let d := match v with
               | Str _ => if existsb isna (s_values s) then object else float64
               | _ => float64
               end in
      Ok (mkSeries d (map (fill_cell v) (s_values s)))
  | object => Ok (mkSeries object (map (fill_cell v) (s_values s)))
  end.

End Pandas.
Export Pandas.

(** ** scikit-learn *)

Module Sklearn.

(** A float64 cell of an array: [None] is NaN. *)
Definition float : Type := option R.

Definition to_value (x : float) : value :=
  match x with Some r => Num r | None => NA end.

Fixpoint present (col : list float) : list R :=
  match col with
  | [] => []
  | Some x :: col' => x :: present col'
  | None :: col' => present col'
  end.

Section WithRuntime.
Context {RT : Runtime}.

(** [StandardScaler().fit_transform] on one column: the scaler is fitted on
    the column and applied to the cells of that same column; a NaN cell
    stays NaN. *)
Definition transform_cell (scaler : R -> float) (x : float) : float :=
  match x with
  | Some r => scaler r
  | None => None
  end.

Definition scale_column (col : list float) : list float :=
  let scaler := fit_scaler col in
  map (transform_cell scaler) col.

Definition as_float (v : value) : result float :=
  match v with
  | NA => Ok None
  | Num x => Ok (Some x)
  | Str s => match str_to_float s with
             | Some x => Ok (Some x)
             | None => Raise ValueError
             end
  end.

(** [check_array]: the frame as a float64 matrix, column by column; no
    sample or no feature is refused. *)
Definition check_array (X : DataFrame) : result (list (list float)) :=
  if (nrows X =? 0)%nat || (length (columns X) =? 0)%nat
  then Raise ValueError
  else mapR (fun c => mapR as_float (s_values (snd c))) (columns X).

(** [StandardScaler().fit_transform(X)] *)
Definition fit_transform (X : DataFrame) : result (list (list value)) :=
  rmap (map (fun col => map to_value (scale_column col))) (check_array X).

(** [train_test_split(X, y, test_size=..., random_state=..., shuffle=True)]:
    [ceil(test_size * n)] rows for the test part, the rest for training, an
    empty training part is refused; the rows are taken in the order of a
    permutation drawn from a generator seeded afresh. *)
Definition n_test_of (test_size : Q) (n : nat) : nat :=
  Z.to_nat (Qceiling (test_size * inject_Z (Z.of_nat n))%Q).

Definition train_test_split (X : DataFrame) (y : Series)
           (test_size : Q) (random_state : Z)
  : result (DataFrame * DataFrame * Series * Series) :=
  let n_samples := nrows X in
  let n_test := n_test_of test_size n_samples in
  let n_train := n_samples - n_test in
  if (n_train =? 0)%nat then Raise ValueError
  else
    let permutation := rng_permutation random_state n_samples in
    let ind_test := firstn n_test permutation in
    let ind_train := firstn n_train (skipn n_test permutation) in
    Ok (iloc X ind_train, iloc X ind_test,
        series_take ind_train y, series_take ind_test y).

End WithRuntime.

End Sklearn.

(** ** The heap, the instance and the monad of its methods *)

Definition ref : Type := nat.

(** The methods of the instance, as they are entered. *)
Inductive call : Type :=
| HandleMissingAndDuplicatedValues
| ProcessPrice (filter_price : R)
| ProcessSize (filter_size : R)
| ProcessFloor (filter_floor : R)
| CastTypes
| SelectFeatures
| Standardize
| TrainTestSplit
| Get.

(** [heap] holds the frames, [self_df] is the attribute [self.df], [calls]
    is a ghost log of the methods entered so far. *)
Record World : Type := mkWorld {
  heap : list DataFrame;
  self_df : ref;
  calls : list call
}.

Definition deref (w : World) (r : ref) : DataFrame :=
  nth r (heap w) empty_frame.

Fixpoint update {A} (n : nat) (a : A) (l : list A) : list A :=
  match n, l with
  | 0, _ :: l' => a :: l'
  | S n', x :: l' => x :: update n' a l'
  | _, [] => []
  end.

Definition M (A : Type) : Type := World -> result A * World.

Definition ret {A} (a : A) : M A := fun w => (Ok a, w).

Definition bind {A B} (m : M A) (f : A -> M B) : M B :=
  fun w =>
    match m w with
    | (Ok a, w') => f a w'
    | (Raise e, w') => (Raise e, w')
    end.

Definition lift {A} (r : result A) : M A := fun w => (r, w).

Declare Scope py_scope.
Delimit Scope py_scope with py.
Notation "x <- m ;; k" := (bind m (fun x => k))
  (at level 61, m at next level, right associativity) : py_scope.
Notation "m ;; k" := (bind m (fun _ => k))
  (at level 61, right associativity) : py_scope.
Open Scope py_scope.

Fixpoint for_each {A} (l : list A) (body : A -> M unit) : M unit :=
  match l with
  | [] => ret tt
  | x :: l' => body x ;; for_each l' body
  end.

(** The frame bound to [self.df]. *)
Definition self_frame : M DataFrame :=
  fun w => (Ok (deref w (self_df w)), w).

(** The frame object at [r]. *)
Definition load (r : ref) : M DataFrame :=
  fun w => (Ok (deref w r), w).

(** A write into the object at [r]. *)
Definition store (r : ref) (df : DataFrame) : M unit :=
  fun w => (Ok tt, mkWorld (update r df (heap w)) (self_df w) (calls w)).

(** A write into the object bound to [self.df]. *)
Definition store_self (df : DataFrame) : M unit :=
  fun w => store (self_df w) df w.

(** [self.df = df] for a frame just built: a new object, and the attribute
    rebound to it. *)
Definition rebind_self (df : DataFrame) : M unit :=
  fun w => (Ok tt, mkWorld (heap w ++ [df]) (length (heap w)) (calls w)).

Definition enter (c : call) : M unit :=
  fun w => (Ok tt, mkWorld (heap w) (self_df w) (calls w ++ [c])).

(** ** class DataPreprocessor *)

Module DataPreprocessor.

Section Methods.
Context {RT : Runtime} {VARS : Variables}.

Definition brak_informacji : value := Str "brak informacji".

(** [self.df[col].fillna(v, inplace=True)] *)
Definition fillna_inplace (col : string) (v : value) : M unit :=
  df <- self_frame ;;
  s <- lift (getitem df col) ;;
  s' <- lift (fillna v s) ;;
  store_self (setitem df col s').

(** [self.df = self.df[self.df[col].notna()]] *)
Definition keep_notna (col : string) : M unit :=
  df <- self_frame ;;
  s <- lift (getitem df col) ;;
  rebind_self (loc_mask df (notna s)).

Definition _handle_missing_and_duplicated_values : M unit :=
  enter HandleMissingAndDuplicatedValues ;;
  fillna_inplace "floor" brak_informacji ;;
  fillna_inplace "status" brak_informacji ;;
  fillna_inplace "property_type" brak_informacji ;;
  fillna_inplace "rooms" (Num 1) ;;
  fillna_inplace "year_built" brak_informacji ;;
  fillna_inplace "property_condition" brak_informacji ;;
  (df <- self_frame ;; store_self (drop_duplicates df)) ;;
  keep_notna "price" ;;
  keep_notna "size".

(** [self.df = self.df[self.df[col] < threshold]] *)
Definition keep_below (col : string) (threshold : R) : M unit :=
  df <- self_frame ;;
  s <- lift (getitem df col) ;;
  mask <- lift (lt_scalar s threshold) ;;
  rebind_self (loc_mask df mask).

Definition _process_price (filter_price : R) : M unit :=
  enter (ProcessPrice filter_price) ;;
  df <- self_frame ;;
  price <- lift (getitem df "price") ;;
  let mask := notna (to_numeric_coerce price) in
  rebind_self (loc_mask df mask) ;;
  df <- self_frame ;;
  price <- lift (getitem df "price") ;;
  price' <- lift (astype_float price) ;;
  store_self (setitem df "price" price') ;;
  if Rltb 0 filter_price then keep_below "price" filter_price else ret tt.

Definition _process_size (filter_size : R) : M unit :=
  enter (ProcessSize filter_size) ;;
  if Rltb 0 filter_size then keep_below "size" filter_size else ret tt.

Definition _process_floor (filter_floor : R) : M unit :=
  enter (ProcessFloor filter_floor) ;;
  if Rltb 0 filter_floor then keep_below "floor" filter_floor else ret tt.

(** [df[col] = df[col].astype(float)] on the object at [r] *)
Definition cast_float_at (r : ref) (col : string) : M unit :=
  df <- load r ;;
  s <- lift (getitem df col) ;;
  s' <- lift (astype_float s) ;;
  store r (setitem df col s').

(** [df[col] = df[col].astype("category")] on the object at [r] *)
Definition cast_category_at (r : ref) (col : string) : M unit :=
  df <- load r ;;
  s <- lift (getitem df col) ;;
  store r (setitem df col (astype_category s)).

Definition _cast_types : M unit :=
  enter CastTypes ;;
  let numerical_col := NUMERIC_FEATS in
  let categorical_col := CATEGORICAL_FEATS in
  for_each numerical_col (fun col => fun w => cast_float_at (self_df w) col w) ;;
  for_each categorical_col
           (fun col => fun w => cast_category_at (self_df w) col w).

(** The static method: [df] is whatever object the caller passes. *)
Definition static_cast_types (df : ref) : M ref :=
  let numerical_col := NUMERIC_FEATS in
  let categorical_col := CATEGORICAL_FEATS in
  for_each numerical_col (fun col => cast_float_at df col) ;;
  for_each categorical_col (fun col => cast_category_at df col) ;;
  ret df.

Definition _select_features : M unit :=
  enter SelectFeatures ;;
  df <- self_frame ;;
  selected <- lift (getitem_list df (FEAT_COLS ++ [TARGET_COL])) ;;
  rebind_self selected.

Definition _standardize : M unit :=
  enter Standardize ;;
  df <- self_frame ;;
  X <- lift (getitem_list df NUMERIC_FEATS) ;;
  scaled <- lift (Sklearn.fit_transform X) ;;
  df <- self_frame ;;
  store_self (setitem_list df NUMERIC_FEATS scaled).

Definition run_preprocessing_pipeline (cast_types standardize : bool)
  : M unit :=
  (if cast_types then _cast_types else ret tt) ;;
  _process_price 17500000 ;;
  _process_size 1000 ;;
  _process_floor 30 ;;
  (if standardize then _standardize else ret tt) ;;
  _select_features.

Definition train_test_split
  : M (DataFrame * DataFrame * Series * Series) :=
  enter TrainTestSplit ;;
  df <- self_frame ;;
  X <- lift (getitem_list df FEAT_COLS) ;;
  y <- lift (getitem df TARGET_COL) ;;
  lift (Sklearn.train_test_split X y 0.2 42).

Definition get : M ref :=
  enter Get ;;
  fun w => (Ok (self_df w), w).

End Methods.

End DataPreprocessor.


(** ** Vocabulary of the statements *)

(** A computation that enters no method. *)
Definition silent {A} (m : M A) : Prop :=
  forall w, calls (snd (m w)) = calls w.

(** A computation that enters exactly the method [c], whether or not it
    raises afterwards. *)
Definition enters {A} (m : M A) (c : call) : Prop :=
  forall w, calls (snd (m w)) = calls w ++ [c].

Definition prefix {A} (p l : list A) : Prop := exists s, l = p ++ s.

(** The methods entered by a run are a prefix of [expected], and all of
    [expected] when the run does not raise. *)
Definition follows {A} (m : M A) (expected : list call) : Prop :=
  forall w, exists entered,
    calls (snd (m w)) = calls w ++ entered /\
    prefix entered expected /\
    (is_ok (fst (m w)) = true -> entered = expected).

(** The sequence of methods the specification gives for the pipeline. *)
Definition pipeline_calls (cast_types standardize : bool) : list call :=
  (if cast_types then [CastTypes] else []) ++
  [ProcessPrice 17500000] ++ [ProcessSize 1000] ++ [ProcessFloor 30] ++
  (if standardize then [Standardize] else []) ++
  [SelectFeatures].

(** Steps applied one after the other, each to the world the one before
    left; the first that raises ends the run with its exception. *)
Fixpoint run_all (steps : list (M unit)) : M unit :=
  match steps with
  | [] => ret tt
  | step :: steps' => step ;; run_all steps'
  end.

(** The sequence of steps the specification gives for the pipeline. *)
Definition pipeline_steps {RT : Runtime} {VARS : Variables}
           (cast_types standardize : bool) : list (M unit) :=
  (if cast_types then [DataPreprocessor._cast_types] else []) ++
  [DataPreprocessor._process_price 17500000] ++
  [DataPreprocessor._process_size 1000] ++
  [DataPreprocessor._process_floor 30] ++
  (if standardize then [DataPreprocessor._standardize] else []) ++
  [DataPreprocessor._select_features].

(** The dataset the instance owns: the frame bound to [self.df]. *)
Definition owned (w : World) : DataFrame := deref w (self_df w).

(** The columns a frame must have for a method to find what it reads. *)
Definition has_columns (df : DataFrame) (cols : list string) : Prop :=
  forall c, In c cols -> In c (column_names df).

(** ** Mean and variance, as the statements speak of them

    The mean of a list of numbers and its variance, the one that divides by
    the number of cells, over the real numbers. *)

Definition Rsum (l : list R) : R := fold_right Rplus 0%R l.

Definition mean (l : list R) : R := (Rsum l / INR (length l))%R.

Definition variance (l : list R) : R :=
  mean (map (fun x => Rsqr (x - mean l)) l).

(** ** A runtime, constants and tables for the examples *)

Module Demo.

(** The scaler of the examples computes without rounding: it subtracts the
    mean of the numbers of the column and divides by their standard
    deviation, or by 1 when that is 0. *)
Definition unit_scale (xs : list R) : R :=
  if Req_dec_T (sqrt (variance xs)) 0%R then 1%R else sqrt (variance xs).

Definition standardized (xs : list R) (x : R) : R :=
  ((x - mean xs) / unit_scale xs)%R.

Definition unrounded_scaler (col : list (option R)) (x : R) : option R :=
  Some (standardized (Sklearn.present col) x).

(** A parser of unsigned decimal integers, the numeric strings that the
    examples use. *)
Definition digit_of (c : ascii) : option Z :=
  let n := nat_of_ascii c in
  if (48 <=? n)%nat && (n <=? 57)%nat then Some (Z.of_nat (n - 48)) else None.

Fixpoint digits_value (acc : Z) (s : string) : option Z :=
  match s with
  | EmptyString => Some acc
  | String c s' =>
      match digit_of c with
      | Some d => digits_value (10 * acc + d) s'
      | None => None
      end
  end.

Definition decimal_literal (s : string) : option R :=
  match s with
  | EmptyString => None
  | _ => option_map IZR (digits_value 0 s)
  end.

(** The permutation of the examples puts the rows in reverse order. *)
#[export] Instance runtime : Runtime := {|
  str_to_float := decimal_literal;
  rng_permutation := fun _ n => rev (seq 0 n);
  fit_scaler := unrounded_scaler
|}.

#[export] Instance variables : Variables := {|
  NUMERIC_FEATS := ["size"; "rooms"; "floor"];
  CATEGORICAL_FEATS := ["location"; "status"];
  FEAT_COLS := ["size"; "rooms"; "floor"; "location"; "status"];
  TARGET_COL := "price"
|}.

Definition frame (n : nat) (cols : list (string * Series)) : DataFrame :=
  mkDataFrame (seq 0 n) cols.

(** A world whose only object is the frame the instance owns. *)
Definition world_of (df : DataFrame) : World := mkWorld [df] 0 [].

(** Five listings with an identifier column and a link column that are not
    features. *)
Definition listings : DataFrame :=
  frame 5
    [("id", mkSeries float64 [Num 1; Num 2; Num 3; Num 4; Num 5]);
     ("location", mkSeries object
        [Str "Warszawa"; Str "Gdynia"; Str "Warszawa"; Str "Sopot"; Str "Gdynia"]);
     ("price", mkSeries object
        [Str "450000"; Str "620000"; Num 99000000; Str "380000"; Str "710000"]);
     ("size", mkSeries float64 [Num 48; Num 63; Num 300; Num 40; Num 71]);
     ("rooms", mkSeries float64 [Num 2; Num 3; Num 9; Num 2; Num 3]);
     ("floor", mkSeries float64 [Num 1; Num 4; Num 0; Num 2; Num 7]);
     ("status", mkSeries object
        [Str "pierwotny"; Str "wtorny"; Str "wtorny"; NA; Str "wtorny"]);
     ("url", mkSeries object
        [Str "a"; Str "b"; Str "c"; Str "d"; Str "e"])].

End Demo.

(** What numpy promises of [RandomState(seed).permutation(n)]. *)
Definition rng_lawful {RT : Runtime} : Prop :=
  forall seed n, Permutation (rng_permutation seed n) (seq 0 n).

(** The reading of "the price coerces to a number", "the price is below the
    threshold" and "the row is kept by [process_price]". *)
Definition price_ok {RT : Runtime} (v : value) : bool :=
  negb (isna (coerce_cell v)).

Definition below {RT : Runtime} (t : R) (v : value) : bool :=
  match coerce_cell v with
  | Num x => Rltb x t
  | _ => false
  end.

Definition price_kept {RT : Runtime} (filter_price : R) (v : value) : bool :=
  price_ok v && (if Rltb 0 filter_price then below filter_price v else true).

(** Every cell is a number that satisfies [P]. *)
Definition all_numbers (P : R -> Prop) (l : list value) : Prop :=
  Forall (fun v => exists x, v = Num x /\ P x) l.

(** [self.df] refers to an object of the heap. *)
Definition valid_world (w : World) : Prop := self_df w < length (heap w).

(** The world after a method was entered and raised at once. *)
Definition entered (c : call) (w : World) : World :=
  mkWorld (heap w) (self_df w) (calls w ++ [c]).

(** A cell that is missing or a number. *)
Definition numeric_or_missing (v : value) : bool :=
  match v with Str _ => false | _ => true end.

(** The row is kept by a filter with threshold [t]: the cell is a number
    strictly below [t]. *)
Definition cell_below (t : R) (v : value) : bool :=
  match v with Num x => Rltb x t | _ => false end.

(** The missing-value step on a frame, as the specification words it:
    fill one column, fill the six columns in the order of the code, keep
    the rows where a column is present. *)
Definition fill_column (col : string) (v : value) (df : DataFrame)
  : DataFrame :=
  match rbind (getitem df col) (fillna v) with
  | Ok s => setitem df col s
  | Raise _ => df
  end.

Definition fills : list (string * value) :=
  [("floor", Str "brak informacji");
   ("status", Str "brak informacji");
   ("property_type", Str "brak informacji");
   ("rooms", Num 1);
   ("year_built", Str "brak informacji");
   ("property_condition", Str "brak informacji")].

Definition fill_all (df : DataFrame) : DataFrame :=
  fold_left (fun d cv => fill_column (fst cv) (snd cv) d) fills df.

Definition keep_present (col : string) (df : DataFrame) : DataFrame :=
  match getitem df col with
  | Ok s => loc_mask df (notna s)
  | Raise _ => df
  end.

(** The column exists and is not categorical, as in a table just read
    from storage. *)
Definition fillable (df : DataFrame) (col : string) : Prop :=
  exists s, getitem df col = Ok s /\ is_category (s_dtype s) = false.

(** The column exists and takes the fill value [v]: it is not categorical,
    or [v] is one of its categories. *)
Definition accepts_fill (df : DataFrame) (col : string) (v : value) : Prop :=
  exists s, getitem df col = Ok s /\
            match s_dtype s with
            | category cats => existsb (value_eqb v) cats = true
            | _ => True
            end.

(** No cell of the column is missing. *)
Definition complete (col : string) (df : DataFrame) : Prop :=
  exists s, getitem df col = Ok s /\ Forall (fun v => isna v = false) (s_values s).

(** The coercion rules of [_cast_types] and [static_cast_types] as a
    function on frames: one column at a time, the result together with the
    frame as it stands when the loop ends or raises. *)
Definition cast_float_frame {RT : Runtime} (col : string) (df : DataFrame)
  : result DataFrame :=
  rbind (getitem df col) (fun s => rmap (setitem df col) (astype_float s)).

Definition cast_category_frame (col : string) (df : DataFrame)
  : result DataFrame :=
  rmap (fun s => setitem df col (astype_category s)) (getitem df col).

Fixpoint cast_each (f : string -> DataFrame -> result DataFrame)
         (cols : list string) (df : DataFrame) : result unit * DataFrame :=
  match cols with
  | [] => (Ok tt, df)
  | c :: cols' =>
      match f c df with
      | Ok df' => cast_each f cols' df'
      | Raise e => (Raise e, df)
      end
  end.

Definition cast_frame {RT : Runtime} {VARS : Variables} (df : DataFrame)
  : result unit * DataFrame :=
  match cast_each cast_float_frame NUMERIC_FEATS df with
  | (Ok _, df1) => cast_each cast_category_frame CATEGORICAL_FEATS df1
  | (Raise e, df1) => (Raise e, df1)
  end.

(** The world with the object at [r] overwritten. *)
Definition with_object (r : ref) (df : DataFrame) (w : World) : World :=
  mkWorld (update r df (heap w)) (self_df w) (calls w).

(** Two results that differ at most in the value they return. *)
Definition same_outcome {A B} (r1 : result A) (r2 : result B) : Prop :=
  match r1, r2 with
  | Ok _, Ok _ => True
  | Raise e1, Raise e2 => e1 = e2
  | _, _ => False
  end.

(** The dtype of a column, when the frame has it. *)
Definition dtype_of (df : DataFrame) (col : string) : option dtype :=
  match getitem df col with
  | Ok s => Some (s_dtype s)
  | Raise _ => None
  end.

(** The numbers of a column, missing cells left out. *)
Fixpoint numbers (vals : list value) : list R :=
  match vals with
  | [] => []
  | Num x :: vals' => x :: numbers vals'
  | _ :: vals' => numbers vals'
  end.

(** A cell that is a number or missing, as a float64 cell. *)
Definition cell_float (v : value) : Sklearn.float :=
  match v with Num x => Some x | _ => None end.





Module DemoTables.


(** Two listings as they arrive at serving time: every cell is a string. *)
Definition served : DataFrame :=
  Demo.frame 2
    [("location", mkSeries object [Str "Gdynia"; Str "Sopot"]);
     ("size", mkSeries object [Str "52"; Str "38"]);
     ("rooms", mkSeries object [Str "2"; Str "1"]);
     ("floor", mkSeries object [Str "3"; Str "0"]);
     ("status", mkSeries object [Str "wtorny"; Str "pierwotny"])].

(** The instance owns the listings, the caller holds [served] at 1. *)
Definition serving_world : World :=
  mkWorld [Demo.listings; served] 0 [].

(** Ten raw listings: row 6 repeats row 2, row 4 has no size; some floors,
    statuses and room counts are missing. *)
Definition raw_listings : DataFrame :=
  Demo.frame 10
    [("location", mkSeries object
        [Str "Warszawa"; Str "Gdynia"; Str "Sopot"; Str "Warszawa";
         Str "Gdynia"; Str "Sopot"; Str "Sopot"; Str "Krakow"; Str "Krakow";
         Str "Gdynia"]);
     ("price", mkSeries float64
        [Num 450000; Num 620000; Num 380000; Num 455000; Num 610000;
         Num 390000; Num 380000; Num 700000; Num 520000; Num 615000]);
     ("size", mkSeries float64
        [Num 48; Num 63; Num 40; Num 50; NA;
         Num 41; Num 40; Num 80; Num 55; Num 62]);
     ("rooms", mkSeries float64
        [Num 2; Num 3; Num 2; NA; Num 3;
         Num 2; Num 2; Num 4; NA; Num 3]);
     ("floor", mkSeries float64
        [Num 1; Num 4; NA; Num 2; Num 7;
         Num 0; NA; Num 3; Num 5; Num 4]);
     ("status", mkSeries object
        [Str "pierwotny"; Str "wtorny"; Str "wtorny"; NA; Str "wtorny";
         Str "pierwotny"; Str "wtorny"; Str "wtorny"; Str "pierwotny";
         Str "wtorny"]);
     ("property_type", mkSeries object
        [Str "blok"; Str "blok"; Str "kamienica"; Str "blok"; Str "blok";
         Str "blok"; Str "kamienica"; Str "apartamentowiec"; Str "blok";
         Str "blok"]);
     ("year_built", mkSeries float64
        [Num 2019; Num 1975; Num 1930; Num 2001; NA;
         Num 1988; Num 1930; Num 2022; Num 1999; Num 1975]);
     ("property_condition", mkSeries object
        [Str "do zamieszkania"; Str "do remontu"; NA; Str "do zamieszkania";
         Str "do zamieszkania"; Str "do remontu"; NA; Str "do wykonczenia";
         Str "do zamieszkania"; Str "do remontu"])].

(** Three listings whose floor is, in turn, a number, the marker written by
    the missing-value step, and a number. *)
Definition floors_with_marker : DataFrame :=
  Demo.frame 3
    [("price", mkSeries float64 [Num 450000; Num 620000; Num 380000]);
     ("floor", mkSeries object [Num 1; Str "brak informacji"; Num 4])].

(** The table of the price scenario. *)
Definition three_prices : DataFrame :=
  Demo.frame 3
    [("id", mkSeries float64 [Num 1; Num 2; Num 3]);
     ("price", mkSeries object [Str "100000"; Str "abc"; Str "250000"])].


(** The listings with every row removed. *)
Definition no_listings : DataFrame :=
  loc_mask Demo.listings [false; false; false; false; false].

(** The first listing alone. *)
Definition one_listing : DataFrame :=
  loc_mask Demo.listings [true; false; false; false; false].

End DemoTables.

(** ** Further vocabulary *)

(** The column holds a string cell. *)
Definition has_string (s : Series) : bool :=
  existsb (fun v => negb (numeric_or_missing v)) (s_values s).

(** The objects that exist in [w] are the same in [w']. *)
Definition same_objects (w w' : World) : Prop :=
  forall r, r < length (heap w) -> deref w' r = deref w r.

(** Two frames that cannot be told apart by their labels, their column
    names and their columns. *)
Definition same_frame (df1 df2 : DataFrame) : Prop :=
  index df1 = index df2 /\
  column_names df1 = column_names df2 /\
  forall c, getitem df1 c = getitem df2 c.

(** The number of rows a mask keeps. *)
Fixpoint count_true (m : list bool) : nat :=
  match m with
  | [] => 0
  | b :: m' => (if b then 1 else 0) + count_true m'
  end.

(** No column and no label list is longer than [n]. *)
Definition at_most (n : nat) (df : DataFrame) : Prop :=
  length (index df) <= n /\
  Forall (fun c => length (s_values (snd c)) <= n) (columns df).

(** A column after [astype(float)] has returned. *)
Definition float_series {RT : Runtime} (s : Series) : Series :=
  mkSeries float64 (map coerce_cell (s_values s)).

(** [self.df] is an object of the heap that did not exist among the
    first [n]. *)
Definition owns_new (n : nat) (w : World) : Prop :=
  n <= self_df w /\ valid_world w.

(** A computation that, started on a world that owns a new object, ends on
    such a world and leaves the first [n] objects as they were, whether it
    returns or raises. *)
Definition keeps_old (n : nat) {A} (m : M A) : Prop :=
  forall w, owns_new n w ->
    owns_new n (snd (m w)) /\
    forall r, r < n -> deref (snd (m w)) r = deref w r.

(** No row of the frame equals an earlier row. *)
Definition distinct_rows (df : DataFrame) : Prop :=
  forall i j, j < i -> i < nrows df ->
    row_eqb (nth i (rows df) []) (nth j (rows df) []) = false.

(** A cell that [astype(float)] accepts, and a column of such cells. *)
Definition parses {RT : Runtime} (v : value) : bool :=
  match v with
  | Str s => match str_to_float s with Some _ => true | None => false end
  | _ => true
  end.

Definition castable {RT : Runtime} (df : DataFrame) (c : string) : Prop :=
  exists s, getitem df c = Ok s /\ forallb parses (s_values s) = true.

Module MoreTables.

(** Three listings, one without a size. *)
Definition sizes : DataFrame :=
  Demo.frame 3
    [("size", mkSeries float64 [Num 48; NA; Num 1200]);
     ("floor", mkSeries float64 [Num 1; Num 40; NA]);
     ("price", mkSeries object [Str "450000"; Str "620000"; Str "380000"])].

(** Constants that list [floor] as a categorical feature. *)
Definition floor_as_category : Variables := {|
  NUMERIC_FEATS := ["size"; "rooms"];
  CATEGORICAL_FEATS := ["location"; "status"; "floor"];
  FEAT_COLS := ["size"; "rooms"; "location"; "status"; "floor"];
  TARGET_COL := "price"
|}.

End MoreTables.
(** * Properties *)

(** ** Real comparisons on integer literals *)

Lemma Rltb_true x y : (x < y)%R -> Rltb x y = true.
Proof. intros H. unfold Rltb. destruct (Rlt_dec x y); [reflexivity | contradiction]. Qed.

Lemma Rltb_false x y : ~ (x < y)%R -> Rltb x y = false.
Proof. intros H. unfold Rltb. destruct (Rlt_dec x y); [contradiction | reflexivity]. Qed.

Lemma Rltb_spec x y : Rltb x y = true <-> (x < y)%R.
Proof.
  unfold Rltb. destruct (Rlt_dec x y); split; intros; try assumption;
    try reflexivity; try discriminate; contradiction.
Qed.

Lemma Rltb_IZR a b : Rltb (IZR a) (IZR b) = (a <? b)%Z.
Proof.
  destruct (Z.ltb_spec a b) as [H | H].
  - apply Rltb_true, IZR_lt, H.
  - apply Rltb_false. intros C. apply lt_IZR in C. lia.
Qed.

Lemma Reqb_spec x y : Reqb x y = true <-> x = y.
Proof.
  unfold Reqb. destruct (Req_dec_T x y); split; intros; try assumption;
    try reflexivity; try discriminate; contradiction.
Qed.

Lemma Reqb_refl x : Reqb x x = true.
Proof. apply Reqb_spec. reflexivity. Qed.

Lemma Reqb_IZR a b : Reqb (IZR a) (IZR b) = (a =? b)%Z.
Proof.
  destruct (Z.eqb_spec a b) as [H | H].
  - subst. apply Reqb_refl.
  - unfold Reqb. destruct (Req_dec_T (IZR a) (IZR b)) as [E | E];
      [apply eq_IZR in E; contradiction | reflexivity].
Qed.

(** ** The ghost log *)

Section CallLog.

Lemma silent_ret A (a : A) : silent (ret a).
Proof. intros w. reflexivity. Qed.

Lemma silent_lift A (r : result A) : silent (lift r).
Proof. intros w. reflexivity. Qed.

Lemma silent_self_frame : silent self_frame.
Proof. intros w. reflexivity. Qed.

Lemma silent_load r : silent (load r).
Proof. intros w. reflexivity. Qed.

Lemma silent_store r df : silent (store r df).
Proof. intros w. reflexivity. Qed.

Lemma silent_store_self df : silent (store_self df).
Proof. intros w. reflexivity. Qed.

Lemma silent_rebind_self df : silent (rebind_self df).
Proof. intros w. reflexivity. Qed.

Lemma silent_bind A B (m : M A) (f : A -> M B) :
  silent m -> (forall a, silent (f a)) -> silent (bind m f).
Proof.
  intros Hm Hf w. unfold bind. specialize (Hm w).
  destruct (m w) as [[a | e] w1]; simpl in *.
  - rewrite Hf. exact Hm.
  - exact Hm.
Qed.

Lemma silent_if A (b : bool) (m1 m2 : M A) :
  silent m1 -> silent m2 -> silent (if b then m1 else m2).
Proof. destruct b; auto. Qed.

Lemma silent_for_each A (l : list A) (body : A -> M unit) :
  (forall x, silent (body x)) -> silent (for_each l body).
Proof.
  intros Hb. induction l as [| x l IH]; simpl.
  - apply silent_ret.
  - apply silent_bind; auto.
Qed.

Lemma enters_method A (c : call) (body : M A) :
  silent body -> enters (enter c ;; body) c.
Proof.
  intros Hb w. unfold bind, enter. simpl. rewrite Hb. reflexivity.
Qed.

End CallLog.

Create HintDb silent.
#[export] Hint Resolve silent_ret silent_lift silent_self_frame silent_load
  silent_store silent_store_self silent_rebind_self silent_if
  silent_for_each : silent.
#[export] Hint Extern 2 (silent (bind _ _)) =>
  apply silent_bind; [| intros ?] : silent.

Module CallOrder.
Import DataPreprocessor.

Section WithContext.
Context {RT : Runtime} {VARS : Variables}.

Lemma silent_fillna_inplace col v : silent (fillna_inplace col v).
Proof. unfold fillna_inplace. auto 10 with silent. Qed.

Lemma silent_keep_notna col : silent (keep_notna col).
Proof. unfold keep_notna. auto 10 with silent. Qed.

Lemma silent_keep_below col t : silent (keep_below col t).
Proof. unfold keep_below. auto 10 with silent. Qed.

Lemma silent_cast_float_at r col : silent (cast_float_at r col).
Proof. unfold cast_float_at. auto 10 with silent. Qed.

Lemma silent_cast_category_at r col : silent (cast_category_at r col).
Proof. unfold cast_category_at. auto 10 with silent. Qed.

Hint Resolve silent_fillna_inplace silent_keep_notna silent_keep_below
  silent_cast_float_at silent_cast_category_at : silent.

Lemma enters_handle_missing :
  enters _handle_missing_and_duplicated_values
         HandleMissingAndDuplicatedValues.
Proof.
  unfold _handle_missing_and_duplicated_values.
  apply enters_method. auto 20 with silent.
Qed.

Lemma enters_process_price t : enters (_process_price t) (ProcessPrice t).
Proof. unfold _process_price. apply enters_method. auto 20 with silent. Qed.

Lemma enters_process_size t : enters (_process_size t) (ProcessSize t).
Proof. unfold _process_size. apply enters_method. auto 20 with silent. Qed.

Lemma enters_process_floor t : enters (_process_floor t) (ProcessFloor t).
Proof. unfold _process_floor. apply enters_method. auto 20 with silent. Qed.

Lemma enters_cast_types : enters _cast_types CastTypes.
Proof.
  unfold _cast_types. apply enters_method.
  apply silent_bind; [| intros _]; apply silent_for_each; intros col w.
  - apply silent_cast_float_at.
  - apply silent_cast_category_at.
Qed.

Lemma enters_select_features : enters _select_features SelectFeatures.
Proof. unfold _select_features. apply enters_method. auto 20 with silent. Qed.

Lemma enters_standardize : enters _standardize Standardize.
Proof. unfold _standardize. apply enters_method. auto 20 with silent. Qed.

End WithContext.

End CallOrder.

(** ** C1: the order of the pipeline *)

Module Pipeline.
Import DataPreprocessor CallOrder.

Lemma follows_enters A (m : M A) c : enters m c -> follows m [c].
Proof.
  intros H w. exists [c]. split; [apply H |]. split; [exists []; reflexivity | auto].
Qed.

Lemma follows_silent A (m : M A) : silent m -> follows m [].
Proof.
  intros H w. exists []. rewrite app_nil_r. split; [apply H |].
  split; [exists []; reflexivity | auto].
Qed.

Lemma follows_bind A B (m : M A) (f : A -> M B) l1 l2 :
  follows m l1 -> (forall a, follows (f a) l2) -> follows (bind m f) (l1 ++ l2).
Proof.
  intros Hm Hf w. destruct (Hm w) as (e1 & Hc1 & Hp1 & Hok1).
  unfold bind. destruct (m w) as [[a | e] w1]; simpl in *.
  - destruct (Hf a w1) as (e2 & Hc2 & (s2 & Hp2) & Hok2).
    specialize (Hok1 eq_refl). subst e1.
    exists (l1 ++ e2). rewrite Hc2, Hc1, app_assoc. split; [reflexivity |].
    split.
    + exists s2. rewrite Hp2, app_assoc. reflexivity.
    + intros Hok. rewrite (Hok2 Hok). reflexivity.
  - exists e1. split; [exact Hc1 |]. split; [| discriminate].
    destruct Hp1 as (s1 & Hp1). exists (s1 ++ l2).
    rewrite Hp1, app_assoc. reflexivity.
Qed.

Section WithContext.
Context {RT : Runtime} {VARS : Variables}.

Lemma pipeline_follows cast_types standardize :
  follows (run_preprocessing_pipeline cast_types standardize)
          (pipeline_calls cast_types standardize).
Proof.
  unfold run_preprocessing_pipeline, pipeline_calls.
  apply follows_bind.
  { destruct cast_types;
      [apply follows_enters, enters_cast_types
      | apply follows_silent, silent_ret]. }
  intros _. apply follows_bind; [apply follows_enters, enters_process_price |].
  intros _. apply follows_bind; [apply follows_enters, enters_process_size |].
  intros _. apply follows_bind; [apply follows_enters, enters_process_floor |].
  intros _. apply follows_bind.
  { destruct standardize;
      [apply follows_enters, enters_standardize
      | apply follows_silent, silent_ret]. }
  intros _. apply follows_enters, enters_select_features.
Qed.

Lemma prefix_In A (p l : list A) x : prefix p l -> In x p -> In x l.
Proof. intros (s & ->) H. apply in_or_app. left. exact H. Qed.

Lemma handle_missing_not_expected cast_types standardize :
  ~ In HandleMissingAndDuplicatedValues
       (pipeline_calls cast_types standardize).
Proof.
  unfold pipeline_calls. destruct cast_types, standardize; simpl;
    intros H; repeat (destruct H as [H | H]; [discriminate |]); exact H.
Qed.

(** A run of steps returns when each step returns on the world the one
    before left. *)
Lemma run_all_returns (step : M unit) (steps : list (M unit)) w w' :
  run_all (step :: steps) w = (Ok tt, w') <->
  exists w1, step w = (Ok tt, w1) /\ run_all steps w1 = (Ok tt, w').
Proof.
  simpl. unfold bind. destruct (step w) as [[[] | e] w1]; split.
  - intros H. exists w1. auto.
  - intros (w2 & E & H). injection E as <-. exact H.
  - discriminate.
  - intros (w2 & E & _). discriminate E.
Qed.

Lemma bind_pointwise A B (m : M A) (f g : A -> M B) w :
  (forall a u, f a u = g a u) -> bind m f w = bind m g w.
Proof.
  intros H. unfold bind. destruct (m w) as [[a | e] u]; [apply H | reflexivity].
Qed.

Lemma bind_ret_tt (m : M unit) w : bind m (fun _ => ret tt) w = m w.
Proof. unfold bind, ret. destruct (m w) as [[[] | e] u]; reflexivity. Qed.

Lemma pipeline_runs_steps cast_types standardize w :
  run_preprocessing_pipeline cast_types standardize w
  = run_all (pipeline_steps cast_types standardize) w.
Proof.
  unfold run_preprocessing_pipeline, pipeline_steps.
  destruct cast_types, standardize; cbn [app run_all];
    repeat (apply bind_pointwise; intros);
    try (symmetry; apply bind_ret_tt).
  all: cbv [bind ret]; cbv beta iota;
    repeat (apply bind_pointwise; intros);
    try (symmetry; apply bind_ret_tt).
Qed.

(** C1.  Whatever the world [run_preprocessing_pipeline] starts in, it
    applies to the owned dataset, each step on what the one before left:
    [_cast_types] when the flag is set, [_process_price] with 17500000.0,
    [_process_size] with 1000.0, [_process_floor] with 30.0,
    [_standardize] when the flag is set, and [_select_features].  The run
    returns exactly when these steps return one after the other, and ends
    in the world the last one leaves; a step that raises ends the run.  The
    methods entered are these, in this order: all of them when the run
    does not raise, an initial part when one of them raises.
    [_handle_missing_and_duplicated_values] is never entered. *)
Theorem run_preprocessing_pipeline_order (cast_types standardize : bool)
        (w : World) :
  (exists entered,
    calls (snd (run_preprocessing_pipeline cast_types standardize w))
      = calls w ++ entered /\
    prefix entered (pipeline_calls cast_types standardize) /\
    (is_ok (fst (run_preprocessing_pipeline cast_types standardize w)) = true
       -> entered = pipeline_calls cast_types standardize) /\
    ~ In HandleMissingAndDuplicatedValues entered) /\
  run_preprocessing_pipeline cast_types standardize w
  = run_all (pipeline_steps cast_types standardize) w /\
  forall w',
    run_preprocessing_pipeline cast_types standardize w = (Ok tt, w') <->
    exists w1 w2 w3 w4 w5,
      (if cast_types then _cast_types w = (Ok tt, w1) else w1 = w) /\
      _process_price 17500000 w1 = (Ok tt, w2) /\
      _process_size 1000 w2 = (Ok tt, w3) /\
      _process_floor 30 w3 = (Ok tt, w4) /\
      (if standardize then _standardize w4 = (Ok tt, w5) else w5 = w4) /\
      _select_features w5 = (Ok tt, w').
Proof.
  split.
  { destruct (pipeline_follows cast_types standardize w)
      as (entered & Hc & Hp & Hok).
    exists entered. repeat split; try assumption.
    intros Hin. apply (handle_missing_not_expected cast_types standardize).
    eapply prefix_In; eassumption. }
  split; [apply pipeline_runs_steps |].
  intros w'. rewrite pipeline_runs_steps.
  assert (Last : forall u, run_all [_select_features] u = (Ok tt, w') <->
                           _select_features u = (Ok tt, w')).
  { intros u. rewrite run_all_returns. simpl. unfold ret. split.
    - intros (w1 & E & H). injection H as <-. exact E.
    - intros E. exists w'. auto. }
  assert (Opt : forall (b : bool) (step : M unit) rest u,
             run_all ((if b then [step] else []) ++ rest) u = (Ok tt, w') <->
             exists u1, (if b then step u = (Ok tt, u1) else u1 = u) /\
                        run_all rest u1 = (Ok tt, w')).
  { intros [] step rest u; simpl app.
    - apply run_all_returns.
    - split; [intros H; exists u; auto | intros (u1 & -> & H); exact H]. }
  unfold pipeline_steps. rewrite Opt. simpl app. split.
  - intros (w1 & E1 & H).
    apply run_all_returns in H. destruct H as (w2 & E2 & H).
    apply run_all_returns in H. destruct H as (w3 & E3 & H).
    apply run_all_returns in H. destruct H as (w4 & E4 & H).
    apply Opt in H. destruct H as (w5 & E5 & H). apply Last in H.
    exists w1, w2, w3, w4, w5. auto 10.
  - intros (w1 & w2 & w3 & w4 & w5 & E1 & E2 & E3 & E4 & E5 & E6).
    exists w1. split; [exact E1 |].
    apply run_all_returns. exists w2. split; [exact E2 |].
    apply run_all_returns. exists w3. split; [exact E3 |].
    apply run_all_returns. exists w4. split; [exact E4 |].
    apply Opt. exists w5. split; [exact E5 |]. apply Last, E6.
Qed.

End WithContext.

Lemma listings_pipeline_returns :
  is_ok (fst (run_preprocessing_pipeline
                (RT := Demo.runtime) (VARS := Demo.variables) true true
                (Demo.world_of Demo.listings))) = true.
Proof.
  repeat (progress (cbv -[IZR Rltb Sklearn.scale_column];
                    try rewrite !Rltb_IZR)).
  reflexivity.
Qed.

(** The full pipeline on the five listings: the listing priced above the
    threshold is dropped, the feature columns and the target remain. *)
Lemma listings_pipeline_result :
  let w' := snd (run_preprocessing_pipeline
                   (RT := Demo.runtime) (VARS := Demo.variables) true true
                   (Demo.world_of Demo.listings)) in
  index (owned w') = [0; 1; 3; 4] /\
  column_names (owned w')
  = ["size"; "rooms"; "floor"; "location"; "status"; "price"].
Proof.
  repeat (progress (cbv -[IZR Rltb Sklearn.scale_column];
                    try rewrite !Rltb_IZR)).
  split; reflexivity.
Qed.

Lemma run_preprocessing_pipeline_order_witness :
  let w' := snd (run_preprocessing_pipeline
                   (RT := Demo.runtime) (VARS := Demo.variables) true true
                   (Demo.world_of Demo.listings)) in
  calls w'
  = [CastTypes; ProcessPrice 17500000; ProcessSize 1000; ProcessFloor 30;
     Standardize; SelectFeatures] /\
  run_preprocessing_pipeline
    (RT := Demo.runtime) (VARS := Demo.variables) true true
    (Demo.world_of Demo.listings)
  = run_all (pipeline_steps (RT := Demo.runtime) (VARS := Demo.variables)
                            true true)
            (Demo.world_of Demo.listings) /\
  index (owned w') = [0; 1; 3; 4] /\
  column_names (owned w')
  = ["size"; "rooms"; "floor"; "location"; "status"; "price"].
Proof.
  destruct (@run_preprocessing_pipeline_order Demo.runtime Demo.variables
              true true (Demo.world_of Demo.listings))
    as ((entered & Hc & _ & Hok & _) & Hr & _).
  split; [rewrite Hc, (Hok listings_pipeline_returns); reflexivity |].
  split; [exact Hr | exact listings_pipeline_result].
Defined.

End Pipeline.

(** ** Columns of a frame *)

Section Columns.

Lemma assoc_some_in A k (l : list (string * A)) :
  In k (map fst l) -> exists a, assoc k l = Some a.
Proof.
  induction l as [| [k' a'] l IH]; simpl; [contradiction |].
  intros [E | H].
  - subst. rewrite String.eqb_refl. eauto.
  - destruct (String.eqb k k'); eauto.
Qed.

Lemma assoc_none A k (l : list (string * A)) :
  ~ In k (map fst l) -> assoc k l = None.
Proof.
  induction l as [| [k' a'] l IH]; simpl; [reflexivity |].
  intros H. destruct (String.eqb_spec k k') as [E | E].
  - exfalso. apply H. left. symmetry. exact E.
  - apply IH. intros C. apply H. right. exact C.
Qed.

Lemma assoc_in_names A k (l : list (string * A)) a :
  assoc k l = Some a -> In k (map fst l).
Proof.
  induction l as [| [k' a'] l IH]; simpl; [discriminate |].
  destruct (String.eqb_spec k k') as [E | E]; intros H.
  - left. symmetry. exact E.
  - right. apply IH, H.
Qed.

Lemma assoc_set_same A k (a : A) l : assoc k (assoc_set k a l) = Some a.
Proof.
  induction l as [| [k' a'] l IH]; simpl.
  - rewrite String.eqb_refl. reflexivity.
  - destruct (String.eqb_spec k k') as [E | E]; simpl.
    + subst. rewrite String.eqb_refl. reflexivity.
    + destruct (String.eqb_spec k k'); [contradiction | exact IH].
Qed.

Lemma assoc_set_other A k k2 (a : A) l :
  k2 <> k -> assoc k2 (assoc_set k a l) = assoc k2 l.
Proof.
  intros N. induction l as [| [k' a'] l IH]; simpl.
  - destruct (String.eqb_spec k2 k); [contradiction | reflexivity].
  - destruct (String.eqb_spec k k') as [E | E]; simpl.
    + subst. destruct (String.eqb_spec k2 k'); [contradiction | reflexivity].
    + rewrite IH. reflexivity.
Qed.

Lemma assoc_set_names_present A k (a : A) l :
  In k (map fst l) -> map fst (assoc_set k a l) = map fst l.
Proof.
  induction l as [| [k' a'] l IH]; simpl; [contradiction |].
  intros H. destruct (String.eqb_spec k k') as [E | E]; simpl.
  - reflexivity.
  - f_equal. apply IH. destruct H as [H | H]; [congruence | exact H].
Qed.

Lemma assoc_set_names_absent A k (a : A) l :
  ~ In k (map fst l) -> map fst (assoc_set k a l) = map fst l ++ [k].
Proof.
  induction l as [| [k' a'] l IH]; simpl; [reflexivity |].
  intros H. destruct (String.eqb_spec k k') as [E | E]; simpl.
  - exfalso. apply H. left. symmetry. exact E.
  - f_equal. apply IH. intros C. apply H. right. exact C.
Qed.

Lemma assoc_map A B (f : A -> B) k (l : list (string * A)) :
  assoc k (map (fun c => (fst c, f (snd c))) l) = option_map f (assoc k l).
Proof.
  induction l as [| [k' a'] l IH]; simpl; [reflexivity |].
  destruct (String.eqb k k'); [reflexivity | exact IH].
Qed.

Lemma getitem_ok df c : In c (column_names df) -> exists s, getitem df c = Ok s.
Proof.
  intros H. unfold getitem. destruct (assoc_some_in _ _ H) as (s & ->). eauto.
Qed.

Lemma getitem_ok_in df c s : getitem df c = Ok s -> In c (column_names df).
Proof.
  unfold getitem. destruct (assoc c (columns df)) eqn:E; [| discriminate].
  intros _. eapply assoc_in_names, E.
Qed.

Lemma getitem_missing df c :
  ~ In c (column_names df) -> getitem df c = Raise (KeyError c).
Proof. intros H. unfold getitem. rewrite (assoc_none _ _ H). reflexivity. Qed.

Lemma getitem_setitem_same df c s : getitem (setitem df c s) c = Ok s.
Proof. unfold getitem, setitem. simpl. rewrite assoc_set_same. reflexivity. Qed.

Lemma getitem_setitem_other df c c2 s :
  c2 <> c -> getitem (setitem df c s) c2 = getitem df c2.
Proof.
  intros N. unfold getitem, setitem. simpl. rewrite assoc_set_other by exact N.
  reflexivity.
Qed.

Lemma column_names_setitem df c s :
  In c (column_names df) -> column_names (setitem df c s) = column_names df.
Proof. intros H. apply assoc_set_names_present, H. Qed.

(** [df[[c1, ..., cn]]] when every name is a column. *)
Lemma getitem_list_ok df cols :
  has_columns df cols ->
  exists sub,
    getitem_list df cols = Ok sub /\
    index sub = index df /\
    column_names sub = cols /\
    (forall c, In c cols -> getitem sub c = getitem df c).
Proof.
  intros H. unfold getitem_list.
  assert (exists l,
             mapR (fun c => rmap (pair c) (getitem df c)) cols = Ok l /\
             map fst l = cols /\
             (forall c, In c cols ->
                        assoc c l = assoc c (columns df))) as (l & E & Hn & Ha).
  { induction cols as [| c cols IH]; simpl.
    - exists []. repeat split. intros c [].
    - destruct IH as (l & E & Hn & Ha).
      { intros c' Hc'. apply H. right. exact Hc'. }
      destruct (getitem_ok df c) as (s & Es).
      { apply H. left. reflexivity. }
      rewrite Es. simpl. rewrite E. simpl. exists ((c, s) :: l).
      split; [reflexivity |]. split; [simpl; congruence |].
      intros c' Hc'. simpl. destruct (String.eqb_spec c' c) as [-> | N].
      + unfold getitem in Es.
        destruct (assoc c (columns df)); [congruence | discriminate].
      + apply Ha. destruct Hc' as [Hc' | Hc']; [congruence | exact Hc']. }
  rewrite E. simpl. eexists. split; [reflexivity |]. simpl.
  split; [reflexivity |]. split; [exact Hn |].
  intros c Hc. unfold getitem. simpl. rewrite (Ha c Hc). reflexivity.
Qed.

(** [df[[c1, ..., cn]]] raises when a name is missing. *)
Lemma getitem_list_ok_has df cols sub :
  getitem_list df cols = Ok sub -> has_columns df cols.
Proof.
  unfold getitem_list. intros H c Hc.
  destruct (mapR (fun c => rmap (pair c) (getitem df c)) cols) as [l |] eqn:E;
    [clear H | discriminate].
  revert l E. induction cols as [| c' cols IH]; [contradiction |].
  simpl. intros l E. destruct (getitem df c') as [s |] eqn:Es; [| discriminate].
  simpl in E.
  destruct (mapR (fun c => rmap (pair c) (getitem df c)) cols) as [l' |] eqn:E';
    [| discriminate].
  destruct Hc as [<- | Hc].
  - eapply getitem_ok_in, Es.
  - eapply IH; [exact Hc | reflexivity].
Qed.

End Columns.

(** ** The heap *)

Section Heap.

Lemma nth_update_same A n (a d : A) l :
  n < length l -> nth n (update n a l) d = a.
Proof.
  revert l. induction n as [| n IH]; intros [| x l] H; simpl in *; try lia.
  - reflexivity.
  - apply IH. lia.
Qed.

Lemma nth_update_other A n m (a d : A) l :
  m <> n -> nth m (update n a l) d = nth m l d.
Proof.
  revert m l. induction n as [| n IH]; intros [| m] [| x l] H; simpl;
    try reflexivity; try contradiction.
  apply IH. congruence.
Qed.

Lemma length_update A n (a : A) l : length (update n a l) = length l.
Proof.
  revert l. induction n as [| n IH]; intros [| x l]; simpl; try reflexivity.
  f_equal. apply IH.
Qed.

Lemma owned_fresh h df cs : owned (mkWorld (h ++ [df]) (length h) cs) = df.
Proof.
  unfold owned, deref. simpl.
  rewrite app_nth2 by lia. rewrite Nat.sub_diag. reflexivity.
Qed.

Lemma deref_fresh h df cs :
  deref (mkWorld (h ++ [df]) (length h) cs) (length h) = df.
Proof. apply owned_fresh. Qed.

Lemma update_fresh A (h : list A) a b : update (length h) b (h ++ [a]) = h ++ [b].
Proof. induction h as [| x h IH]; simpl; [reflexivity | rewrite IH; reflexivity]. Qed.

Lemma deref_rebind w df r :
  r < length (heap w) -> deref (snd (rebind_self df w)) r = deref w r.
Proof.
  intros H. unfold deref, rebind_self. simpl. apply app_nth1. exact H.
Qed.

End Heap.

Lemma bind_eval A B (m : M A) (f : A -> M B) w a w1 :
  m w = (Ok a, w1) -> bind m f w = f a w1.
Proof. intros H. unfold bind. rewrite H. reflexivity. Qed.

Lemma bind_raise A B (m : M A) (f : A -> M B) w e w1 :
  m w = (Raise e, w1) -> bind m f w = (Raise e, w1).
Proof. intros H. unfold bind. rewrite H. reflexivity. Qed.

Arguments bind_eval {A B m f w a w1} _.
Arguments bind_raise {A B m f w e w1} _.

Lemma lift_eval A (r : result A) w : lift r w = (r, w).
Proof. reflexivity. Qed.

Lemma self_frame_eval w : self_frame w = (Ok (owned w), w).
Proof. reflexivity. Qed.

(** One step of a run whose first command computes. *)
Ltac run_step := erewrite bind_eval by reflexivity; cbv beta.

(** One step of a run whose first command is [lift r], with [r] known. *)
Ltac run_lift H :=
  erewrite bind_eval by (rewrite lift_eval, H; reflexivity); cbv beta.

(** Entering a method leaves the heap and the attribute as they are. *)
Ltac fold_owned w :=
  repeat match goal with
    | |- context [deref ?w' (self_df w)] =>
        change (deref w' (self_df w)) with (owned w)
    end.

(** ** C9: feature selection *)

Module SelectFeatures.
Import DataPreprocessor.

Section WithContext.
Context {VARS : Variables}.

(** C9.  When the owned dataset has every column of [FEAT_COLS] and
    [TARGET_COL], whatever else it has, [_select_features] does not raise
    and leaves an owned dataset whose columns are [FEAT_COLS] in their order
    followed by [TARGET_COL]: the kept columns and the rows are those of the
    dataset before, every other column is gone. *)
Theorem select_features_columns (w : World) :
  has_columns (owned w) (FEAT_COLS ++ [TARGET_COL]) ->
  exists w',
    _select_features w = (Ok tt, w') /\
    column_names (owned w') = FEAT_COLS ++ [TARGET_COL] /\
    index (owned w') = index (owned w) /\
    (forall c, In c (FEAT_COLS ++ [TARGET_COL]) ->
               getitem (owned w') c = getitem (owned w) c) /\
    (forall c, ~ In c (FEAT_COLS ++ [TARGET_COL]) ->
               getitem (owned w') c = Raise (KeyError c)).
Proof.
  intros H.
  destruct (getitem_list_ok H) as (sub & E & Hi & Hn & Hg).
  unfold _select_features, enter, bind, self_frame, lift. simpl.
  fold_owned w. rewrite E.
  eexists. split; [reflexivity |]. simpl heap. rewrite owned_fresh.
  repeat split; try assumption.
  intros c Hc. apply getitem_missing. rewrite Hn. exact Hc.
Qed.

End WithContext.

Lemma select_features_columns_witness :
  exists w',
    _select_features (VARS := Demo.variables) (Demo.world_of Demo.listings)
      = (Ok tt, w') /\
    column_names (owned w')
      = ["size"; "rooms"; "floor"; "location"; "status"; "price"] /\
    index (owned w') = [0; 1; 2; 3; 4] /\
    getitem (owned w') "url" = Raise (KeyError "url").
Proof.
  destruct (@select_features_columns Demo.variables
              (Demo.world_of Demo.listings)) as (w' & E & Hn & Hi & _ & Hm).
  { intros c Hc. simpl in Hc.
    repeat (destruct Hc as [<- | Hc]; [simpl; tauto |]). contradiction. }
  exists w'. repeat split; try assumption.
  apply Hm. simpl. intros C.
  repeat (destruct C as [C | C]; [discriminate |]). exact C.
Defined.

End SelectFeatures.

(** ** The split *)

Module Split.
Import DataPreprocessor.

Section WithContext.
Context {RT : Runtime} {VARS : Variables}.

(** The split reads the owned dataset and writes nothing but the log. *)
Lemma train_test_split_run (w : World) :
  train_test_split w
  = (rbind (getitem_list (owned w) FEAT_COLS) (fun X =>
     rbind (getitem (owned w) TARGET_COL) (fun y =>
     Sklearn.train_test_split X y 0.2 42)),
     mkWorld (heap w) (self_df w) (calls w ++ [TrainTestSplit])).
Proof.
  unfold train_test_split, enter, bind, self_frame, lift. simpl.
  fold_owned w.
  destruct (getitem_list (owned w) FEAT_COLS) as [X |]; simpl;
    [| reflexivity].
  destruct (getitem (owned w) TARGET_COL) as [y |]; simpl; reflexivity.
Qed.

Lemma train_test_split_owned (w : World) :
  owned (snd (train_test_split w)) = owned w.
Proof. rewrite train_test_split_run. reflexivity. Qed.

Lemma train_test_split_same_frame (w1 w2 : World) :
  owned w1 = owned w2 ->
  fst (train_test_split w1) = fst (train_test_split w2).
Proof. intros E. rewrite !train_test_split_run. simpl. rewrite E. reflexivity. Qed.

End WithContext.

Lemma n_test_of_fifth n : Sklearn.n_test_of 0.2 n = (n + 4) / 5.
Proof.
  unfold Sklearn.n_test_of.
  replace (Qceiling (0.2 * inject_Z (Z.of_nat n)))
    with (- (- (2 * Z.of_nat n) / 10))%Z by reflexivity.
  apply Nat2Z.inj. rewrite Nat2Z.inj_div, Z2Nat.id.
  - rewrite Nat2Z.inj_add. Z.div_mod_to_equations. lia.
  - Z.div_mod_to_equations. lia.
Qed.

Lemma length_take A (d : A) idx l : length (take d idx l) = length idx.
Proof. unfold take. apply length_map. Qed.

Lemma take_seq A (d : A) l : take d (seq 0 (length l)) l = l.
Proof.
  unfold take. induction l as [| x l IH]; simpl; [reflexivity |].
  f_equal. rewrite <- seq_shift, map_map. exact IH.
Qed.

Lemma take_app A (d : A) i1 i2 l : take d (i1 ++ i2) l = take d i1 l ++ take d i2 l.
Proof. unfold take. apply map_app. Qed.

Lemma nrows_iloc df idx : nrows (iloc df idx) = length idx.
Proof. unfold nrows, iloc. simpl. apply length_take. Qed.

Lemma index_iloc df idx : index (iloc df idx) = take 0 idx (index df).
Proof. reflexivity. Qed.

Lemma length_series_take idx s :
  length (s_values (series_take idx s)) = length idx.
Proof. unfold series_take. simpl. apply length_take. Qed.

Lemma column_names_iloc df idx : column_names (iloc df idx) = column_names df.
Proof.
  unfold column_names, iloc. simpl. rewrite map_map. reflexivity.
Qed.

Lemma getitem_iloc df idx c s :
  getitem df c = Ok s -> getitem (iloc df idx) c = Ok (series_take idx s).
Proof.
  unfold getitem, iloc. simpl.
  rewrite (assoc_map (series_take idx)).
  destruct (assoc c (columns df)); simpl; congruence.
Qed.

Lemma demo_rng_lawful : rng_lawful (RT := Demo.runtime).
Proof.
  intros seed n. simpl. apply Permutation_sym, Permutation_rev.
Qed.

Section Sklearn.
Context {RT : Runtime}.

(** Whatever [train_test_split] returns is cut out of [X] and [y] by two
    lists of positions. *)
Lemma sk_split_inv X y test_size seed X_train X_test y_train y_test :
  Sklearn.train_test_split X y test_size seed
    = Ok (X_train, X_test, y_train, y_test) ->
  exists ind_train ind_test,
    X_train = iloc X ind_train /\ X_test = iloc X ind_test /\
    y_train = series_take ind_train y /\ y_test = series_take ind_test y.
Proof.
  unfold Sklearn.train_test_split.
  destruct (nrows X - Sklearn.n_test_of test_size (nrows X) =? 0)%nat;
    [discriminate |].
  intros H. injection H as <- <- <- <-. eauto 10.
Qed.

(** With two rows or more, a fifth of the rows (rounded up) goes to the
    test part and the rest to the training part. *)
Lemma sk_split_ok X y :
  rng_lawful -> 2 <= nrows X ->
  exists ind_train ind_test,
    Sklearn.train_test_split X y 0.2 42
      = Ok (iloc X ind_train, iloc X ind_test,
            series_take ind_train y, series_take ind_test y) /\
    length ind_test = (nrows X + 4) / 5 /\
    length ind_train = nrows X - (nrows X + 4) / 5 /\
    Permutation (ind_train ++ ind_test) (seq 0 (nrows X)).
Proof.
  intros L Hn. unfold Sklearn.train_test_split.
  rewrite n_test_of_fifth.
  set (n := nrows X) in *. set (k := (n + 4) / 5).
  assert (Hk : k < n) by (apply Nat.Div0.div_lt_upper_bound; lia).
  destruct (Nat.eqb_spec (n - k) 0) as [E | _]; [lia |].
  pose proof (Permutation_length (L 42%Z n)) as Hl. rewrite length_seq in Hl.
  set (p := rng_permutation 42 n) in *.
  assert (Hs : firstn (n - k) (skipn k p) = skipn k p).
  { apply firstn_all2. rewrite length_skipn. lia. }
  rewrite Hs. exists (skipn k p), (firstn k p).
  split; [reflexivity |]. split; [rewrite length_firstn; lia |].
  split; [rewrite length_skipn; lia |].
  eapply Permutation_trans; [apply Permutation_app_comm |].
  rewrite firstn_skipn. apply L.
Qed.

(** With fewer than two rows the training part would be empty. *)
Lemma sk_split_small X y :
  nrows X < 2 -> Sklearn.train_test_split X y 0.2 42 = Raise ValueError.
Proof.
  intros Hn. unfold Sklearn.train_test_split. rewrite n_test_of_fifth.
  assert (E : nrows X - (nrows X + 4) / 5 = 0).
  { destruct (nrows X) as [| [| n]]; [reflexivity | reflexivity | lia]. }
  rewrite E. reflexivity.
Qed.

End Sklearn.

(** *** C5: the split before feature selection *)

Section WithContext.
Context {RT : Runtime} {VARS : Variables}.

(** C5, as the code has it.  Whatever columns the owned dataset holds,
    when [train_test_split] returns, the training and the holdout features
    have the columns [FEAT_COLS], in that order, and the two targets are
    cut out of the column [TARGET_COL]: the method projects the dataset
    itself and returns the same columns before and after
    [_select_features]. *)
Theorem train_test_split_projects (w w' : World)
        (X_train X_test : DataFrame) (y_train y_test : Series) :
  train_test_split w = (Ok (X_train, X_test, y_train, y_test), w') ->
  column_names X_train = FEAT_COLS /\
  column_names X_test = FEAT_COLS /\
  exists y ind_train ind_test,
    getitem (owned w) TARGET_COL = Ok y /\
    y_train = series_take ind_train y /\
    y_test = series_take ind_test y /\
    index X_train = take 0 ind_train (index (owned w)) /\
    index X_test = take 0 ind_test (index (owned w)) /\
    forall c s, In c FEAT_COLS -> getitem (owned w) c = Ok s ->
      getitem X_train c = Ok (series_take ind_train s) /\
      getitem X_test c = Ok (series_take ind_test s).
Proof.
  rewrite train_test_split_run. intros H. injection H as H _.
  destruct (getitem_list (owned w) FEAT_COLS) as [X |] eqn:EX;
    [| discriminate].
  destruct (getitem (owned w) TARGET_COL) as [y |] eqn:Ey; [| discriminate].
  simpl in H.
  destruct (sk_split_inv _ _ _ _ H) as (it & ie & -> & -> & -> & ->).
  destruct (getitem_list_ok (getitem_list_ok_has _ _ EX))
    as (X' & EX' & Hi & Hn & Hg).
  rewrite EX in EX'. injection EX' as <-.
  rewrite !column_names_iloc, Hn. repeat split.
  exists y, it, ie. repeat split; simpl; try (rewrite Hi; reflexivity).
  - apply getitem_iloc. rewrite Hg; assumption.
  - apply getitem_iloc. rewrite Hg; assumption.
Qed.

(** *** C8: the split is an 80/20 one and is the same at every call *)

(** C8, as the code has it.  On a dataset that has the columns of
    [FEAT_COLS] and [TARGET_COL]: with fewer than two rows
    [train_test_split] raises ValueError, the training part being empty;
    with two rows or more it returns four objects, those of scikit-learn's
    [train_test_split] with test size 0.2 and seed 42; the holdout part has
    a fifth of the rows (rounded up) and the training part the others, each
    row in exactly one of them.  Either way the owned dataset is left as it
    was, and every other call on a world that owns the same dataset returns
    the same four objects. *)
Theorem train_test_split_deterministic (w : World) :
  has_columns (owned w) (FEAT_COLS ++ [TARGET_COL]) ->
  (nrows (owned w) < 2 ->
   fst (train_test_split w) = Raise ValueError /\
   owned (snd (train_test_split w)) = owned w) /\
  (rng_lawful ->
   2 <= nrows (owned w) ->
   exists X_train X_test y_train y_test w',
    train_test_split w = (Ok (X_train, X_test, y_train, y_test), w') /\
    (exists X y,
        getitem_list (owned w) FEAT_COLS = Ok X /\
        getitem (owned w) TARGET_COL = Ok y /\
        Sklearn.train_test_split X y 0.2 42
        = Ok (X_train, X_test, y_train, y_test)) /\
    nrows X_test = (nrows (owned w) + 4) / 5 /\
    nrows X_train = nrows (owned w) - (nrows (owned w) + 4) / 5 /\
    length (s_values y_test) = nrows X_test /\
    length (s_values y_train) = nrows X_train /\
    Permutation (index X_train ++ index X_test) (index (owned w)) /\
    owned w' = owned w /\
    fst (train_test_split w') = Ok (X_train, X_test, y_train, y_test) /\
    forall w2, owned w2 = owned w ->
      fst (train_test_split w2) = Ok (X_train, X_test, y_train, y_test)).
Proof.
  intros Hc.
  assert (HF : has_columns (owned w) FEAT_COLS).
  { intros c H. apply Hc, in_or_app. left. exact H. }
  destruct (getitem_list_ok HF) as (X & EX & Hi & Hnm & Hg).
  destruct (getitem_ok (owned w) TARGET_COL) as (y & Ey).
  { apply Hc, in_or_app. right. left. reflexivity. }
  assert (HnX : nrows X = nrows (owned w)) by (unfold nrows; congruence).
  split.
  { intros Hn. rewrite train_test_split_run. simpl.
    split; [| reflexivity].
    rewrite EX. simpl. rewrite Ey. simpl.
    apply sk_split_small. lia. }
  intros L Hn.
  destruct (sk_split_ok X y L) as (it & ie & Es & Hle & Hlt & Hp);
    [lia |].
  assert (R : forall w2, owned w2 = owned w ->
                fst (train_test_split w2)
                = Ok (iloc X it, iloc X ie,
                      series_take it y, series_take ie y)).
  { intros w2 E2. rewrite train_test_split_run. simpl.
    rewrite E2, EX. simpl. rewrite Ey. simpl. exact Es. }
  exists (iloc X it), (iloc X ie), (series_take it y), (series_take ie y).
  eexists. split.
  { rewrite train_test_split_run. f_equal.
    rewrite <- (R w eq_refl), train_test_split_run. reflexivity. }
  split; [exists X, y; auto |].
  rewrite !nrows_iloc, !length_series_take, <- HnX.
  repeat split; try assumption; try reflexivity.
  - rewrite !index_iloc, <- take_app, Hi.
    rewrite <- (take_seq 0 (index (owned w))) at 2.
    unfold take. apply Permutation_map.
    unfold nrows in Hp. rewrite Hi in Hp. exact Hp.
  - apply R. reflexivity.
Qed.

End WithContext.

Lemma train_test_split_projects_witness :
  exists X_train X_test y_train y_test w',
    train_test_split (RT := Demo.runtime) (VARS := Demo.variables)
                     (Demo.world_of Demo.listings)
      = (Ok (X_train, X_test, y_train, y_test), w') /\
    column_names X_train = ["size"; "rooms"; "floor"; "location"; "status"] /\
    column_names X_test = ["size"; "rooms"; "floor"; "location"; "status"].
Proof.
  pose proof (@train_test_split_projects Demo.runtime Demo.variables
                (Demo.world_of Demo.listings)) as T.
  do 5 eexists. split; [vm_compute; reflexivity |].
  edestruct T as (H1 & H2 & _); [vm_compute; reflexivity |].
  split; [exact H1 | exact H2].
Defined.

(** C5 fails on the code: the listings still hold the columns [id] and
    [url], which are neither features nor the target, and the features
    returned by the split have the columns [FEAT_COLS] all the same. *)
Lemma train_test_split_before_selection_has_feat_cols :
  In "url" (column_names Demo.listings) /\
  ~ In "url" (@FEAT_COLS Demo.variables ++ [@TARGET_COL Demo.variables]) /\
  exists X_train X_test y_train y_test w',
    train_test_split (RT := Demo.runtime) (VARS := Demo.variables)
                     (Demo.world_of Demo.listings)
      = (Ok (X_train, X_test, y_train, y_test), w') /\
    column_names X_train = @FEAT_COLS Demo.variables /\
    column_names X_test = @FEAT_COLS Demo.variables.
Proof.
  split; [simpl; tauto |]. split.
  { simpl. intros C. repeat (destruct C as [C | C]; [discriminate |]). exact C. }
  do 5 eexists. split; [vm_compute; reflexivity |].
  split; reflexivity.
Qed.

Lemma demo_has_columns :
  has_columns Demo.listings
              (@FEAT_COLS Demo.variables ++ [@TARGET_COL Demo.variables]).
Proof.
  intros c Hc. simpl in Hc.
  repeat (destruct Hc as [<- | Hc]; [simpl; tauto |]). contradiction.
Qed.

Lemma train_test_split_deterministic_witness :
  exists X_train X_test y_train y_test w',
    train_test_split (RT := Demo.runtime) (VARS := Demo.variables)
                     (Demo.world_of Demo.listings)
      = (Ok (X_train, X_test, y_train, y_test), w') /\
    nrows X_test = 1 /\ nrows X_train = 4 /\
    fst (train_test_split (RT := Demo.runtime) (VARS := Demo.variables) w')
      = Ok (X_train, X_test, y_train, y_test).
Proof.
  destruct (@train_test_split_deterministic Demo.runtime Demo.variables
              (Demo.world_of Demo.listings) demo_has_columns) as (_ & T).
  destruct (T demo_rng_lawful)
    as (a & b & c & d & w' & E & _ & H1 & H2 & _ & _ & _ & _ & H3 & _).
  { vm_compute. lia. }
  exists a, b, c, d, w'. repeat split; assumption.
Defined.

(** C8 fails on the code for a dataset of fewer than two rows: the
    training part would be empty and scikit-learn raises. *)
Lemma train_test_split_raises_on_small_dataset :
  has_columns DemoTables.no_listings
    (@FEAT_COLS Demo.variables ++ [@TARGET_COL Demo.variables]) /\
  fst (train_test_split (RT := Demo.runtime) (VARS := Demo.variables)
                        (Demo.world_of DemoTables.no_listings))
    = Raise ValueError /\
  fst (train_test_split (RT := Demo.runtime) (VARS := Demo.variables)
                        (Demo.world_of DemoTables.one_listing))
    = Raise ValueError.
Proof.
  split; [exact demo_has_columns |]. split; vm_compute; reflexivity.
Qed.

End Split.

(** ** Masks *)

Section Masks.

Lemma filter_mask_nil A (m : list bool) : filter_mask m (@nil A) = [].
Proof. destruct m as [| [] m]; reflexivity. Qed.

Lemma filter_mask_map A B (f : A -> B) m l :
  filter_mask m (map f l) = map f (filter_mask m l).
Proof.
  revert l. induction m as [| b m IH]; intros [| x l]; simpl; try reflexivity.
  destruct b; simpl; rewrite IH; reflexivity.
Qed.

(** Two masks in a row are one mask. *)
Lemma filter_mask_twice A B (f g : B -> bool) (vs : list B) (l : list A) :
  filter_mask (filter_mask (map f vs) (map g vs)) (filter_mask (map f vs) l)
  = filter_mask (map (fun v => f v && g v) vs) l.
Proof.
  revert l. induction vs as [| v vs IH]; intros l; simpl.
  - destruct l; reflexivity.
  - destruct l as [| x l].
    + rewrite !filter_mask_nil. reflexivity.
    + destruct (f v), (g v); simpl; rewrite IH; reflexivity.
Qed.

Lemma filter_mask_self A (f : A -> bool) l :
  filter_mask (map f l) l = filter f l.
Proof.
  induction l as [| x l IH]; simpl; [reflexivity |].
  destruct (f x); rewrite IH; reflexivity.
Qed.

Lemma assoc_set_map A (f : A -> A) k a (l : list (string * A)) :
  map (fun c => (fst c, f (snd c))) (assoc_set k a l)
  = assoc_set k (f a) (map (fun c => (fst c, f (snd c))) l).
Proof.
  induction l as [| [k' a'] l IH]; simpl; [reflexivity |].
  destruct (String.eqb k k'); simpl; [reflexivity | rewrite IH; reflexivity].
Qed.

Lemma loc_mask_setitem df c s m :
  loc_mask (setitem df c s) m = setitem (loc_mask df m) c (series_mask m s).
Proof.
  unfold loc_mask, setitem. simpl. f_equal.
  apply (assoc_set_map (series_mask m)).
Qed.

Lemma getitem_loc_mask df m c :
  getitem (loc_mask df m) c = rmap (series_mask m) (getitem df c).
Proof.
  unfold getitem, loc_mask. simpl. rewrite (assoc_map (series_mask m)).
  destruct (assoc c (columns df)); reflexivity.
Qed.

Lemma column_names_loc_mask df m :
  column_names (loc_mask df m) = column_names df.
Proof. unfold column_names, loc_mask. simpl. rewrite map_map. reflexivity. Qed.

Lemma loc_mask_twice B (f g : B -> bool) vs df :
  loc_mask (loc_mask df (map f vs)) (filter_mask (map f vs) (map g vs))
  = loc_mask df (map (fun v => f v && g v) vs).
Proof.
  unfold loc_mask. simpl. rewrite filter_mask_twice, map_map. f_equal.
  apply map_ext. intros [k s]. simpl. unfold series_mask. simpl.
  rewrite filter_mask_twice. reflexivity.
Qed.

End Masks.

(** ** C2: prices *)

Module Price.
Import DataPreprocessor.

Section WithContext.
Context {RT : Runtime}.

Lemma coerce_cell_not_str v s : coerce_cell v <> Str s.
Proof.
  destruct v as [| x | s']; simpl; try discriminate.
  destruct (str_to_float s'); discriminate.
Qed.

Lemma float_cell_kept v :
  price_ok v = true -> float_cell v = Ok (coerce_cell v).
Proof.
  unfold price_ok. destruct v as [| x | s]; simpl; try reflexivity.
  destruct (str_to_float s); [reflexivity | discriminate].
Qed.

Lemma astype_float_kept vals :
  mapR float_cell (filter_mask (map price_ok vals) vals)
  = Ok (filter_mask (map price_ok vals) (map coerce_cell vals)).
Proof.
  induction vals as [| v vals IH]; simpl; [reflexivity |].
  destruct (price_ok v) eqn:E; [| exact IH].
  simpl. rewrite (float_cell_kept _ E). simpl. rewrite IH. reflexivity.
Qed.

Lemma lt_cells_kept t vals :
  mapR (lt_cell t) (filter_mask (map price_ok vals) (map coerce_cell vals))
  = Ok (filter_mask (map price_ok vals) (map (below t) vals)).
Proof.
  induction vals as [| v vals IH]; simpl; [reflexivity |].
  destruct (price_ok v) eqn:E; [| exact IH].
  simpl. unfold price_ok in E. unfold below at 1.
  destruct (coerce_cell v) as [| x | s] eqn:Ec; try discriminate.
  - simpl. rewrite IH. reflexivity.
  - exfalso. destruct v as [| y | s']; simpl in Ec; try discriminate.
    destruct (str_to_float s'); discriminate.
Qed.

Lemma keep_below_ok col t w s mask :
  getitem (owned w) col = Ok s -> lt_scalar s t = Ok mask ->
  keep_below col t w
  = (Ok tt, mkWorld (heap w ++ [loc_mask (owned w) mask])
                    (length (heap w)) (calls w)).
Proof.
  intros Hs Hm. unfold keep_below, bind, self_frame, lift, rebind_self.
  fold (owned w). rewrite Hs, Hm. reflexivity.
Qed.

Lemma keep_below_raise col t w s e :
  getitem (owned w) col = Ok s -> lt_scalar s t = Raise e ->
  keep_below col t w = (Raise e, w).
Proof.
  intros Hs Hm. unfold keep_below, bind, self_frame, lift, rebind_self.
  fold (owned w). rewrite Hs, Hm. reflexivity.
Qed.

(** The frame that [_process_price] leaves. *)
Lemma process_price_run t w p :
  getitem (owned w) "price" = Ok p ->
  let keep := map (price_kept t) (s_values p) in
  exists w',
    _process_price t w = (Ok tt, w') /\
    owned w'
    = setitem (loc_mask (owned w) keep) "price"
              (mkSeries float64
                        (filter_mask keep (map coerce_cell (s_values p)))) /\
    (forall r, r < length (heap w) -> deref w' r = deref w r).
Proof.
  intros Hp keep. unfold _process_price.
  run_step. erewrite bind_eval by apply self_frame_eval. cbv beta.
  change (owned (mkWorld (heap w) (self_df w) (calls w ++ [ProcessPrice t])))
    with (owned w).
  run_lift Hp. run_step. simpl heap. simpl calls.
  erewrite bind_eval by apply self_frame_eval. cbv beta.
  rewrite owned_fresh.
  erewrite bind_eval
    by (rewrite lift_eval, getitem_loc_mask, Hp; reflexivity).
  cbv beta. unfold astype_float, series_mask at 1.
  simpl s_values. unfold notna at 1 2, to_numeric_coerce. simpl s_values.
  rewrite map_map.
  change (map (fun x => negb (isna (coerce_cell x))) (s_values p))
    with (map price_ok (s_values p)).
  rewrite astype_float_kept. simpl rmap.
  run_step. run_step. simpl heap. simpl self_df. simpl calls.
  rewrite update_fresh.
  set (df2 := setitem _ "price" _).
  destruct (Rltb 0 t) eqn:Et.
  - erewrite keep_below_ok.
    2:{ unfold owned. simpl self_df. rewrite deref_fresh.
        apply getitem_setitem_same. }
    2:{ unfold lt_scalar. simpl. apply lt_cells_kept. }
    eexists. split; [reflexivity |]. split.
    + simpl heap. rewrite owned_fresh.
      unfold owned at 1. simpl self_df. rewrite deref_fresh.
      subst df2. rewrite loc_mask_setitem, loc_mask_twice.
      unfold series_mask. simpl. rewrite filter_mask_twice.
      unfold keep, price_kept. rewrite Et. reflexivity.
    + intros r Hr. unfold deref. simpl heap.
      rewrite app_nth1 by (rewrite length_app; simpl; lia).
      apply app_nth1. exact Hr.
  - eexists. split; [reflexivity |]. split.
    + rewrite owned_fresh. subst df2.
      assert (Ek : keep = map price_ok (s_values p)).
      { unfold keep, price_kept. rewrite Et. apply map_ext.
        intros v. apply andb_true_r. }
      rewrite Ek. reflexivity.
    + intros r Hr. unfold deref. simpl heap. apply app_nth1. exact Hr.
Qed.

Lemma kept_prices_are_numbers t vals :
  all_numbers (fun x => (0 < t)%R -> (x < t)%R)
              (filter_mask (map (price_kept t) vals) (map coerce_cell vals)).
Proof.
  unfold all_numbers.
  induction vals as [| v vals IH]; simpl; [constructor |].
  destruct (price_kept t v) eqn:E; [| exact IH].
  constructor; [| exact IH].
  unfold price_kept, price_ok, below in E.
  apply andb_true_iff in E. destruct E as [E1 E2].
  destruct (coerce_cell v) as [| x | s'] eqn:Ec; try discriminate;
    [| exfalso; exact (coerce_cell_not_str _ Ec)].
  exists x. split; [reflexivity |]. intros Ht.
  rewrite (Rltb_true Ht) in E2. apply Rltb_spec, E2.
Qed.

Lemma process_price_general (t : R) (w : World) (p : Series) :
  getitem (owned w) "price" = Ok p ->
  let keep := map (price_kept t) (s_values p) in
  exists w',
    _process_price t w = (Ok tt, w') /\
    index (owned w') = filter_mask keep (index (owned w)) /\
    column_names (owned w') = column_names (owned w) /\
    getitem (owned w') "price"
      = Ok (mkSeries float64
                     (filter_mask keep (map coerce_cell (s_values p)))) /\
    (forall c s, c <> "price" -> getitem (owned w) c = Ok s ->
                 getitem (owned w') c = Ok (series_mask keep s)) /\
    all_numbers (fun x => (0 < t)%R -> (x < t)%R)
                (filter_mask keep (map coerce_cell (s_values p))) /\
    ((t <= 0)%R -> keep = map price_ok (s_values p)).
Proof.
  intros Hp keep.
  destruct (process_price_run t w Hp) as (w' & E & Ho & _).
  exists w'. split; [exact E |]. fold keep in Ho. rewrite Ho.
  split; [reflexivity |]. split.
  { rewrite column_names_setitem; rewrite column_names_loc_mask;
      [reflexivity | eapply getitem_ok_in, Hp]. }
  split; [apply getitem_setitem_same |]. split.
  { intros c s Hc Hs. rewrite getitem_setitem_other by exact Hc.
    rewrite getitem_loc_mask, Hs. reflexivity. }
  split; [apply kept_prices_are_numbers |].
  intros Ht. unfold keep, price_kept.
  rewrite Rltb_false by lra. apply map_ext. intros v. apply andb_true_r.
Qed.

End WithContext.

(** C2.  On a dataset with a [price] column, [_process_price] does not
    raise.  It removes the rows whose price does not coerce to a number
    (missing, or a string that does not parse) and, when [filter_price] is
    positive, the rows whose price is not strictly below it; the rows kept
    keep their labels and their cells, except that the price column becomes
    a float64 column of their prices as numbers.  With [filter_price] at
    most 0 only the rows that do not coerce are removed.  On the prices
    ["100000"; "abc"; "250000"], [_process_price 0] leaves two rows, with
    the prices 100000.0 and 250000.0. *)
Theorem process_price_spec :
  (forall (RT : Runtime) (t : R) (w : World) (p : Series),
      getitem (owned w) "price" = Ok p ->
      let keep := map (price_kept t) (s_values p) in
      exists w',
        _process_price t w = (Ok tt, w') /\
        index (owned w') = filter_mask keep (index (owned w)) /\
        column_names (owned w') = column_names (owned w) /\
        getitem (owned w') "price"
          = Ok (mkSeries float64
                         (filter_mask keep (map coerce_cell (s_values p)))) /\
        (forall c s, c <> "price" -> getitem (owned w) c = Ok s ->
                     getitem (owned w') c = Ok (series_mask keep s)) /\
        all_numbers (fun x => (0 < t)%R -> (x < t)%R)
                    (filter_mask keep (map coerce_cell (s_values p))) /\
        ((t <= 0)%R -> keep = map price_ok (s_values p))) /\
  (exists w',
      _process_price (RT := Demo.runtime) 0
                     (Demo.world_of DemoTables.three_prices) = (Ok tt, w') /\
      nrows (owned w') = 2 /\
      index (owned w') = [0; 2] /\
      getitem (owned w') "price"
        = Ok (mkSeries float64 [Num 100000; Num 250000])).
Proof.
  split; [intros RT; apply process_price_general |].
  destruct (@process_price_general Demo.runtime 0
              (Demo.world_of DemoTables.three_prices)
              (mkSeries object [Str "100000"; Str "abc"; Str "250000"])
              eq_refl) as (w' & E & Hi & _ & Hp & _ & _ & Hk).
  rewrite Hk in * by lra.
  exists w'. split; [exact E |]. unfold nrows. rewrite Hi, Hp.
  repeat split.
Qed.

Lemma process_price_spec_witness :
  exists w',
    _process_price (RT := Demo.runtime) 17500000
                   (Demo.world_of Demo.listings) = (Ok tt, w') /\
    index (owned w') = [0; 1; 3; 4].
Proof.
  destruct (proj1 process_price_spec Demo.runtime 17500000%R
              (Demo.world_of Demo.listings)
              (mkSeries object
                 [Str "450000"; Str "620000"; Num 99000000;
                  Str "380000"; Str "710000"])
              eq_refl) as (w' & E & Hi & _).
  exists w'. split; [exact E |]. rewrite Hi.
  cbv -[IZR Rltb]. rewrite !Rltb_IZR. reflexivity.
Defined.

End Price.

(** ** C3: missing values and duplicates *)

Module Missing.
Import DataPreprocessor.

Lemma owned_store w df :
  valid_world w -> owned (snd (store_self df w)) = df.
Proof.
  intros V. unfold owned, deref, store_self, store. simpl.
  apply nth_update_same. exact V.
Qed.

Lemma valid_store w df : valid_world w -> valid_world (snd (store_self df w)).
Proof.
  unfold valid_world, store_self, store. simpl. rewrite length_update. auto.
Qed.

Lemma calls_store w df : calls (snd (store_self df w)) = calls w.
Proof. reflexivity. Qed.

(** [self.df[col].fillna(v, inplace=True)] writes the filled column into
    the owned object. *)
Lemma fillna_inplace_ok col v w s s' :
  getitem (owned w) col = Ok s -> fillna v s = Ok s' ->
  fillna_inplace col v w
  = (Ok tt, snd (store_self (fill_column col v (owned w)) w)).
Proof.
  intros Hs Hf. unfold fillna_inplace.
  erewrite bind_eval by apply self_frame_eval. cbv beta.
  run_lift Hs. run_lift Hf.
  unfold fill_column. rewrite Hs. simpl rbind. rewrite Hf. reflexivity.
Qed.

Lemma keep_notna_ok col w s :
  getitem (owned w) col = Ok s ->
  keep_notna col w
  = (Ok tt, mkWorld (heap w ++ [keep_present col (owned w)])
                    (length (heap w)) (calls w)).
Proof.
  intros Hs. unfold keep_notna.
  erewrite bind_eval by apply self_frame_eval. cbv beta.
  run_lift Hs. unfold keep_present. rewrite Hs. reflexivity.
Qed.

Lemma fillna_ok v s :
  is_category (s_dtype s) = false ->
  exists d, fillna v s = Ok (mkSeries d (map (fill_cell v) (s_values s))).
Proof.
  unfold fillna. destruct (s_dtype s); try discriminate; eauto.
Qed.

Lemma fill_column_getitem_other col v df c :
  c <> col -> getitem (fill_column col v df) c = getitem df c.
Proof.
  intros N. unfold fill_column.
  destruct (rbind (getitem df col) (fillna v)); [| reflexivity].
  apply getitem_setitem_other. exact N.
Qed.

Lemma fill_column_getitem_same col v df s :
  getitem df col = Ok s -> is_category (s_dtype s) = false ->
  exists d,
    getitem (fill_column col v df) col
    = Ok (mkSeries d (map (fill_cell v) (s_values s))).
Proof.
  intros Hs Hc. unfold fill_column. rewrite Hs. simpl.
  destruct (fillna_ok v s Hc) as (d & ->). exists d.
  apply getitem_setitem_same.
Qed.

Lemma fill_column_index col v df : index (fill_column col v df) = index df.
Proof.
  unfold fill_column.
  destruct (rbind (getitem df col) (fillna v)); reflexivity.
Qed.

Lemma fill_column_names col v df :
  column_names (fill_column col v df) = column_names df.
Proof.
  unfold fill_column. destruct (getitem df col) as [s |] eqn:E; simpl;
    [| reflexivity].
  destruct (fillna v s); [| reflexivity].
  apply column_names_setitem. eapply getitem_ok_in, E.
Qed.

(** [duplicated] marks the rows that repeat an earlier row. *)
Lemma duplicated_from_nth rs seen i :
  i < length rs ->
  nth i (duplicated_from seen rs) false
  = existsb (row_eqb (nth i rs [])) seen
    || existsb (row_eqb (nth i rs [])) (firstn i rs).
Proof.
  revert seen i. induction rs as [| r rs IH]; intros seen i Hi; simpl in Hi;
    [lia |].
  destruct i as [| i]; simpl.
  - rewrite orb_false_r. reflexivity.
  - rewrite IH by lia. simpl.
    destruct (row_eqb (nth i rs []) r), (existsb (row_eqb (nth i rs [])) seen);
      reflexivity.
Qed.

Lemma length_transpose n cols : length (transpose n cols) = n.
Proof.
  revert cols. induction n as [| n IH]; intros cols; simpl;
    [reflexivity | rewrite IH; reflexivity].
Qed.

Lemma length_rows df : length (rows df) = nrows df.
Proof. apply length_transpose. Qed.

Lemma duplicated_spec df i :
  i < nrows df ->
  nth i (duplicated df) false = true <->
  exists j, j < i /\
            row_eqb (nth i (rows df) []) (nth j (rows df) []) = true.
Proof.
  intros Hi. unfold duplicated.
  rewrite duplicated_from_nth by (rewrite length_rows; exact Hi).
  simpl. rewrite existsb_exists. split.
  - intros (r & Hin & Hr).
    destruct (In_nth _ _ [] Hin) as (j & Hj & Ej).
    rewrite length_firstn in Hj. exists j. split; [lia |].
    rewrite <- Ej in Hr. rewrite nth_firstn in Hr.
    destruct (Nat.ltb_spec j i); [exact Hr | lia].
  - intros (j & Hj & Hr). exists (nth j (rows df) []). split; [| exact Hr].
    assert (E : nth j (firstn i (rows df)) [] = nth j (rows df) []).
    { rewrite nth_firstn. destruct (Nat.ltb_spec j i); [reflexivity | lia]. }
    rewrite <- E. apply nth_In. rewrite length_firstn, length_rows. lia.
Qed.

Lemma fillable_fill_other col v df c :
  c <> col -> fillable df c -> fillable (fill_column col v df) c.
Proof.
  intros N (s & Hs & Hc). exists s.
  rewrite fill_column_getitem_other by exact N. auto.
Qed.

(** One fill: the owned object is overwritten, nothing else changes. *)
Lemma fill_step col v w :
  valid_world w -> fillable (owned w) col ->
  exists w1,
    fillna_inplace col v w = (Ok tt, w1) /\
    valid_world w1 /\
    owned w1 = fill_column col v (owned w) /\
    calls w1 = calls w.
Proof.
  intros V (s & Hs & Hc). destruct (fillna_ok v s Hc) as (d & Hf).
  eexists. split; [eapply fillna_inplace_ok; eassumption |].
  split; [apply valid_store, V |].
  split; [apply owned_store, V | reflexivity].
Qed.

(** The same for a column that takes the fill value: a categorical keeps
    its dtype. *)
Lemma fillna_accepts v s :
  match s_dtype s with
  | category cats => existsb (value_eqb v) cats = true
  | _ => True
  end ->
  exists d, fillna v s = Ok (mkSeries d (map (fill_cell v) (s_values s))).
Proof.
  unfold fillna. destruct (s_dtype s); intros H; try rewrite H; eauto.
Qed.

Lemma fillable_accepts df c v : fillable df c -> accepts_fill df c v.
Proof.
  intros (s & Hs & Hc). exists s. split; [exact Hs |].
  destruct (s_dtype s); [exact I | exact I | discriminate Hc].
Qed.

Lemma accepts_fill_other col v df c v' :
  c <> col -> accepts_fill df c v' -> accepts_fill (fill_column col v df) c v'.
Proof.
  intros N (s & Hs & Hc). exists s.
  rewrite fill_column_getitem_other by exact N. auto.
Qed.

Lemma fill_accepts_step col v w :
  valid_world w -> accepts_fill (owned w) col v ->
  exists w1,
    fillna_inplace col v w = (Ok tt, w1) /\
    valid_world w1 /\
    owned w1 = fill_column col v (owned w) /\
    calls w1 = calls w.
Proof.
  intros V (s & Hs & Hc). destruct (fillna_accepts v s Hc) as (d & Hf).
  eexists. split; [eapply fillna_inplace_ok; eassumption |].
  split; [apply valid_store, V |].
  split; [apply owned_store, V | reflexivity].
Qed.


Lemma Forall_filter_mask A (P : A -> Prop) m l :
  Forall P l -> Forall P (filter_mask m l).
Proof.
  intros H. revert m. induction H as [| x l Hx H IH]; intros [| [] m]; simpl;
    auto.
Qed.

Lemma notna_mask_complete l :
  Forall (fun v => isna v = false)
         (filter_mask (map (fun v => negb (isna v)) l) l).
Proof.
  rewrite filter_mask_self. apply Forall_forall. intros v H.
  apply filter_In in H. destruct H as [_ H]. apply negb_true_iff, H.
Qed.

Lemma keep_present_complete col df s :
  getitem df col = Ok s -> complete col (keep_present col df).
Proof.
  intros Hs. unfold complete, keep_present. rewrite Hs.
  rewrite getitem_loc_mask, Hs. simpl. eexists. split; [reflexivity |].
  simpl. apply notna_mask_complete.
Qed.

Lemma keep_present_preserves col c df :
  complete c df -> complete c (keep_present col df).
Proof.
  intros (s & Hs & Hc). unfold keep_present.
  destruct (getitem df col) as [s' |]; [| exists s; auto].
  exists (series_mask (notna s') s). rewrite getitem_loc_mask, Hs.
  split; [reflexivity |]. simpl. apply Forall_filter_mask, Hc.
Qed.

Lemma nrows_fill_all df : nrows (fill_all df) = nrows df.
Proof.
  unfold fill_all, nrows. simpl. rewrite !fill_column_index. reflexivity.
Qed.

Lemma column_names_fill_all df : column_names (fill_all df) = column_names df.
Proof.
  unfold fill_all. simpl. rewrite !fill_column_names. reflexivity.
Qed.

(** Each of the six columns is filled once, from its cells in the raw
    table. *)
Lemma fill_all_column df c v s :
  In (c, v) fills -> getitem df c = Ok s ->
  is_category (s_dtype s) = false ->
  exists d,
    getitem (fill_all df) c = Ok (mkSeries d (map (fill_cell v) (s_values s))).
Proof.
  intros Hin Hs Hc. unfold fill_all. simpl in *.
  repeat (destruct Hin as [Hin | Hin];
          [ injection Hin as <- <-;
            repeat (rewrite fill_column_getitem_other
                      by (intros N; discriminate N));
            apply fill_column_getitem_same; [| exact Hc];
            repeat (rewrite fill_column_getitem_other
                      by (intros N; discriminate N));
            exact Hs
          |]).
  contradiction.
Qed.


Lemma handle_missing_accepts (w : World) :
  valid_world w ->
  (forall c v, In (c, v) fills -> accepts_fill (owned w) c v) ->
  has_columns (owned w) ["price"; "size"] ->
  exists w',
    _handle_missing_and_duplicated_values w = (Ok tt, w') /\
    owned w'
    = keep_present "size"
        (keep_present "price" (drop_duplicates (fill_all (owned w)))) /\
    complete "price" (owned w') /\
    complete "size" (owned w').
Proof.
  intros V Hf Hc.
  unfold fills in Hf.
  unfold _handle_missing_and_duplicated_values. run_step.
  change (owned (entered HandleMissingAndDuplicatedValues w)) with (owned w) in *.
  set (w0 := mkWorld _ _ _).
  assert (V0 : valid_world w0) by exact V.
  assert (O0 : owned w0 = owned w) by reflexivity.
  destruct (@fill_accepts_step "floor" brak_informacji w0 V0)
    as (w1 & E1 & V1 & O1 & _).
  { rewrite O0. apply Hf. simpl. auto 10. }
  rewrite (bind_eval E1).
  destruct (@fill_accepts_step "status" brak_informacji w1 V1)
    as (w2 & E2 & V2 & O2 & _).
  { rewrite O1, O0.
    repeat (apply accepts_fill_other; [intros N; discriminate N |]).
    apply Hf. simpl. auto 10. }
  rewrite (bind_eval E2).
  destruct (@fill_accepts_step "property_type" brak_informacji w2 V2)
    as (w3 & E3 & V3 & O3 & _).
  { rewrite O2, O1, O0.
    repeat (apply accepts_fill_other; [intros N; discriminate N |]).
    apply Hf. simpl. auto 10. }
  rewrite (bind_eval E3).
  destruct (@fill_accepts_step "rooms" (Num 1) w3 V3) as (w4 & E4 & V4 & O4 & _).
  { rewrite O3, O2, O1, O0.
    repeat (apply accepts_fill_other; [intros N; discriminate N |]).
    apply Hf. simpl. auto 10. }
  rewrite (bind_eval E4).
  destruct (@fill_accepts_step "year_built" brak_informacji w4 V4)
    as (w5 & E5 & V5 & O5 & _).
  { rewrite O4, O3, O2, O1, O0.
    repeat (apply accepts_fill_other; [intros N; discriminate N |]).
    apply Hf. simpl. auto 10. }
  rewrite (bind_eval E5).
  destruct (@fill_accepts_step "property_condition" brak_informacji w5 V5)
    as (w6 & E6 & V6 & O6 & _).
  { rewrite O5, O4, O3, O2, O1, O0.
    repeat (apply accepts_fill_other; [intros N; discriminate N |]).
    apply Hf. simpl. auto 10. }
  rewrite (bind_eval E6).
  assert (O : owned w6 = fill_all (owned w)).
  { rewrite O6, O5, O4, O3, O2, O1, O0. reflexivity. }
  clear O6 O5 O4 O3 O2 O1 E1 E2 E3 E4 E5 E6.
  erewrite bind_eval.
  2:{ erewrite bind_eval by apply self_frame_eval. reflexivity. }
  set (w7 := snd (store_self (drop_duplicates (owned w6)) w6)).
  assert (O7 : owned w7 = drop_duplicates (fill_all (owned w))).
  { unfold w7. rewrite owned_store by exact V6. rewrite O. reflexivity. }
  change (store_self (drop_duplicates (owned w6)) w6) with (Ok tt, w7).
  destruct (getitem_ok (owned w7) "price") as (p & Hp).
  { rewrite O7. unfold drop_duplicates.
    rewrite column_names_loc_mask, column_names_fill_all.
    apply Hc. simpl. tauto. }
  rewrite (bind_eval (keep_notna_ok _ _ Hp)).
  set (w8 := mkWorld _ _ _).
  assert (O8 : owned w8 = keep_present "price" (owned w7))
    by apply owned_fresh.
  destruct (getitem_ok (owned w8) "size") as (sz & Hsz).
  { rewrite O8. unfold keep_present. rewrite Hp.
    rewrite column_names_loc_mask, O7. unfold drop_duplicates.
    rewrite column_names_loc_mask, column_names_fill_all.
    apply Hc. simpl. tauto. }
  rewrite (keep_notna_ok _ _ Hsz).
  eexists. split; [reflexivity |]. simpl heap. rewrite owned_fresh.
  rewrite O8, O7. split; [reflexivity |]. split.
  - apply keep_present_preserves. rewrite <- O7.
    eapply keep_present_complete, Hp.
  - rewrite <- O7, <- O8. eapply keep_present_complete, Hsz.
Qed.

Lemma handle_missing_general (w : World) :
  valid_world w ->
  (forall c, In c (map fst fills) -> fillable (owned w) c) ->
  has_columns (owned w) ["price"; "size"] ->
  exists w',
    _handle_missing_and_duplicated_values w = (Ok tt, w') /\
    owned w'
    = keep_present "size"
        (keep_present "price" (drop_duplicates (fill_all (owned w)))) /\
    (forall c v s, In (c, v) fills -> getitem (owned w) c = Ok s ->
       exists d,
         getitem (fill_all (owned w)) c
         = Ok (mkSeries d (map (fill_cell v) (s_values s)))) /\
    (forall i, i < nrows (owned w) ->
       nth i (duplicated (fill_all (owned w))) false = true <->
       exists j, j < i /\
         row_eqb (nth i (rows (fill_all (owned w))) [])
                 (nth j (rows (fill_all (owned w))) []) = true) /\
    complete "price" (owned w') /\
    complete "size" (owned w').
Proof.
  intros V Hf Hc.
  destruct (@handle_missing_accepts w V) as (w' & E & O & Hp & Hs);
    [| exact Hc |].
  { intros c v Hin. apply fillable_accepts, Hf.
    apply (in_map fst) in Hin. exact Hin. }
  exists w'. split; [exact E |]. split; [exact O |]. split.
  { intros c v s Hin Hs'. destruct (Hf c) as (s' & Hs'' & Hcat).
    { apply (in_map fst) in Hin. exact Hin. }
    rewrite Hs' in Hs''. injection Hs'' as <-.
    eapply fill_all_column; eassumption. }
  split.
  { intros i Hi. apply duplicated_spec. rewrite nrows_fill_all. exact Hi. }
  auto.
Qed.

Lemma raw_listings_fillable c :
  In c (map fst fills) ->
  fillable (owned (Demo.world_of DemoTables.raw_listings)) c.
Proof.
  intros H. simpl in H.
  repeat (destruct H as [<- | H];
          [eexists; split; [reflexivity | reflexivity] |]).
  contradiction.
Qed.

Lemma raw_listings_has_price_size :
  has_columns (owned (Demo.world_of DemoTables.raw_listings))
              ["price"; "size"].
Proof.
  intros c H. simpl in H.
  repeat (destruct H as [<- | H]; [simpl; tauto |]). contradiction.
Qed.

Lemma raw_listings_duplicated :
  duplicated (fill_all DemoTables.raw_listings)
  = [false; false; false; false; false; false; true; false; false; false].
Proof. cbv -[IZR Reqb]. rewrite !Reqb_IZR. reflexivity. Qed.







End Missing.

(** ** C4: floors *)

Module Floor.
Import DataPreprocessor Price.

Lemma lt_cells_string t vals s :
  In (Str s) vals -> mapR (lt_cell t) vals = Raise TypeError.
Proof.
  induction vals as [| v vals IH]; [contradiction |].
  intros [-> | H]; simpl; [reflexivity |].
  destruct v as [| x | s']; simpl; try reflexivity; rewrite (IH H); reflexivity.
Qed.

Lemma lt_scalar_string t fl s :
  In (Str s) (s_values fl) -> lt_scalar fl t = Raise TypeError.
Proof.
  intros H. unfold lt_scalar.
  destruct (s_dtype fl); try reflexivity; eapply lt_cells_string, H.
Qed.

Lemma lt_cells_numeric t vals :
  forallb numeric_or_missing vals = true ->
  mapR (lt_cell t) vals = Ok (map (cell_below t) vals).
Proof.
  induction vals as [| v vals IH]; simpl; [reflexivity |].
  intros H. apply andb_true_iff in H. destruct H as [Hv H].
  rewrite (IH H). destruct v; try discriminate; reflexivity.
Qed.

(** On a floor column without strings that is not categorical, the filter
    keeps the rows whose floor is a number strictly below the threshold. *)
Lemma process_floor_numeric (t : R) (w : World) (fl : Series) :
  (0 < t)%R ->
  getitem (owned w) "floor" = Ok fl ->
  is_category (s_dtype fl) = false ->
  forallb numeric_or_missing (s_values fl) = true ->
  exists w',
    _process_floor t w = (Ok tt, w') /\
    owned w' = loc_mask (owned w) (map (cell_below t) (s_values fl)) /\
    all_numbers (fun x => (x < t)%R)
                (filter_mask (map (cell_below t) (s_values fl)) (s_values fl)).
Proof.
  intros Ht Hf Hc Hn. unfold _process_floor. run_step.
  rewrite (Rltb_true Ht).
  erewrite keep_below_ok.
  2:{ exact Hf. }
  2:{ unfold lt_scalar. destruct (s_dtype fl); try discriminate;
      apply lt_cells_numeric, Hn. }
  eexists. split; [reflexivity |]. simpl heap. rewrite owned_fresh.
  split; [reflexivity |].
  clear. unfold all_numbers. induction (s_values fl) as [| v vals IH]; simpl;
    [constructor |].
  destruct (cell_below t v) eqn:E; [| exact IH].
  constructor; [| exact IH].
  destruct v as [| x | s]; try discriminate.
  exists x. split; [reflexivity | apply Rltb_spec, E].
Qed.

(** The marker that the missing-value step writes into [floor] is a string
    cell of the dataset it leaves. *)
Lemma raw_listings_floor_after_missing w' :
  owned w'
  = keep_present "size"
      (keep_present "price"
         (drop_duplicates (fill_all DemoTables.raw_listings))) ->
  exists fl, getitem (owned w') "floor" = Ok fl /\
             In (Str "brak informacji") (s_values fl).
Proof.
  intros ->. unfold drop_duplicates.
  rewrite Missing.raw_listings_duplicated.
  eexists. split; [vm_compute; reflexivity |]. simpl. tauto.
Qed.

(** C4 fails on the code.  With a positive threshold, [_process_floor]
    raises [TypeError] as soon as one floor is a string: the run stops
    after the method was entered and the dataset is left as it was.  The
    marker written by the missing-value step is such a string: on the raw
    listings, [_handle_missing_and_duplicated_values] returns and
    [_process_floor 30] raises on the dataset it leaves. *)
Theorem process_floor_raises_on_string :
  (forall (t : R) (w : World) (fl : Series) (s : string),
      (0 < t)%R ->
      getitem (owned w) "floor" = Ok fl ->
      In (Str s) (s_values fl) ->
      _process_floor t w = (Raise TypeError, entered (ProcessFloor t) w)) /\
  (exists w',
      _handle_missing_and_duplicated_values
        (Demo.world_of DemoTables.raw_listings) = (Ok tt, w') /\
      _process_floor 30 w' = (Raise TypeError, entered (ProcessFloor 30) w')).
Proof.
  assert (G : forall (t : R) (w : World) (fl : Series) (s : string),
             (0 < t)%R ->
             getitem (owned w) "floor" = Ok fl ->
             In (Str s) (s_values fl) ->
             _process_floor t w
             = (Raise TypeError, entered (ProcessFloor t) w)).
  { intros t w fl s Ht Hf Hs. unfold _process_floor. run_step.
    rewrite (Rltb_true Ht).
    erewrite keep_below_raise; [reflexivity | exact Hf |].
    eapply lt_scalar_string, Hs. }
  split; [exact G |].
  destruct (@Missing.handle_missing_general
              (Demo.world_of DemoTables.raw_listings))
    as (w' & E & O & _).
  { unfold valid_world. simpl. lia. }
  { exact Missing.raw_listings_fillable. }
  { exact Missing.raw_listings_has_price_size. }
  exists w'. split; [exact E |].
  destruct (raw_listings_floor_after_missing w' O) as (fl & Hf & Hs).
  apply (G 30%R w' fl "brak informacji"); [lra | exact Hf | exact Hs].
Qed.

Lemma process_floor_raises_on_string_witness :
  _process_floor 30 (Demo.world_of DemoTables.floors_with_marker)
  = (Raise TypeError,
     entered (ProcessFloor 30) (Demo.world_of DemoTables.floors_with_marker)).
Proof.
  apply (proj1 process_floor_raises_on_string 30%R
           (Demo.world_of DemoTables.floors_with_marker)
           (mkSeries object [Num 1; Str "brak informacji"; Num 4])
           "brak informacji").
  - lra.
  - reflexivity.
  - simpl. tauto.
Defined.

End Floor.

(** ** C6 and C7: casting *)

Module Cast.
Import DataPreprocessor.

Lemma update_nth_same A n (d : A) l : update n (nth n l d) l = l.
Proof.
  revert l. induction n as [| n IH]; intros [| x l]; simpl; try reflexivity.
  f_equal. apply IH.
Qed.

Lemma update_update A n (a b : A) l : update n b (update n a l) = update n b l.
Proof.
  revert l. induction n as [| n IH]; intros [| x l]; simpl; try reflexivity.
  f_equal. apply IH.
Qed.

Lemma with_object_same r w : with_object r (deref w r) w = w.
Proof.
  unfold with_object, deref. rewrite update_nth_same. destruct w; reflexivity.
Qed.

Lemma with_object_twice r a b w :
  with_object r b (with_object r a w) = with_object r b w.
Proof. unfold with_object. simpl. rewrite update_update. reflexivity. Qed.

Lemma deref_with_object r df w :
  r < length (heap w) -> deref (with_object r df w) r = df.
Proof. intros H. unfold deref, with_object. simpl. apply nth_update_same, H. Qed.

Lemma deref_with_object_other r r' df w :
  r' <> r -> deref (with_object r df w) r' = deref w r'.
Proof. intros H. unfold deref, with_object. simpl. apply nth_update_other, H. Qed.

Lemma length_with_object r df w :
  length (heap (with_object r df w)) = length (heap w).
Proof. unfold with_object. simpl. apply length_update. Qed.

Section WithContext.
Context {RT : Runtime} {VARS : Variables}.

Lemma cast_float_at_run r col w :
  cast_float_at r col w
  = match cast_float_frame col (deref w r) with
    | Ok df' => (Ok tt, with_object r df' w)
    | Raise e => (Raise e, w)
    end.
Proof.
  unfold cast_float_at, cast_float_frame, bind, load, lift, store.
  destruct (getitem (deref w r) col) as [s |]; simpl; [| reflexivity].
  destruct (astype_float s); reflexivity.
Qed.

Lemma cast_category_at_run r col w :
  cast_category_at r col w
  = match cast_category_frame col (deref w r) with
    | Ok df' => (Ok tt, with_object r df' w)
    | Raise e => (Raise e, w)
    end.
Proof.
  unfold cast_category_at, cast_category_frame, bind, load, lift, store.
  destruct (getitem (deref w r) col) as [s |]; reflexivity.
Qed.

(** A loop of column casts on the object at [r] is the fold over the
    frame, written back. *)
Lemma for_each_cast (f : string -> DataFrame -> result DataFrame)
      (body : string -> M unit) r :
  (forall col w,
      body col w = match f col (deref w r) with
                   | Ok df' => (Ok tt, with_object r df' w)
                   | Raise e => (Raise e, w)
                   end) ->
  forall cols w,
    r < length (heap w) ->
    for_each cols body w
    = (fst (cast_each f cols (deref w r)),
       with_object r (snd (cast_each f cols (deref w r))) w).
Proof.
  intros Hb cols. induction cols as [| c cols IH]; intros w Hr; simpl.
  - rewrite with_object_same. reflexivity.
  - unfold bind. rewrite Hb. destruct (f c (deref w r)) as [df' | e]; simpl.
    + rewrite IH by (rewrite length_with_object; exact Hr).
      rewrite deref_with_object by exact Hr.
      rewrite with_object_twice. reflexivity.
    + rewrite with_object_same. reflexivity.
Qed.

(** The loops of [_cast_types] name [self.df] at every turn; it is the
    same object throughout. *)
Lemma for_each_self (body : ref -> string -> M unit) :
  (forall r col w, self_df (snd (body r col w)) = self_df w) ->
  forall cols w,
    for_each cols (fun col w' => body (self_df w') col w') w
    = for_each cols (body (self_df w)) w.
Proof.
  intros Hs cols. induction cols as [| c cols IH]; intros w; simpl;
    [reflexivity |].
  unfold bind. specialize (Hs (self_df w) c w).
  destruct (body (self_df w) c w) as [[[] | e] w1]; simpl in *;
    [| reflexivity].
  rewrite IH, Hs. reflexivity.
Qed.

Lemma static_cast_types_run d w :
  d < length (heap w) ->
  static_cast_types d w
  = (rmap (fun _ => d) (fst (cast_frame (deref w d))),
     with_object d (snd (cast_frame (deref w d))) w).
Proof.
  intros Hd. unfold static_cast_types, cast_frame.
  unfold bind at 1.
  rewrite (for_each_cast cast_float_frame (cast_float_at d) (r := d));
    [| intros; apply cast_float_at_run | exact Hd].
  destruct (cast_each cast_float_frame NUMERIC_FEATS (deref w d))
    as [[[] | e] df1]; simpl; [| reflexivity].
  unfold bind at 1.
  rewrite (for_each_cast cast_category_frame (cast_category_at d) (r := d));
    [| intros; apply cast_category_at_run
     | rewrite length_with_object; exact Hd].
  rewrite deref_with_object by exact Hd. rewrite with_object_twice.
  destruct (cast_each cast_category_frame CATEGORICAL_FEATS df1)
    as [[[] | e] df2]; reflexivity.
Qed.

Lemma cast_float_at_self r col w :
  self_df (snd (cast_float_at r col w)) = self_df w.
Proof.
  rewrite cast_float_at_run.
  destruct (cast_float_frame col (deref w r)); reflexivity.
Qed.

Lemma cast_category_at_self r col w :
  self_df (snd (cast_category_at r col w)) = self_df w.
Proof.
  rewrite cast_category_at_run.
  destruct (cast_category_frame col (deref w r)); reflexivity.
Qed.

Lemma cast_types_run w :
  valid_world w ->
  _cast_types w
  = (fst (cast_frame (owned w)),
     with_object (self_df w) (snd (cast_frame (owned w)))
                 (entered CastTypes w)).
Proof.
  intros V. unfold _cast_types, cast_frame. run_step.
  change (mkWorld (heap w) (self_df w) (calls w ++ [CastTypes]))
    with (entered CastTypes w).
  set (w0 := entered CastTypes w).
  assert (V0 : self_df w0 < length (heap w0)) by exact V.
  change (owned w) with (deref w0 (self_df w0)).
  change (self_df w) with (self_df w0).
  unfold bind at 1.
  rewrite (for_each_self cast_float_at cast_float_at_self).
  rewrite (for_each_cast cast_float_frame (cast_float_at (self_df w0))
                         (r := self_df w0));
    [| intros; apply cast_float_at_run | exact V0].
  destruct (cast_each cast_float_frame NUMERIC_FEATS
                      (deref w0 (self_df w0)))
    as [[[] | e] df1]; simpl fst; simpl snd; cbv iota; [| reflexivity].
  rewrite (for_each_self cast_category_at cast_category_at_self).
  change (self_df (with_object (self_df w0) df1 w0)) with (self_df w0).
  rewrite (for_each_cast cast_category_frame
                         (cast_category_at (self_df w0)) (r := self_df w0));
    [| intros; apply cast_category_at_run
     | rewrite length_with_object; exact V0].
  rewrite deref_with_object by exact V0. rewrite with_object_twice.
  destruct (cast_each cast_category_frame CATEGORICAL_FEATS df1)
    as [[[] | e] df2]; reflexivity.
Qed.

(** What a loop of casts leaves: the columns it names are cast, the
    others are untouched. *)
Lemma cast_each_columns (f : string -> DataFrame -> result DataFrame)
      (Q : Series -> Prop) :
  (forall c df df', f c df = Ok df' ->
                    exists s', df' = setitem df c s' /\ Q s') ->
  forall cols df df',
    cast_each f cols df = (Ok tt, df') ->
    (forall c, In c cols -> exists s, getitem df' c = Ok s /\ Q s) /\
    (forall c, ~ In c cols -> getitem df' c = getitem df c).
Proof.
  intros Hf cols. induction cols as [| c0 cols IH]; intros df df' E; simpl in E.
  - injection E as <-. split; [intros c [] | reflexivity].
  - destruct (f c0 df) as [df1 |] eqn:E1; [| discriminate].
    destruct (Hf _ _ _ E1) as (s1 & -> & Hq).
    destruct (IH _ _ E) as (Hin & Hout). split.
    + intros c Hc. destruct (in_dec string_dec c cols) as [I | N];
        [apply Hin, I |].
      destruct Hc as [<- | Hc]; [| contradiction].
      exists s1. rewrite (Hout _ N), getitem_setitem_same. auto.
    + intros c Hc. rewrite Hout by (intros C; apply Hc; right; exact C).
      apply getitem_setitem_other. intros ->. apply Hc. left. reflexivity.
Qed.

Lemma cast_float_frame_sets c df df' :
  cast_float_frame c df = Ok df' ->
  exists s', df' = setitem df c s' /\ s_dtype s' = float64.
Proof.
  unfold cast_float_frame. destruct (getitem df c) as [s |]; [| discriminate].
  simpl. unfold astype_float.
  destruct (mapR float_cell (s_values s)) as [vals |]; [| discriminate].
  simpl. intros H. injection H as <-. eauto.
Qed.

Lemma cast_category_frame_sets c df df' :
  cast_category_frame c df = Ok df' ->
  exists s', df' = setitem df c s' /\ is_category (s_dtype s') = true.
Proof.
  unfold cast_category_frame.
  destruct (getitem df c) as [s |]; [| discriminate].
  simpl. intros H. injection H as <-. eexists. split; [reflexivity |].
  unfold astype_category. destruct (s_dtype s) eqn:E; simpl; auto.
  rewrite E. reflexivity.
Qed.

(** The dtypes after a cast that did not raise. *)
Lemma cast_frame_dtypes df df' :
  cast_frame df = (Ok tt, df') ->
  (forall c, In c NUMERIC_FEATS -> ~ In c CATEGORICAL_FEATS ->
             dtype_of df' c = Some float64) /\
  (forall c, In c CATEGORICAL_FEATS ->
             exists cats, dtype_of df' c = Some (category cats)).
Proof.
  unfold cast_frame.
  destruct (cast_each cast_float_frame NUMERIC_FEATS df)
    as [[[] | e] df1] eqn:E1; [| discriminate].
  intros E2.
  destruct (cast_each_columns _ _ cast_float_frame_sets _ _ E1) as (Hn & _).
  destruct (cast_each_columns _ _ cast_category_frame_sets _ _ E2)
    as (Hc & Ho).
  split.
  - intros c Hin Hnot. destruct (Hn c Hin) as (s & Hs & Hd).
    unfold dtype_of. rewrite (Ho c Hnot), Hs, Hd. reflexivity.
  - intros c Hin. destruct (Hc c Hin) as (s & Hs & Hd).
    unfold dtype_of. rewrite Hs.
    destruct (s_dtype s) as [| | cats]; try discriminate. eauto.
Qed.

(** *** C6 *)

(** C6, as the code has it.  [static_cast_types] does not read or rebind
    the instance: it writes the casts into the object it is given and
    returns that same object, so the caller's dataset is changed in place.
    Every other object is left as it was, and so is the owned dataset
    unless it is the argument itself. *)
Theorem static_cast_types_in_place (w : World) (d : ref) :
  d < length (heap w) ->
  (fst (static_cast_types d w) = Ok d \/
   exists e, fst (static_cast_types d w) = Raise e) /\
  deref (snd (static_cast_types d w)) d = snd (cast_frame (deref w d)) /\
  (forall r, r <> d -> deref (snd (static_cast_types d w)) r = deref w r) /\
  self_df (snd (static_cast_types d w)) = self_df w /\
  calls (snd (static_cast_types d w)) = calls w /\
  (d <> self_df w -> owned (snd (static_cast_types d w)) = owned w).
Proof.
  intros Hd. rewrite static_cast_types_run by exact Hd. simpl fst. simpl snd.
  split.
  { destruct (fst (cast_frame (deref w d))) as [[] | e]; simpl; eauto. }
  split; [apply deref_with_object, Hd |].
  split; [intros r Hr; apply deref_with_object_other, Hr |].
  split; [reflexivity |]. split; [reflexivity |].
  intros N. unfold owned. simpl self_df.
  apply deref_with_object_other. congruence.
Qed.

(** *** C7 *)

(** C7.  When the object given to [static_cast_types] holds the same
    frame as the dataset an instance owns, the static method and
    [_cast_types] end alike, both returning or both raising the same
    exception, and leave the same frame, hence the same dtype in every
    column.  When they return, every column of [NUMERIC_FEATS]
    that is not also listed in [CATEGORICAL_FEATS] is float64 and every
    column of [CATEGORICAL_FEATS] is categorical. *)
Theorem cast_types_agree (w1 w2 : World) (d : ref) :
  d < length (heap w1) ->
  valid_world w2 ->
  deref w1 d = owned w2 ->
  same_outcome (fst (static_cast_types d w1)) (fst (_cast_types w2)) /\
  deref (snd (static_cast_types d w1)) d = owned (snd (_cast_types w2)) /\
  (forall c, dtype_of (deref (snd (static_cast_types d w1)) d) c
             = dtype_of (owned (snd (_cast_types w2))) c) /\
  (fst (_cast_types w2) = Ok tt ->
   fst (static_cast_types d w1) = Ok d /\
   (forall c, In c NUMERIC_FEATS -> ~ In c CATEGORICAL_FEATS ->
              dtype_of (owned (snd (_cast_types w2))) c = Some float64) /\
   (forall c, In c CATEGORICAL_FEATS ->
              exists cats,
                dtype_of (owned (snd (_cast_types w2))) c
                = Some (category cats))).
Proof.
  intros Hd V E.
  rewrite static_cast_types_run by exact Hd.
  rewrite cast_types_run by exact V. simpl fst. simpl snd.
  rewrite deref_with_object by exact Hd.
  assert (O : owned (with_object (self_df w2) (snd (cast_frame (owned w2)))
                                 (entered CastTypes w2))
              = snd (cast_frame (owned w2))).
  { unfold owned at 1. simpl self_df. apply deref_with_object. exact V. }
  rewrite O, E.
  destruct (cast_frame (owned w2)) as [[[] | e] df'] eqn:Ec; simpl.
  - repeat split; try reflexivity; intros; eapply cast_frame_dtypes;
      eassumption.
  - split; [reflexivity |]. split; [reflexivity |].
    split; [reflexivity | discriminate].
Qed.

End WithContext.

Lemma cast_types_agree_witness :
  dtype_of (owned (snd (_cast_types (RT := Demo.runtime)
                                    (VARS := Demo.variables)
                                    (Demo.world_of DemoTables.served))))
           "size" = Some float64 /\
  deref (snd (static_cast_types (RT := Demo.runtime) (VARS := Demo.variables)
                                1 DemoTables.serving_world)) 1
  = owned (snd (_cast_types (RT := Demo.runtime) (VARS := Demo.variables)
                            (Demo.world_of DemoTables.served))).
Proof.
  destruct (@cast_types_agree Demo.runtime Demo.variables
              DemoTables.serving_world (Demo.world_of DemoTables.served) 1)
    as (_ & H2 & _ & H4).
  - simpl. lia.
  - unfold valid_world. simpl. lia.
  - reflexivity.
  - split; [| exact H2].
    destruct H4 as (_ & Hn & _); [vm_compute; reflexivity |].
    apply Hn; simpl; [tauto |].
    intros C. repeat (destruct C as [C | C]; [discriminate |]). exact C.
Defined.

Lemma static_cast_types_in_place_witness :
  fst (static_cast_types (RT := Demo.runtime) (VARS := Demo.variables)
                         1 DemoTables.serving_world) = Ok 1 /\
  owned (snd (static_cast_types (RT := Demo.runtime) (VARS := Demo.variables)
                                1 DemoTables.serving_world))
  = Demo.listings.
Proof.
  destruct (@static_cast_types_in_place Demo.runtime Demo.variables
              DemoTables.serving_world 1) as (H1 & _ & _ & _ & _ & H6).
  - simpl. lia.
  - split.
    + destruct H1 as [H1 | (e & H1)]; [exact H1 |].
      exfalso. vm_compute in H1. discriminate H1.
    + apply H6. simpl. discriminate.
Defined.

(** C6 fails on the code: the frame the caller passes is written to.
    After the call the object at 1 no longer holds [served] (its [size]
    column has become float64), and when the caller passes the object the
    instance owns, the owned dataset changes as well. *)
Lemma static_cast_types_mutates_argument :
  deref DemoTables.serving_world 1 = DemoTables.served /\
  fst (static_cast_types (RT := Demo.runtime) (VARS := Demo.variables)
                         1 DemoTables.serving_world) = Ok 1 /\
  deref (snd (static_cast_types (RT := Demo.runtime) (VARS := Demo.variables)
                                1 DemoTables.serving_world)) 1
    <> DemoTables.served /\
  owned (snd (static_cast_types (RT := Demo.runtime) (VARS := Demo.variables)
                                0 (Demo.world_of DemoTables.served)))
    <> owned (Demo.world_of DemoTables.served).
Proof.
  split; [reflexivity |]. split; [vm_compute; reflexivity |]. split.
  - intros H. apply (f_equal (fun df => dtype_of df "size")) in H.
    vm_compute in H. discriminate H.
  - intros H. apply (f_equal (fun df => dtype_of df "size")) in H.
    vm_compute in H. discriminate H.
Qed.

End Cast.

(** ** C10: standardization *)

Module Scaler.
Import Sklearn.

Section Statistics.
Local Open Scope R_scope.

Lemma Rsum_map_affine m s xs :
  Rsum (map (fun x => (x - m) / s) xs)
  = (Rsum xs - INR (length xs) * m) / s.
Proof.
  induction xs as [| x xs IH].
  - simpl. unfold Rdiv. ring.
  - change (Rsum (map (fun x => (x - m) / s) (x :: xs)))
      with ((x - m) / s + Rsum (map (fun x => (x - m) / s) xs)).
    change (Rsum (x :: xs)) with (x + Rsum xs).
    change (length (x :: xs)) with (S (length xs)).
    rewrite IH, S_INR. unfold Rdiv. ring.
Qed.

Lemma Rsum_map_scale (g : R -> R) k xs :
  Rsum (map (fun x => g x * k) xs) = Rsum (map g xs) * k.
Proof.
  induction xs as [| x xs IH]; simpl; [ring |]. rewrite IH. ring.
Qed.

Lemma Rsum_nonneg l : Forall (fun x => 0 <= x) l -> 0 <= Rsum l.
Proof.
  induction 1 as [| x l Hx H IH]; simpl; [lra | lra].
Qed.


Lemma INR_length_pos A (l : list A) : l <> [] -> 0 < INR (length l).
Proof.
  destruct l as [| x l]; [congruence |]. intros _.
  apply lt_0_INR. simpl. lia.
Qed.

Lemma squares_nonneg m xs :
  Forall (fun x => 0 <= x) (map (fun x => Rsqr (x - m)) xs).
Proof.
  apply Forall_forall. intros y Hy. apply in_map_iff in Hy.
  destruct Hy as (x & <- & _). apply Rle_0_sqr.
Qed.

Lemma variance_nonneg xs : 0 <= variance xs.
Proof.
  unfold variance, mean. rewrite length_map.
  destruct xs as [| x xs]; [simpl; unfold Rdiv; lra |].
  apply Rmult_le_pos.
  - apply Rsum_nonneg, squares_nonneg.
  - left. apply Rinv_0_lt_compat, INR_length_pos. discriminate.
Qed.


Lemma mean_standardized s xs :
  xs <> [] -> mean (map (fun x => (x - mean xs) / s) xs) = 0.
Proof.
  intros Hx. pose proof (INR_length_pos Hx) as Hn.
  unfold mean at 1. rewrite length_map, Rsum_map_affine.
  unfold mean. unfold Rdiv.
  replace (Rsum xs - INR (length xs) * (Rsum xs * / INR (length xs)))
    with 0 by (field; lra).
  ring.
Qed.

Lemma variance_standardized s xs :
  xs <> [] -> s <> 0 ->
  variance (map (fun x => (x - mean xs) / s) xs) = variance xs / (s * s).
Proof.
  intros Hx Hs. unfold variance at 1.
  rewrite (mean_standardized s Hx), map_map.
  unfold mean at 1. rewrite length_map.
  rewrite (map_ext _ (fun x => Rsqr (x - mean xs) * / (s * s))).
  - rewrite Rsum_map_scale. unfold variance, mean at 2.
    rewrite length_map. unfold Rdiv. ring.
  - intros x. unfold Rsqr. field. exact Hs.
Qed.

Lemma unit_scale_positive xs :
  0 < variance xs ->
  Demo.unit_scale xs = sqrt (variance xs) /\ sqrt (variance xs) <> 0 /\
  sqrt (variance xs) * sqrt (variance xs) = variance xs.
Proof.
  intros Hv. pose proof (sqrt_lt_R0 _ Hv) as Hs.
  unfold Demo.unit_scale.
  destruct (Req_dec_T (sqrt (variance xs)) 0) as [E | N]; [lra |].
  repeat split; [lra | apply sqrt_sqrt; lra].
Qed.


(** Without rounding, a column that varies is brought to mean 0 and
    variance 1. *)
Lemma standardized_moments xs :
  variance xs <> 0 ->
  mean (map (Demo.standardized xs) xs) = 0 /\
  variance (map (Demo.standardized xs) xs) = 1.
Proof.
  intros Hv.
  assert (Hpos : 0 < variance xs) by (pose proof (variance_nonneg xs); lra).
  destruct (unit_scale_positive Hpos) as (Es & Hs & Hsq).
  assert (Hx : xs <> []).
  { intros ->. apply Hv. unfold variance, mean. simpl. unfold Rdiv. ring. }
  unfold Demo.standardized. rewrite Es. split.
  - apply mean_standardized, Hx.
  - rewrite variance_standardized by assumption. rewrite Hsq.
    field. exact Hv.
Qed.




End Statistics.

Import DataPreprocessor.


Lemma present_cell_float vals : present (map cell_float vals) = numbers vals.
Proof.
  induction vals as [| v vals IH]; simpl; [reflexivity |].
  destruct v; simpl; rewrite IH; reflexivity.
Qed.



Lemma getitem_setitem_list_other df cols arr c :
  ~ In c cols -> getitem (setitem_list df cols arr) c = getitem df c.
Proof.
  revert df arr. induction cols as [| c0 cols IH]; intros df arr H;
    [reflexivity |].
  destruct arr as [| a arr]; [reflexivity |]. simpl.
  rewrite IH by (intros C; apply H; right; exact C).
  apply getitem_setitem_other. intros ->. apply H. left. reflexivity.
Qed.




Lemma getitem_list_columns df cols X :
  getitem_list df cols = Ok X ->
  Forall2 (fun c cs => fst cs = c /\ getitem df c = Ok (snd cs))
          cols (columns X).
Proof.
  unfold getitem_list.
  destruct (mapR (fun c => rmap (pair c) (getitem df c)) cols) as [l |] eqn:E;
    [| discriminate].
  simpl. intros H. injection H as <-. simpl.
  revert l E. induction cols as [| c cols IH]; intros l E; simpl in E.
  - injection E as <-. constructor.
  - destruct (getitem df c) as [s |] eqn:Es; [| discriminate]. simpl in E.
    destruct (mapR (fun c => rmap (pair c) (getitem df c)) cols) as [l' |];
      [| discriminate].
    simpl in E. injection E as <-. constructor; [auto | apply IH; reflexivity].
Qed.

Section WithContext.
Context {RT : Runtime} {VARS : Variables}.





End WithContext.





End Scaler.

(** * Further properties of the methods *)

(** ** The threshold filters *)

Module Filters.
Import DataPreprocessor Price Floor.

Lemma lt_cells_inv t vals mask :
  mapR (lt_cell t) vals = Ok mask ->
  forallb numeric_or_missing vals = true /\ mask = map (cell_below t) vals.
Proof.
  revert mask. induction vals as [| v vals IH]; simpl; intros mask H.
  - injection H as <-. auto.
  - destruct v as [| x | s]; simpl in H; try discriminate;
      destruct (mapR (lt_cell t) vals) as [m |]; try discriminate;
      injection H as <-; destruct (IH m eq_refl) as (Hn & ->); auto.
Qed.

(** What it takes for [s < t] to return. *)
Lemma lt_scalar_inv s t mask :
  lt_scalar s t = Ok mask ->
  is_category (s_dtype s) = false /\
  forallb numeric_or_missing (s_values s) = true /\
  mask = map (cell_below t) (s_values s).
Proof.
  unfold lt_scalar. destruct (s_dtype s); try discriminate;
    intros H; apply lt_cells_inv in H; tauto.
Qed.

Lemma lt_scalar_numeric s t :
  is_category (s_dtype s) = false ->
  forallb numeric_or_missing (s_values s) = true ->
  lt_scalar s t = Ok (map (cell_below t) (s_values s)).
Proof.
  intros Hc Hn. unfold lt_scalar.
  destruct (s_dtype s); try discriminate; apply lt_cells_numeric, Hn.
Qed.

Lemma lt_scalar_category s t :
  is_category (s_dtype s) = true -> lt_scalar s t = Raise TypeError.
Proof. unfold lt_scalar. destruct (s_dtype s); try discriminate; reflexivity. Qed.

Lemma has_string_in s :
  has_string s = true -> exists str, In (Str str) (s_values s).
Proof.
  unfold has_string. rewrite existsb_exists. intros (v & Hin & Hv).
  destruct v as [| x | str]; try discriminate. eauto.
Qed.

Lemma below_are_numbers t vals :
  all_numbers (fun x => (x < t)%R)
              (filter_mask (map (cell_below t) vals) vals).
Proof.
  unfold all_numbers. induction vals as [| v vals IH]; simpl; [constructor |].
  destruct (cell_below t v) eqn:E; [| exact IH].
  constructor; [| exact IH].
  destruct v as [| x | s]; try discriminate.
  exists x. split; [reflexivity | apply Rltb_spec, E].
Qed.

Lemma keep_below_missing col t w :
  ~ In col (column_names (owned w)) ->
  keep_below col t w = (Raise (KeyError col), w).
Proof.
  intros H. unfold keep_below, bind, self_frame, lift. fold (owned w).
  rewrite (getitem_missing _ _ H). reflexivity.
Qed.

Lemma keep_below_inv col t w w' :
  keep_below col t w = (Ok tt, w') ->
  exists s,
    getitem (owned w) col = Ok s /\
    is_category (s_dtype s) = false /\
    forallb numeric_or_missing (s_values s) = true /\
    w' = mkWorld (heap w ++ [loc_mask (owned w)
                               (map (cell_below t) (s_values s))])
                 (length (heap w)) (calls w).
Proof.
  unfold keep_below, bind, self_frame, lift, rebind_self. fold (owned w).
  destruct (getitem (owned w) col) as [s |]; [| discriminate].
  destruct (lt_scalar s t) as [mask |] eqn:E; [| discriminate].
  apply lt_scalar_inv in E. destruct E as (Hc & Hn & ->).
  intros H. injection H as <-. exists s. auto.
Qed.

(** The outcome of a filter [self.df = self.df[self.df[col] < t]] that
    is guarded by [t > 0], in every case. *)
Lemma guarded_filter_outcome (c : call) col t w :
  let m := (enter c ;; if Rltb 0 t then keep_below col t else ret tt) in
  ((t <= 0)%R -> m w = (Ok tt, entered c w)) /\
  ((0 < t)%R -> ~ In col (column_names (owned w)) ->
   m w = (Raise (KeyError col), entered c w)) /\
  ((0 < t)%R -> forall s, getitem (owned w) col = Ok s ->
   (is_category (s_dtype s) = true \/ has_string s = true) ->
   m w = (Raise TypeError, entered c w)) /\
  ((0 < t)%R -> forall s, getitem (owned w) col = Ok s ->
   is_category (s_dtype s) = false -> has_string s = false ->
   exists w',
     m w = (Ok tt, w') /\
     owned w' = loc_mask (owned w) (map (cell_below t) (s_values s)) /\
     getitem (owned w') col
     = Ok (series_mask (map (cell_below t) (s_values s)) s) /\
     all_numbers (fun x => (x < t)%R)
                 (filter_mask (map (cell_below t) (s_values s)) (s_values s)) /\
     same_objects w w').
Proof.
  intros m. unfold m. repeat split.
  - intros Ht. run_step. rewrite Rltb_false by lra. reflexivity.
  - intros Ht Hm. run_step. rewrite (Rltb_true Ht).
    apply keep_below_missing. exact Hm.
  - intros Ht s Hs Hbad. run_step. rewrite (Rltb_true Ht).
    eapply keep_below_raise; [exact Hs |].
    destruct Hbad as [Hc | Hstr]; [apply lt_scalar_category, Hc |].
    destruct (has_string_in _ Hstr) as (str & Hin).
    eapply lt_scalar_string, Hin.
  - intros Ht s Hs Hc Hstr. run_step. rewrite (Rltb_true Ht).
    assert (Hn : forallb numeric_or_missing (s_values s) = true).
    { unfold has_string in Hstr. apply forallb_forall. intros v Hv.
      destruct (numeric_or_missing v) eqn:E; [reflexivity |].
      assert (X : existsb (fun v => negb (numeric_or_missing v)) (s_values s)
                  = true).
      { apply existsb_exists. exists v. rewrite E. auto. }
      congruence. }
    erewrite keep_below_ok; [| exact Hs | apply lt_scalar_numeric; assumption].
    eexists. split; [reflexivity |]. simpl heap. rewrite owned_fresh.
    change (owned (mkWorld (heap w) (self_df w) (calls w ++ [c])))
      with (owned w).
    split; [reflexivity |]. split.
    { rewrite getitem_loc_mask, Hs. reflexivity. }
    split; [apply below_are_numbers |].
    intros r Hr. unfold deref. simpl heap. apply app_nth1. exact Hr.
Qed.

(** X1.  [_process_size] with a threshold of 0 or less does nothing but
    be entered.  With a positive threshold it raises [KeyError] when there
    is no [size] column and [TypeError] when the column is categorical or
    holds a string, the dataset being left as it was; otherwise it keeps
    exactly the rows whose size is a number strictly below the threshold
    (a row without a size is dropped), in a new object, so that every size
    left is a number below the threshold. *)
Theorem process_size_outcome (t : R) (w : World) :
  ((t <= 0)%R -> _process_size t w = (Ok tt, entered (ProcessSize t) w)) /\
  ((0 < t)%R -> ~ In "size" (column_names (owned w)) ->
   _process_size t w = (Raise (KeyError "size"), entered (ProcessSize t) w)) /\
  ((0 < t)%R -> forall s, getitem (owned w) "size" = Ok s ->
   (is_category (s_dtype s) = true \/ has_string s = true) ->
   _process_size t w = (Raise TypeError, entered (ProcessSize t) w)) /\
  ((0 < t)%R -> forall s, getitem (owned w) "size" = Ok s ->
   is_category (s_dtype s) = false -> has_string s = false ->
   exists w',
     _process_size t w = (Ok tt, w') /\
     owned w' = loc_mask (owned w) (map (cell_below t) (s_values s)) /\
     getitem (owned w') "size"
     = Ok (series_mask (map (cell_below t) (s_values s)) s) /\
     all_numbers (fun x => (x < t)%R)
                 (filter_mask (map (cell_below t) (s_values s)) (s_values s)) /\
     same_objects w w').
Proof. exact (guarded_filter_outcome (ProcessSize t) "size" t w). Qed.

Lemma process_size_outcome_witness :
  exists w',
    _process_size 1000 (Demo.world_of MoreTables.sizes) = (Ok tt, w') /\
    index (owned w') = [0].
Proof.
  destruct (process_size_outcome 1000 (Demo.world_of MoreTables.sizes))
    as (_ & _ & _ & H).
  destruct (H ltac:(lra) (mkSeries float64 [Num 48; NA; Num 1200])
              eq_refl eq_refl eq_refl) as (w' & E & O & _).
  exists w'. split; [exact E |]. rewrite O.
  cbv -[IZR Rltb]. rewrite !Rltb_IZR. reflexivity.
Defined.

(** X2.  [_process_floor] with a threshold of 0 or less does nothing but
    be entered, whatever the floors are.  With a positive threshold it
    raises [KeyError] when there is no [floor] column and [TypeError] when
    the column is categorical; on a column of numbers and missing cells it
    keeps exactly the rows whose floor is a number strictly below the
    threshold, in a new object. *)
Theorem process_floor_outcome (t : R) (w : World) :
  ((t <= 0)%R -> _process_floor t w = (Ok tt, entered (ProcessFloor t) w)) /\
  ((0 < t)%R -> ~ In "floor" (column_names (owned w)) ->
   _process_floor t w
   = (Raise (KeyError "floor"), entered (ProcessFloor t) w)) /\
  ((0 < t)%R -> forall s, getitem (owned w) "floor" = Ok s ->
   (is_category (s_dtype s) = true \/ has_string s = true) ->
   _process_floor t w = (Raise TypeError, entered (ProcessFloor t) w)) /\
  ((0 < t)%R -> forall s, getitem (owned w) "floor" = Ok s ->
   is_category (s_dtype s) = false -> has_string s = false ->
   exists w',
     _process_floor t w = (Ok tt, w') /\
     owned w' = loc_mask (owned w) (map (cell_below t) (s_values s)) /\
     getitem (owned w') "floor"
     = Ok (series_mask (map (cell_below t) (s_values s)) s) /\
     all_numbers (fun x => (x < t)%R)
                 (filter_mask (map (cell_below t) (s_values s)) (s_values s)) /\
     same_objects w w').
Proof. exact (guarded_filter_outcome (ProcessFloor t) "floor" t w). Qed.

Lemma process_floor_outcome_witness :
  exists w',
    _process_floor 30 (Demo.world_of MoreTables.sizes) = (Ok tt, w') /\
    index (owned w') = [0].
Proof.
  destruct (process_floor_outcome 30 (Demo.world_of MoreTables.sizes))
    as (_ & _ & _ & H).
  destruct (H ltac:(lra) (mkSeries float64 [Num 1; Num 40; NA])
              eq_refl eq_refl eq_refl) as (w' & E & O & _).
  exists w'. split; [exact E |]. rewrite O.
  cbv -[IZR Rltb]. rewrite !Rltb_IZR. reflexivity.
Defined.

End Filters.

(** ** Running a step twice *)

Module Twice.
Import DataPreprocessor Price.

Lemma length_filter_mask_le A (m : list bool) (l : list A) :
  length (filter_mask m l) <= count_true m.
Proof.
  revert l. induction m as [| b m IH]; intros [| x l]; simpl; try lia.
  destruct b; simpl; specialize (IH l); lia.
Qed.

Lemma length_filter_mask_eq A (m : list bool) (l : list A) :
  length m = length l -> length (filter_mask m l) = count_true m.
Proof.
  revert l. induction m as [| b m IH]; intros [| x l] H; simpl in *;
    try lia.
  destruct b; simpl; rewrite IH by lia; reflexivity.
Qed.

Lemma filter_mask_all_true A (m : list bool) (l : list A) :
  Forall (fun b => b = true) m -> length l <= length m ->
  filter_mask m l = l.
Proof.
  intros H. revert l. induction H as [| b m Hb H IH]; intros [| x l] Hl;
    simpl in *; try reflexivity; try lia.
  rewrite Hb, IH by lia. reflexivity.
Qed.

Lemma loc_mask_all_true df m :
  Forall (fun b => b = true) m -> at_most (length m) df ->
  loc_mask df m = df.
Proof.
  intros Hm (Hi & Hc). destruct df as [idx cols]. unfold loc_mask.
  simpl in *. rewrite (filter_mask_all_true _ Hm Hi). f_equal.
  induction Hc as [| [k [d vals]] cols Hk Hc IH]; simpl; [reflexivity |].
  rewrite IH. unfold series_mask. simpl in *.
  rewrite (filter_mask_all_true _ Hm Hk). reflexivity.
Qed.

Lemma at_most_loc_mask df m : at_most (count_true m) (loc_mask df m).
Proof.
  split; simpl; [apply length_filter_mask_le |].
  apply Forall_forall. intros c Hc. apply in_map_iff in Hc.
  destruct Hc as (c0 & <- & _). simpl. apply length_filter_mask_le.
Qed.

Lemma assoc_set_unchanged A k (a : A) l :
  assoc k l = Some a -> assoc_set k a l = l.
Proof.
  induction l as [| [k' a'] l IH]; simpl; [discriminate |].
  destruct (String.eqb_spec k k') as [E | N]; intros H.
  - injection H as ->. reflexivity.
  - rewrite (IH H). reflexivity.
Qed.

Lemma setitem_unchanged df c s : getitem df c = Ok s -> setitem df c s = df.
Proof.
  unfold getitem, setitem. destruct (assoc c (columns df)) as [s' |] eqn:E;
    [| discriminate].
  intros H. injection H as ->. rewrite (assoc_set_unchanged _ _ E).
  destruct df; reflexivity.
Qed.

Lemma assoc_set_Forall A (P : string * A -> Prop) k a l :
  Forall P l -> (forall k', P (k', a)) -> Forall P (assoc_set k a l).
Proof.
  intros H Ha. induction H as [| [k' a'] l Hx H IH]; simpl.
  - constructor; [apply Ha | constructor].
  - destruct (String.eqb k k'); constructor; auto.
Qed.

Lemma at_most_setitem n df c s :
  at_most n df -> length (s_values s) <= n -> at_most n (setitem df c s).
Proof.
  intros (Hi & Hc) Hs. split; [exact Hi |]. simpl.
  apply assoc_set_Forall; [exact Hc | intros k'; exact Hs].
Qed.

Section WithContext.
Context {RT : Runtime}.

Lemma process_price_missing t w :
  ~ In "price" (column_names (owned w)) ->
  _process_price t w = (Raise (KeyError "price"), entered (ProcessPrice t) w).
Proof.
  intros H. unfold _process_price. run_step.
  erewrite bind_eval by apply self_frame_eval. cbv beta.
  change (owned (mkWorld (heap w) (self_df w) (calls w ++ [ProcessPrice t])))
    with (owned w).
  erewrite bind_raise; [reflexivity |].
  rewrite lift_eval, (getitem_missing _ _ H). reflexivity.
Qed.

Lemma coerce_cell_number v :
  (exists x, v = Num x) -> coerce_cell v = v.
Proof. intros (x & ->). reflexivity. Qed.

Lemma kept_again t vals :
  all_numbers (fun x => (0 < t)%R -> (x < t)%R) vals ->
  Forall (fun b => b = true) (map (price_kept t) vals) /\
  map coerce_cell vals = vals.
Proof.
  unfold all_numbers. induction 1 as [| v vals (x & -> & Hx) H (IH1 & IH2)];
    simpl; [auto |].
  split; [| rewrite IH2; reflexivity].
  constructor; [| exact IH1].
  unfold price_kept, price_ok, below. simpl.
  destruct (Rltb 0 t) eqn:E; [| reflexivity].
  apply Rltb_true, Hx, Rltb_spec, E.
Qed.

(** X3.  [_process_price] is idempotent and reports a missing column:
    without a [price] column it raises [KeyError] and leaves the dataset as
    it was; and when a call returned, a second call with the same
    threshold returns too and leaves the same dataset, since every price
    is by then a number that passes the filter. *)
Theorem process_price_twice (t : R) (w : World) :
  (~ In "price" (column_names (owned w)) ->
   _process_price t w
   = (Raise (KeyError "price"), entered (ProcessPrice t) w)) /\
  (forall w1, _process_price t w = (Ok tt, w1) ->
   exists w2, _process_price t w1 = (Ok tt, w2) /\ owned w2 = owned w1).
Proof.
  split; [apply process_price_missing |].
  intros w1 E1.
  destruct (in_dec string_dec "price" (column_names (owned w))) as [I | N].
  2:{ rewrite (process_price_missing t w N) in E1. discriminate. }
  destruct (getitem_ok _ _ I) as (p & Hp).
  destruct (process_price_run t w Hp) as (w1' & E1' & O1 & _).
  rewrite E1 in E1'. injection E1' as <-.
  set (keep := map (price_kept t) (s_values p)) in *.
  set (vals1 := filter_mask keep (map coerce_cell (s_values p))) in *.
  assert (Hp1 : getitem (owned w1) "price" = Ok (mkSeries float64 vals1)).
  { rewrite O1. apply getitem_setitem_same. }
  destruct (process_price_run t w1 Hp1) as (w2 & E2 & O2 & _).
  exists w2. split; [exact E2 |]. rewrite O2. simpl s_values.
  destruct (kept_again (kept_prices_are_numbers t (s_values p)))
    as (Hall & Hco).
  fold keep in Hall, Hco. fold vals1 in Hall, Hco. rewrite Hco.
  rewrite loc_mask_all_true; [| exact Hall |].
  - rewrite filter_mask_all_true by (exact Hall || (rewrite length_map; lia)).
    apply setitem_unchanged, Hp1.
  - rewrite length_map.
    assert (Hlen : length vals1 = count_true keep).
    { unfold vals1, keep. apply length_filter_mask_eq.
      rewrite !length_map. reflexivity. }
    rewrite O1, Hlen. apply at_most_setitem; [apply at_most_loc_mask |].
    simpl. lia.
Qed.

End WithContext.

Lemma process_price_twice_witness :
  exists w1 w2,
    _process_price (RT := Demo.runtime) 17500000
                   (Demo.world_of Demo.listings) = (Ok tt, w1) /\
    _process_price (RT := Demo.runtime) 17500000 w1 = (Ok tt, w2) /\
    owned w2 = owned w1.
Proof.
  destruct (@process_price_run Demo.runtime 17500000%R
              (Demo.world_of Demo.listings)
              (mkSeries object
                 [Str "450000"; Str "620000"; Num 99000000;
                  Str "380000"; Str "710000"]) eq_refl)
    as (w1 & E1 & _).
  destruct (proj2 (@process_price_twice Demo.runtime 17500000%R
                     (Demo.world_of Demo.listings)) w1 E1)
    as (w2 & E2 & O).
  exists w1, w2. auto.
Defined.

End Twice.

Module CastTwice.
Import DataPreprocessor Cast.

Lemma index_setitem df c s : index (setitem df c s) = index df.
Proof. reflexivity. Qed.

Section WithContext.
Context {RT : Runtime} {VARS : Variables}.

Lemma float_cells_inv vals vals' :
  mapR float_cell vals = Ok vals' -> vals' = map coerce_cell vals.
Proof.
  revert vals'. induction vals as [| v vals IH]; simpl; intros vals' H.
  - injection H as <-. reflexivity.
  - destruct (float_cell v) as [v' |] eqn:Ev; [| discriminate]. simpl in H.
    destruct (mapR float_cell vals) as [l |]; [| discriminate].
    simpl in H. injection H as <-. rewrite (IH l eq_refl). f_equal.
    destruct v as [| x | s]; simpl in *; try congruence.
    destruct (str_to_float s); congruence.
Qed.

Lemma float_cells_numeric vals :
  forallb numeric_or_missing vals = true -> mapR float_cell vals = Ok vals.
Proof.
  induction vals as [| v vals IH]; simpl; [reflexivity |].
  intros H. apply andb_true_iff in H. destruct H as [Hv H].
  rewrite (IH H). destruct v; try discriminate; reflexivity.
Qed.

Lemma coerce_cell_numeric v : numeric_or_missing (coerce_cell v) = true.
Proof.
  destruct v as [| x | s]; simpl; try reflexivity.
  destruct (str_to_float s); reflexivity.
Qed.

Lemma coerce_cell_idem v : coerce_cell (coerce_cell v) = coerce_cell v.
Proof.
  destruct v as [| x | s]; simpl; try reflexivity.
  destruct (str_to_float s); reflexivity.
Qed.

Lemma float_series_idem s : float_series (float_series s) = float_series s.
Proof.
  unfold float_series. simpl. rewrite map_map. f_equal.
  apply map_ext, coerce_cell_idem.
Qed.

Lemma float_series_category s :
  float_series (astype_category s) = float_series s.
Proof.
  unfold float_series, astype_category. destruct (s_dtype s); reflexivity.
Qed.

Lemma astype_category_idem s :
  astype_category (astype_category s) = astype_category s.
Proof.
  unfold astype_category at 1. destruct (s_dtype (astype_category s)) eqn:E;
    try reflexivity;
    unfold astype_category in E; destruct (s_dtype s) eqn:E'; simpl in E;
      congruence.
Qed.

Lemma cast_float_frame_inv c df df' :
  cast_float_frame c df = Ok df' ->
  exists s, getitem df c = Ok s /\ df' = setitem df c (float_series s).
Proof.
  unfold cast_float_frame. destruct (getitem df c) as [s |]; [| discriminate].
  simpl. unfold astype_float.
  destruct (mapR float_cell (s_values s)) as [vals |] eqn:E; [| discriminate].
  simpl. intros H. injection H as <-. exists s. split; [reflexivity |].
  rewrite (float_cells_inv _ E). reflexivity.
Qed.

Lemma cast_category_frame_inv c df df' :
  cast_category_frame c df = Ok df' ->
  exists s, getitem df c = Ok s /\ df' = setitem df c (astype_category s).
Proof.
  unfold cast_category_frame.
  destruct (getitem df c) as [s |]; [| discriminate].
  simpl. intros H. injection H as <-. eauto.
Qed.

(** A loop that replaces each named column by [g] of it, with [g]
    idempotent: where it ends when it does not raise. *)
Lemma cast_each_cols (f : string -> DataFrame -> result DataFrame)
      (g : Series -> Series) :
  (forall s, g (g s) = g s) ->
  (forall c df df', f c df = Ok df' ->
     exists s, getitem df c = Ok s /\ df' = setitem df c (g s)) ->
  forall cols df df',
    cast_each f cols df = (Ok tt, df') ->
    index df' = index df /\
    column_names df' = column_names df /\
    has_columns df cols /\
    (forall c, In c cols -> getitem df' c = rmap g (getitem df c)) /\
    (forall c, ~ In c cols -> getitem df' c = getitem df c).
Proof.
  intros Hg Hf cols. induction cols as [| c0 cols IH]; intros df df' E;
    simpl in E.
  - injection E as <-. repeat split; auto; intros c [].
  - destruct (f c0 df) as [df1 |] eqn:E1; [| discriminate].
    destruct (Hf _ _ _ E1) as (s0 & Hs0 & ->).
    destruct (IH _ _ E) as (Hi & Hn & Hhas & Hin & Hout).
    assert (I0 : In c0 (column_names df)) by (eapply getitem_ok_in, Hs0).
    split; [rewrite Hi; reflexivity |].
    split; [rewrite Hn; apply column_names_setitem, I0 |].
    split.
    { intros c [<- | Hc]; [exact I0 |].
      rewrite <- (@column_names_setitem df c0 (g s0) I0). apply Hhas, Hc. }
    split.
    + intros c Hc. destruct (in_dec string_dec c cols) as [I | N].
      * rewrite (Hin c I). destruct (String.eqb_spec c c0) as [-> | Ne].
        -- rewrite getitem_setitem_same, Hs0. simpl. rewrite Hg. reflexivity.
        -- rewrite getitem_setitem_other by exact Ne. reflexivity.
      * destruct Hc as [<- | Hc]; [| contradiction].
        rewrite (Hout _ N), getitem_setitem_same, Hs0. reflexivity.
    + intros c Hc. rewrite Hout by (intros C; apply Hc; right; exact C).
      apply getitem_setitem_other. intros ->. apply Hc. left. reflexivity.
Qed.

Lemma cast_each_float_ok cols : forall df,
  (forall c, In c cols ->
     exists s, getitem df c = Ok s /\
               forallb numeric_or_missing (s_values s) = true) ->
  exists df', cast_each cast_float_frame cols df = (Ok tt, df').
Proof.
  induction cols as [| c0 cols IH]; intros df H; simpl; [eauto |].
  destruct (H c0) as (s0 & Hs0 & Hn0); [left; reflexivity |].
  unfold cast_float_frame at 1. rewrite Hs0. simpl. unfold astype_float.
  rewrite (float_cells_numeric _ Hn0). simpl. apply IH.
  intros c Hc. destruct (String.eqb_spec c c0) as [-> | Ne].
  - rewrite getitem_setitem_same. eauto.
  - rewrite getitem_setitem_other by exact Ne. apply H. right. exact Hc.
Qed.

Lemma cast_each_category_ok cols : forall df,
  has_columns df cols ->
  exists df', cast_each cast_category_frame cols df = (Ok tt, df').
Proof.
  induction cols as [| c0 cols IH]; intros df H; simpl; [eauto |].
  destruct (getitem_ok df c0) as (s0 & Hs0); [apply H; left; reflexivity |].
  unfold cast_category_frame at 1. rewrite Hs0. simpl. apply IH.
  intros c Hc. rewrite column_names_setitem by (eapply getitem_ok_in, Hs0).
  apply H. right. exact Hc.
Qed.

Lemma astype_category_values s : s_values (astype_category s) = s_values s.
Proof. unfold astype_category. destruct (s_dtype s); reflexivity. Qed.

Lemma float_series_numeric s :
  forallb numeric_or_missing (s_values (float_series s)) = true.
Proof.
  unfold float_series. simpl. apply forallb_forall. intros v Hv.
  apply in_map_iff in Hv. destruct Hv as (v0 & <- & _).
  apply coerce_cell_numeric.
Qed.

(** The casts of a frame that was cast already change nothing. *)
Lemma cast_frame_twice df df1 :
  cast_frame df = (Ok tt, df1) ->
  exists df2, cast_frame df1 = (Ok tt, df2) /\ same_frame df2 df1.
Proof.
  unfold cast_frame.
  destruct (cast_each cast_float_frame NUMERIC_FEATS df)
    as [[[] | e] d1] eqn:F1; [| discriminate].
  intros C1.
  destruct (@cast_each_cols cast_float_frame float_series float_series_idem
              cast_float_frame_inv _ _ _ F1)
    as (Fi & Fn & Fhas & Fin & Fout).
  destruct (@cast_each_cols cast_category_frame astype_category
              astype_category_idem cast_category_frame_inv _ _ _ C1)
    as (Ci & Cn & Chas & Cin & Cout).
  (* the columns of [df1], one by one *)
  assert (Hnum : forall c, In c NUMERIC_FEATS ->
            exists s, getitem df1 c = Ok s /\
                      forallb numeric_or_missing (s_values s) = true).
  { intros c Hc. destruct (getitem_ok df c (Fhas c Hc)) as (s0 & Hs0).
    assert (Hd1 : getitem d1 c = Ok (float_series s0)).
    { rewrite (Fin c Hc), Hs0. reflexivity. }
    destruct (in_dec string_dec c CATEGORICAL_FEATS) as [I | N].
    - rewrite (Cin c I), Hd1. simpl. eexists. split; [reflexivity |].
      rewrite astype_category_values. apply float_series_numeric.
    - rewrite (Cout c N), Hd1. eexists. split; [reflexivity |].
      apply float_series_numeric. }
  destruct (cast_each_float_ok NUMERIC_FEATS df1 Hnum) as (d2 & F2).
  rewrite F2.
  destruct (@cast_each_cols cast_float_frame float_series float_series_idem
              cast_float_frame_inv _ _ _ F2)
    as (Gi & Gn & _ & Gin & Gout).
  destruct (@cast_each_category_ok CATEGORICAL_FEATS d2) as (df2 & C2).
  { intros c Hc. rewrite Gn, Cn. apply Chas, Hc. }
  exists df2. split; [exact C2 |].
  destruct (@cast_each_cols cast_category_frame astype_category
              astype_category_idem cast_category_frame_inv _ _ _ C2)
    as (Di & Dn & _ & Din & Dout).
  split; [congruence |]. split; [congruence |].
  intros c.
  destruct (in_dec string_dec c CATEGORICAL_FEATS) as [IC | NC];
    destruct (in_dec string_dec c NUMERIC_FEATS) as [IN | NN].
  - rewrite (Din c IC), (Gin c IN), (Cin c IC), (Fin c IN).
    destruct (getitem df c) as [s |]; simpl; [| reflexivity].
    rewrite float_series_category, float_series_idem. reflexivity.
  - rewrite (Din c IC), (Gout c NN), (Cin c IC).
    destruct (getitem d1 c) as [s |]; simpl; [| reflexivity].
    rewrite astype_category_idem. reflexivity.
  - rewrite (Dout c NC), (Gin c IN), (Cout c NC), (Fin c IN).
    destruct (getitem df c) as [s |]; simpl; [| reflexivity].
    rewrite float_series_idem. reflexivity.
  - rewrite (Dout c NC), (Gout c NN). reflexivity.
Qed.

(** X4.  [_cast_types] is idempotent: when a call returned, a second call
    returns too and leaves a dataset with the same labels, the same column
    names and, column by column, the same dtype and cells. *)
Theorem cast_types_twice (w w1 : World) :
  valid_world w ->
  _cast_types w = (Ok tt, w1) ->
  exists w2,
    _cast_types w1 = (Ok tt, w2) /\ same_frame (owned w2) (owned w1).
Proof.
  intros V E1. rewrite (cast_types_run V) in E1.
  injection E1 as E1 <-.
  set (w0 := entered CastTypes w).
  assert (V1 : valid_world (with_object (self_df w) (snd (cast_frame (owned w)))
                                        w0)).
  { unfold valid_world. rewrite length_with_object. exact V. }
  assert (O1 : owned (with_object (self_df w) (snd (cast_frame (owned w))) w0)
               = snd (cast_frame (owned w))).
  { unfold owned at 1. apply deref_with_object. exact V. }
  rewrite (cast_types_run V1), O1.
  destruct (cast_frame (owned w)) as [[[] | e] df1] eqn:C; [| discriminate].
  destruct (cast_frame_twice _ C) as (df2 & C2 & S). simpl snd.
  rewrite C2. eexists. split; [reflexivity |].
  unfold owned at 1. simpl self_df. simpl snd.
  rewrite deref_with_object; [exact S |].
  simpl. rewrite !length_update. exact V.
Qed.

End WithContext.

Lemma cast_types_twice_witness :
  exists w1 w2,
    _cast_types (RT := Demo.runtime) (VARS := Demo.variables)
                (Demo.world_of DemoTables.served) = (Ok tt, w1) /\
    _cast_types (RT := Demo.runtime) (VARS := Demo.variables) w1
      = (Ok tt, w2) /\
    same_frame (owned w2) (owned w1).
Proof.
  assert (V : valid_world (Demo.world_of DemoTables.served)).
  { unfold valid_world. simpl. lia. }
  eexists.
  edestruct (@cast_types_twice Demo.runtime Demo.variables
               (Demo.world_of DemoTables.served)) as (w2 & E2 & S);
    [exact V | vm_compute; reflexivity |].
  exists w2. split; [vm_compute; reflexivity |]. split; [exact E2 | exact S].
Defined.

End CastTwice.

(** ** Feature selection, again *)

Module SelectTwice.
Import DataPreprocessor.

Lemma getitem_list_missing df cols c :
  In c cols -> ~ In c (column_names df) ->
  exists c', In c' cols /\ ~ In c' (column_names df) /\
             getitem_list df cols = Raise (KeyError c').
Proof.
  unfold getitem_list. induction cols as [| c0 cols IH]; [contradiction |].
  intros Hc Hm. simpl.
  destruct (in_dec string_dec c0 (column_names df)) as [I0 | N0].
  - destruct (getitem_ok df c0 I0) as (s0 & Hs0). rewrite Hs0. simpl.
    destruct Hc as [-> | Hc]; [contradiction |].
    destruct (IH Hc Hm) as (c' & Hin & Hn & E). exists c'.
    split; [right; exact Hin |]. split; [exact Hn |].
    destruct (mapR (fun c1 => rmap (pair c1) (getitem df c1)) cols);
      simpl in *; [discriminate | exact E].
  - exists c0. split; [left; reflexivity |]. split; [exact N0 |].
    rewrite (getitem_missing _ _ N0). reflexivity.
Qed.

(** Selecting the same columns from the selection gives the selection. *)
Lemma getitem_list_again df cols X :
  getitem_list df cols = Ok X -> getitem_list X cols = Ok X.
Proof.
  intros E. pose proof (Scaler.getitem_list_columns _ _ E) as F.
  destruct (getitem_list_ok (getitem_list_ok_has _ _ E))
    as (X' & E' & _ & _ & Hg).
  rewrite E in E'. injection E' as <-.
  unfold getitem_list.
  assert (M : mapR (fun c => rmap (pair c) (getitem X c)) cols
              = Ok (columns X)).
  { clear E. induction F as [| c cs cols l (Hc & Hs) F IH]; [reflexivity |].
    simpl. rewrite (Hg c (or_introl eq_refl)), Hs. simpl.
    rewrite IH by (intros c' Hc'; apply Hg; right; exact Hc'). simpl.
    destruct cs as [k s]. simpl in *. subst k. reflexivity. }
  rewrite M. simpl. destruct X; reflexivity.
Qed.

Section WithContext.
Context {VARS : Variables}.

Lemma select_features_inv w w1 :
  _select_features w = (Ok tt, w1) ->
  getitem_list (owned w) (FEAT_COLS ++ [TARGET_COL]) = Ok (owned w1) /\
  same_objects w w1.
Proof.
  unfold _select_features. run_step.
  erewrite bind_eval by apply self_frame_eval. cbv beta.
  change (owned (mkWorld (heap w) (self_df w) (calls w ++ [SelectFeatures])))
    with (owned w).
  destruct (getitem_list (owned w) (FEAT_COLS ++ [TARGET_COL]))
    as [X | e] eqn:E.
  - run_step. intros H. injection H as <-. simpl heap.
    rewrite owned_fresh. split; [reflexivity |].
    intros r Hr. unfold deref. simpl. apply app_nth1, Hr.
  - erewrite bind_raise by reflexivity. discriminate.
Qed.

(** X5.  [_select_features] reports a missing column and is idempotent:
    when a feature or the target is not a column of the dataset it raises
    [KeyError] for such a column and leaves the dataset as it was; and
    when a call returned, a second call returns too and leaves the very
    same dataset. *)
Theorem select_features_twice (w : World) :
  (forall c, In c (FEAT_COLS ++ [TARGET_COL]) ->
             ~ In c (column_names (owned w)) ->
   exists c', In c' (FEAT_COLS ++ [TARGET_COL]) /\
              ~ In c' (column_names (owned w)) /\
              _select_features w
              = (Raise (KeyError c'), entered SelectFeatures w)) /\
  (forall w1, _select_features w = (Ok tt, w1) ->
   exists w2, _select_features w1 = (Ok tt, w2) /\ owned w2 = owned w1).
Proof.
  split.
  - intros c Hc Hm.
    destruct (getitem_list_missing _ _ _ Hc Hm) as (c' & Hin & Hn & E).
    exists c'. split; [exact Hin |]. split; [exact Hn |].
    unfold _select_features. run_step.
    erewrite bind_eval by apply self_frame_eval. cbv beta.
    change (owned (mkWorld (heap w) (self_df w)
                           (calls w ++ [SelectFeatures])))
      with (owned w).
    erewrite bind_raise by (rewrite lift_eval, E; reflexivity). reflexivity.
  - intros w1 E1. destruct (select_features_inv _ E1) as (E & _).
    apply getitem_list_again in E.
    unfold _select_features. run_step.
    erewrite bind_eval by apply self_frame_eval. cbv beta.
    change (owned (mkWorld (heap w1) (self_df w1)
                           (calls w1 ++ [SelectFeatures])))
      with (owned w1).
    run_lift E. eexists. split; [reflexivity |]. simpl heap.
    apply owned_fresh.
Qed.

End WithContext.

Lemma select_features_twice_witness :
  (exists c',
      _select_features (VARS := Demo.variables)
                       (Demo.world_of DemoTables.served)
      = (Raise (KeyError c'),
         entered SelectFeatures (Demo.world_of DemoTables.served))) /\
  (exists w1 w2,
      _select_features (VARS := Demo.variables)
                       (Demo.world_of Demo.listings) = (Ok tt, w1) /\
      _select_features (VARS := Demo.variables) w1 = (Ok tt, w2) /\
      owned w2 = owned w1).
Proof.
  split.
  - destruct (proj1 (@select_features_twice Demo.variables
                       (Demo.world_of DemoTables.served)) "price")
      as (c' & _ & _ & E).
    + simpl. tauto.
    + simpl. intros C.
      repeat (destruct C as [C | C]; [discriminate |]). exact C.
    + exists c'. exact E.
  - eexists.
    edestruct (proj2 (@select_features_twice Demo.variables
                        (Demo.world_of Demo.listings))) as (w2 & E2 & O);
      [vm_compute; reflexivity |].
    exists w2. split; [vm_compute; reflexivity |]. auto.
Defined.

End SelectTwice.

(** ** Standardization that raises *)

Module ScalerTwice.
Import DataPreprocessor Sklearn Scaler.

Lemma mapR_value_error A B (f : A -> result B) l x :
  (forall a e, f a = Raise e -> e = ValueError) ->
  In x l -> f x = Raise ValueError ->
  mapR f l = Raise ValueError.
Proof.
  intros Hf. induction l as [| a l IH]; [contradiction |].
  intros Hin Hx. simpl. destruct (f a) as [b | e] eqn:Ea.
  - destruct Hin as [-> | Hin]; [congruence |].
    simpl. rewrite (IH Hin Hx). reflexivity.
  - simpl. rewrite (Hf _ _ Ea). reflexivity.
Qed.

Section WithContext.
Context {RT : Runtime} {VARS : Variables}.

Lemma as_float_value_error v e : as_float v = Raise e -> e = ValueError.
Proof.
  destruct v as [| x | s]; simpl; try discriminate.
  destruct (str_to_float s); [discriminate | congruence].
Qed.

Lemma as_floats_value_error vals e :
  mapR as_float vals = Raise e -> e = ValueError.
Proof.
  induction vals as [| v vals IH]; simpl; [discriminate |].
  destruct (as_float v) as [x |] eqn:Ev; simpl.
  - destruct (mapR as_float vals) as [l |]; simpl; [discriminate |].
    intros H. injection H as <-. apply IH. reflexivity.
  - intros H. injection H as <-. eapply as_float_value_error, Ev.
Qed.

Lemma standardize_raise w e :
  (rbind (getitem_list (owned w) NUMERIC_FEATS) fit_transform) = Raise e ->
  _standardize w = (Raise e, entered Standardize w).
Proof.
  intros H. unfold _standardize. run_step.
  erewrite bind_eval by apply self_frame_eval. cbv beta.
  change (owned (mkWorld (heap w) (self_df w) (calls w ++ [Standardize])))
    with (owned w).
  destruct (getitem_list (owned w) NUMERIC_FEATS) as [X |] eqn:EX.
  - run_step. simpl in H. erewrite bind_raise; [reflexivity |].
    rewrite lift_eval, H. reflexivity.
  - simpl in H. injection H as <-. erewrite bind_raise; reflexivity.
Qed.

(** X6.  The ways [_standardize] raises, each leaving the dataset as it
    was: [KeyError] when a numeric feature is not a column; [ValueError]
    when the dataset has no row or there is no numeric feature; and
    [ValueError] when a numeric feature column holds a string that is not
    a number. *)
Theorem standardize_raises (w : World) :
  (forall c, In c NUMERIC_FEATS -> ~ In c (column_names (owned w)) ->
   exists c', In c' NUMERIC_FEATS /\ ~ In c' (column_names (owned w)) /\
              _standardize w = (Raise (KeyError c'), entered Standardize w)) /\
  (has_columns (owned w) NUMERIC_FEATS ->
   nrows (owned w) = 0 \/ NUMERIC_FEATS = [] ->
   _standardize w = (Raise ValueError, entered Standardize w)) /\
  (has_columns (owned w) NUMERIC_FEATS ->
   forall c s str,
     In c NUMERIC_FEATS -> getitem (owned w) c = Ok s ->
     In (Str str) (s_values s) -> str_to_float str = None ->
     _standardize w = (Raise ValueError, entered Standardize w)).
Proof.
  split; [| split].
  - intros c Hc Hm.
    destruct (SelectTwice.getitem_list_missing _ _ _ Hc Hm)
      as (c' & Hin & Hn & E).
    exists c'. split; [exact Hin |]. split; [exact Hn |].
    apply standardize_raise. rewrite E. reflexivity.
  - intros Hc Hz. apply standardize_raise.
    destruct (getitem_list_ok Hc) as (X & EX & Hi & Hn & _). rewrite EX.
    simpl. unfold fit_transform, check_array.
    assert (Z : ((nrows X =? 0)%nat || (length (columns X) =? 0)%nat)
                = true).
    { apply orb_true_iff. destruct Hz as [Hz | Hz]; [left | right];
        apply Nat.eqb_eq.
      - unfold nrows in *. rewrite Hi. exact Hz.
      - unfold column_names in Hn. rewrite <- (length_map fst), Hn, Hz.
        reflexivity. }
    rewrite Z. reflexivity.
  - intros Hc c s str Hin Hs Hstr Hparse. apply standardize_raise.
    destruct (getitem_list_ok Hc) as (X & EX & Hi & Hn & Hg). rewrite EX.
    simpl. unfold fit_transform, check_array.
    destruct ((nrows X =? 0)%nat || (length (columns X) =? 0)%nat);
      [reflexivity |].
    assert (Hx : In (c, s) (columns X)).
    { rewrite <- (Hg c Hin) in Hs. unfold getitem in Hs.
      destruct (assoc c (columns X)) as [s' |] eqn:Ea; [| discriminate].
      injection Hs as ->. clear -Ea.
      induction (columns X) as [| [k a] l IH]; simpl in *; [discriminate |].
      destruct (String.eqb_spec c k) as [-> | N].
      - injection Ea as ->. left. reflexivity.
      - right. apply IH, Ea. }
    rewrite (mapR_value_error
               (fun c0 => mapR as_float (s_values (snd c0)))
               (columns X) (c, s)); [reflexivity | | exact Hx |].
    + intros a e. apply as_floats_value_error.
    + simpl. apply (mapR_value_error as_float (s_values s) (Str str));
        [apply as_float_value_error | exact Hstr |].
      simpl. rewrite Hparse. reflexivity.
Qed.

End WithContext.

Lemma standardize_raises_witness :
  _standardize (RT := Demo.runtime) (VARS := Demo.variables)
               (Demo.world_of DemoTables.no_listings)
  = (Raise ValueError,
     entered Standardize (Demo.world_of DemoTables.no_listings)).
Proof.
  apply (proj1 (proj2 (@standardize_raises Demo.runtime Demo.variables
                         (Demo.world_of DemoTables.no_listings)))).
  - intros c Hc. simpl in Hc.
    repeat (destruct Hc as [<- | Hc]; [simpl; tauto |]). contradiction.
  - left. reflexivity.
Defined.

End ScalerTwice.

(** ** Which objects a method writes *)

Module Objects.
Import DataPreprocessor.

Lemma keeps_old_ret n A (a : A) : keeps_old n (ret a).
Proof. intros w H. simpl. auto. Qed.

Lemma keeps_old_lift n A (r : result A) : keeps_old n (lift r).
Proof. intros w H. simpl. auto. Qed.

Lemma keeps_old_self_frame n : keeps_old n self_frame.
Proof. intros w H. simpl. auto. Qed.

Lemma keeps_old_enter n c : keeps_old n (enter c).
Proof. intros w H. simpl. split; [exact H | reflexivity]. Qed.

Lemma keeps_old_store_self n df : keeps_old n (store_self df).
Proof.
  intros w (Hn & V). unfold owns_new, store_self, store, valid_world in *.
  simpl. split.
  - rewrite length_update. auto.
  - intros r Hr. unfold deref. simpl. apply nth_update_other. lia.
Qed.

Lemma keeps_old_rebind_self n df : keeps_old n (rebind_self df).
Proof.
  intros w (Hn & V). unfold owns_new, rebind_self, valid_world in *.
  simpl. split.
  - rewrite length_app. simpl. lia.
  - intros r Hr. unfold deref. simpl. apply app_nth1. lia.
Qed.

Lemma keeps_old_bind n A B (m : M A) (f : A -> M B) :
  keeps_old n m -> (forall a, keeps_old n (f a)) -> keeps_old n (bind m f).
Proof.
  intros Hm Hf w H. unfold bind. destruct (Hm w H) as (H1 & D1).
  destruct (m w) as [[a | e] w1]; simpl in *; [| auto].
  destruct (Hf a w1 H1) as (H2 & D2). split; [exact H2 |].
  intros r Hr. rewrite (D2 r Hr). apply D1, Hr.
Qed.

Lemma keeps_old_if n A (b : bool) (m1 m2 : M A) :
  keeps_old n m1 -> keeps_old n m2 -> keeps_old n (if b then m1 else m2).
Proof. destruct b; auto. Qed.

Lemma keeps_old_for_each n A (l : list A) (body : A -> M unit) :
  (forall x, keeps_old n (body x)) -> keeps_old n (for_each l body).
Proof.
  intros Hb. induction l as [| x l IH]; simpl.
  - apply keeps_old_ret.
  - apply keeps_old_bind; auto.
Qed.

Create HintDb objects.
#[local] Hint Resolve keeps_old_ret keeps_old_lift keeps_old_self_frame
  keeps_old_enter keeps_old_store_self keeps_old_rebind_self keeps_old_if
  keeps_old_for_each : objects.
#[local] Hint Extern 2 (keeps_old _ (bind _ _)) =>
  apply keeps_old_bind; [| intros ?] : objects.

(** A rebinding makes every object of the heap an old one. *)
Lemma owns_new_rebind w df :
  owns_new (length (heap w)) (snd (rebind_self df w)).
Proof.
  unfold owns_new, valid_world, rebind_self. simpl.
  rewrite length_app. simpl. lia.
Qed.

Section WithContext.
Context {RT : Runtime} {VARS : Variables}.

Lemma keeps_old_keep_below n col t : keeps_old n (keep_below col t).
Proof. unfold keep_below. auto 10 with objects. Qed.

Lemma keeps_old_process_size n t : keeps_old n (_process_size t).
Proof.
  unfold _process_size. pose proof (@keeps_old_keep_below n "size" t).
  auto 10 with objects.
Qed.

Lemma keeps_old_process_floor n t : keeps_old n (_process_floor t).
Proof.
  unfold _process_floor. pose proof (@keeps_old_keep_below n "floor" t).
  auto 10 with objects.
Qed.

Lemma keeps_old_standardize n : keeps_old n _standardize.
Proof. unfold _standardize. auto 10 with objects. Qed.

Lemma keeps_old_select_features n : keeps_old n _select_features.
Proof. unfold _select_features. auto 10 with objects. Qed.

Lemma keeps_old_process_price n t : keeps_old n (_process_price t).
Proof.
  unfold _process_price. pose proof (@keeps_old_keep_below n "price" t).
  auto 20 with objects.
Qed.

(** [_process_price] writes into no object that exists when it is
    entered, and when it returns the instance owns a new object. *)
Lemma process_price_objects t w :
  same_objects w (snd (_process_price t w)) /\
  (is_ok (fst (_process_price t w)) = true ->
   owns_new (length (heap w)) (snd (_process_price t w))).
Proof.
  set (rest :=
         (df <- self_frame ;;
          price <- lift (getitem df "price") ;;
          price' <- lift (astype_float price) ;;
          store_self (setitem df "price" price') ;;
          if Rltb 0 t then keep_below "price" t else ret tt) : M unit).
  assert (K : keeps_old (length (heap w)) rest).
  { unfold rest.
    pose proof (@keeps_old_keep_below (length (heap w)) "price" t).
    auto 20 with objects. }
  assert (E : _process_price t w
              = match getitem (owned w) "price" with
                | Ok p =>
                    rest (snd (rebind_self
                                 (loc_mask (owned w)
                                           (notna (to_numeric_coerce p)))
                                 (entered (ProcessPrice t) w)))
                | Raise e => (Raise e, entered (ProcessPrice t) w)
                end).
  { unfold _process_price, bind at 1 2 3 4, enter, self_frame, lift,
      rebind_self. simpl. fold_owned w.
    destruct (getitem (owned w) "price"); reflexivity. }
  rewrite E. destruct (getitem (owned w) "price") as [p | e].
  - set (wr := snd (rebind_self _ (entered (ProcessPrice t) w))).
    assert (Hr : owns_new (length (heap w)) wr)
      by apply (@owns_new_rebind (entered (ProcessPrice t) w)).
    destruct (K wr Hr) as (H1 & D1). split.
    + intros r Hlt. rewrite (D1 r Hlt). unfold wr, deref. simpl.
      apply app_nth1, Hlt.
    + intros _. exact H1.
  - simpl. split; [intros r Hr; reflexivity | discriminate].
Qed.

End WithContext.

Lemma owned_with_object w0 F :
  valid_world w0 -> owned (with_object (self_df w0) F w0) = F.
Proof. intros V. unfold owned. simpl self_df. apply Cast.deref_with_object, V. Qed.

Lemma fill_step_at w0 F col v :
  valid_world w0 -> fillable F col ->
  fillna_inplace col v (with_object (self_df w0) F w0)
  = (Ok tt, with_object (self_df w0) (fill_column col v F) w0).
Proof.
  intros V (s & Hs & Hc).
  destruct (Missing.fillna_ok v s Hc) as (d & Hf).
  erewrite Missing.fillna_inplace_ok;
    [| rewrite owned_with_object by exact V; exact Hs | exact Hf].
  rewrite owned_with_object by exact V.
  change (snd (store_self (fill_column col v F)
                          (with_object (self_df w0) F w0)))
    with (with_object (self_df w0) (fill_column col v F)
                      (with_object (self_df w0) F w0)).
  rewrite Cast.with_object_twice. reflexivity.
Qed.

Lemma fill_step_first w0 col v :
  valid_world w0 -> fillable (owned w0) col ->
  fillna_inplace col v w0
  = (Ok tt, with_object (self_df w0) (fill_column col v (owned w0)) w0).
Proof.
  intros V Hf. pose proof (@fill_step_at w0 (owned w0) col v V Hf) as H.
  unfold owned in H at 1. rewrite Cast.with_object_same in H. exact H.
Qed.

Lemma dedup_step_at w0 F :
  valid_world w0 ->
  (df <- self_frame ;; store_self (drop_duplicates df))
    (with_object (self_df w0) F w0)
  = (Ok tt, with_object (self_df w0) (drop_duplicates F) w0).
Proof.
  intros V. erewrite bind_eval by apply self_frame_eval. cbv beta.
  rewrite owned_with_object by exact V.
  change (store_self (drop_duplicates F) (with_object (self_df w0) F w0))
    with (Ok tt, with_object (self_df w0) (drop_duplicates F)
                             (with_object (self_df w0) F w0)).
  rewrite Cast.with_object_twice. reflexivity.
Qed.

(** X8.  Which objects [_handle_missing_and_duplicated_values] writes.
    The fills and the removal of duplicates are written into the object
    the instance owns when the method is entered; the removals of the rows
    without price and without size each go to a new object, to which
    [self.df] is rebound.  So after the call the object owned before holds
    the filled table without duplicates but still with the rows that lack
    a price or a size, and no other object has changed. *)
Theorem handle_missing_objects (w : World) :
  valid_world w ->
  (forall c, In c (map fst fills) -> fillable (owned w) c) ->
  has_columns (owned w) ["price"; "size"] ->
  exists w',
    _handle_missing_and_duplicated_values w = (Ok tt, w') /\
    deref w' (self_df w) = drop_duplicates (fill_all (owned w)) /\
    owned w'
    = keep_present "size"
        (keep_present "price" (drop_duplicates (fill_all (owned w)))) /\
    length (heap w) <= self_df w' /\
    (forall r, r < length (heap w) -> r <> self_df w ->
               deref w' r = deref w r).
Proof.
  intros V Hf Hc. simpl in Hf.
  unfold _handle_missing_and_duplicated_values. run_step.
  change (mkWorld (heap w) (self_df w)
                  (calls w ++ [HandleMissingAndDuplicatedValues]))
    with (entered HandleMissingAndDuplicatedValues w).
  set (w0 := entered HandleMissingAndDuplicatedValues w).
  assert (V0 : valid_world w0) by exact V.
  change (self_df w) with (self_df w0).
  change (heap w) with (heap w0).
  change (owned w) with (owned w0) in *.
  assert (F0 : forall c, In c (map fst fills) -> fillable (owned w0) c).
  { intros c Hin. apply Hf. exact Hin. }
  rewrite (bind_eval (@fill_step_first w0 "floor" brak_informacji V0
                        ltac:(apply Hf; tauto))).
  set (F1 := fill_column "floor" brak_informacji (owned w0)).
  set (F2 := fill_column "status" brak_informacji F1).
  set (F3 := fill_column "property_type" brak_informacji F2).
  set (F4 := fill_column "rooms" (Num 1) F3).
  set (F5 := fill_column "year_built" brak_informacji F4).
  assert (H2 : fillable F1 "status").
  { unfold F1. repeat (apply Missing.fillable_fill_other;
                       [intros N; discriminate N |]). apply Hf; tauto. }
  assert (H3 : fillable F2 "property_type").
  { unfold F2, F1. repeat (apply Missing.fillable_fill_other;
                           [intros N; discriminate N |]). apply Hf; tauto. }
  assert (H4 : fillable F3 "rooms").
  { unfold F3, F2, F1. repeat (apply Missing.fillable_fill_other;
                               [intros N; discriminate N |]).
    apply Hf; tauto. }
  assert (H5 : fillable F4 "year_built").
  { unfold F4, F3, F2, F1. repeat (apply Missing.fillable_fill_other;
                                   [intros N; discriminate N |]).
    apply Hf; tauto. }
  assert (H6 : fillable F5 "property_condition").
  { unfold F5, F4, F3, F2, F1.
    repeat (apply Missing.fillable_fill_other; [intros N; discriminate N |]).
    apply Hf; tauto. }
  rewrite (bind_eval (@fill_step_at w0 F1 "status" brak_informacji V0 H2)).
  fold F2.
  rewrite (bind_eval (@fill_step_at w0 F2 "property_type" brak_informacji
                        V0 H3)).
  fold F3.
  rewrite (bind_eval (@fill_step_at w0 F3 "rooms" (Num 1) V0 H4)).
  fold F4.
  rewrite (bind_eval (@fill_step_at w0 F4 "year_built" brak_informacji
                        V0 H5)).
  fold F5.
  rewrite (bind_eval (@fill_step_at w0 F5 "property_condition"
                        brak_informacji V0 H6)).
  change (fill_column "property_condition" brak_informacji _)
    with (fill_all (owned w0)).
  set (F := fill_all (owned w0)).
  rewrite (bind_eval (@dedup_step_at w0 F V0)).
  set (D := drop_duplicates F).
  set (w7 := with_object (self_df w0) D w0).
  assert (O7 : owned w7 = D) by (apply owned_with_object, V0).
  destruct (getitem_ok (owned w7) "price") as (p & Hp).
  { rewrite O7. unfold D, drop_duplicates, F.
    rewrite column_names_loc_mask, Missing.column_names_fill_all.
    apply Hc. simpl. tauto. }
  rewrite (bind_eval (Missing.keep_notna_ok _ _ Hp)).
  set (w8 := mkWorld _ _ _).
  assert (O8 : owned w8 = keep_present "price" D).
  { unfold w8. rewrite owned_fresh, O7. reflexivity. }
  destruct (getitem_ok (owned w8) "size") as (sz & Hsz).
  { rewrite O8. unfold keep_present.
    rewrite O7 in Hp. rewrite Hp.
    rewrite column_names_loc_mask. unfold D, drop_duplicates, F.
    rewrite column_names_loc_mask, Missing.column_names_fill_all.
    apply Hc. simpl. tauto. }
  rewrite (Missing.keep_notna_ok _ _ Hsz).
  eexists. split; [reflexivity |].
  assert (L7 : length (heap w7) = length (heap w)).
  { unfold w7. rewrite Cast.length_with_object. reflexivity. }
  split.
  { unfold deref. simpl heap. rewrite <- app_assoc.
    rewrite app_nth1
      by (first [rewrite L7 | rewrite length_update]; exact V).
    apply (@Cast.deref_with_object (self_df w0) D w0 V0). }
  split.
  { simpl heap. rewrite owned_fresh, O8. reflexivity. }
  split.
  { cbn [self_df]. unfold w8. cbn [heap]. rewrite length_app.
    first [rewrite L7 | rewrite length_update]. simpl. lia. }
  intros r Hr Hn. unfold deref. simpl heap. rewrite <- app_assoc.
  rewrite app_nth1
    by (first [rewrite L7 | rewrite length_update]; exact Hr).
  apply (@Cast.deref_with_object_other (self_df w0) r D w0 Hn).
Qed.

Lemma handle_missing_objects_witness :
  exists w',
    _handle_missing_and_duplicated_values
      (Demo.world_of DemoTables.raw_listings) = (Ok tt, w') /\
    nrows (deref w' 0) = 9 /\ nrows (owned w') = 8.
Proof.
  destruct (@handle_missing_objects (Demo.world_of DemoTables.raw_listings))
    as (w' & E & D & O & _).
  { unfold valid_world. simpl. lia. }
  { exact Missing.raw_listings_fillable. }
  { exact Missing.raw_listings_has_price_size. }
  exists w'. split; [exact E |].
  change (self_df (Demo.world_of DemoTables.raw_listings)) with 0 in D.
  change (owned (Demo.world_of DemoTables.raw_listings))
    with DemoTables.raw_listings in D, O.
  rewrite D, O. unfold drop_duplicates.
  rewrite Missing.raw_listings_duplicated.
  split; vm_compute; reflexivity.
Defined.

End Objects.

(** ** The pipeline as a whole *)

Module Whole.
Import DataPreprocessor Objects.

Lemma bind_inv A B (m : M A) (f : A -> M B) w b w' :
  bind m f w = (Ok b, w') ->
  exists a w1, m w = (Ok a, w1) /\ f a w1 = (Ok b, w').
Proof.
  unfold bind. destruct (m w) as [[a | e] w1]; [eauto | discriminate].
Qed.

Lemma guarded_filter_inv (c : call) col t w w' :
  (0 < t)%R ->
  (enter c ;; if Rltb 0 t then keep_below col t else ret tt) w = (Ok tt, w') ->
  exists s,
    getitem (owned w) col = Ok s /\
    is_category (s_dtype s) = false /\
    owned w' = loc_mask (owned w) (map (cell_below t) (s_values s)) /\
    valid_world w'.
Proof.
  intros Ht. run_step. rewrite (Rltb_true Ht). intros E.
  destruct (Filters.keep_below_inv _ _ _ E) as (s & Hs & Hc & _ & ->).
  exists s. split; [exact Hs |]. split; [exact Hc |]. split.
  - simpl heap. rewrite owned_fresh. reflexivity.
  - unfold valid_world. simpl. rewrite length_app. simpl. lia.
Qed.

Section WithContext.
Context {RT : Runtime} {VARS : Variables}.

Lemma process_price_inv t w w2 :
  _process_price t w = (Ok tt, w2) ->
  exists p,
    getitem (owned w) "price" = Ok p /\
    owned w2
    = setitem (loc_mask (owned w) (map (price_kept t) (s_values p))) "price"
              (mkSeries float64
                 (filter_mask (map (price_kept t) (s_values p))
                              (map coerce_cell (s_values p)))) /\
    valid_world w2.
Proof.
  intros E.
  destruct (in_dec string_dec "price" (column_names (owned w))) as [I | N].
  2:{ rewrite (Twice.process_price_missing t w N) in E. discriminate. }
  destruct (getitem_ok _ _ I) as (p & Hp).
  destruct (Price.process_price_run t w Hp) as (w2' & E' & O & _).
  rewrite E in E'. injection E' as <-.
  exists p. split; [exact Hp |]. split; [exact O |].
  destruct (process_price_objects t w) as (_ & H). rewrite E in H.
  apply H. reflexivity.
Qed.

Lemma standardize_inv w w' :
  valid_world w ->
  _standardize w = (Ok tt, w') ->
  exists arr,
    owned w' = setitem_list (owned w) NUMERIC_FEATS arr /\
    valid_world w'.
Proof.
  intros V. unfold _standardize. run_step.
  erewrite bind_eval by apply self_frame_eval. cbv beta.
  change (owned (mkWorld (heap w) (self_df w) (calls w ++ [Standardize])))
    with (owned w).
  destruct (getitem_list (owned w) NUMERIC_FEATS) as [X |];
    [run_step | erewrite bind_raise by reflexivity; discriminate].
  destruct (Sklearn.fit_transform X) as [arr |];
    [run_step | erewrite bind_raise by reflexivity; discriminate].
  erewrite bind_eval by apply self_frame_eval. cbv beta.
  change (owned (mkWorld (heap w) (self_df w) (calls w ++ [Standardize])))
    with (owned w).
  intros H. exists arr.
  assert (E : w' = snd (store_self (setitem_list (owned w) NUMERIC_FEATS arr)
                          (mkWorld (heap w) (self_df w)
                                   (calls w ++ [Standardize])))).
  { rewrite H. reflexivity. }
  rewrite E. split.
  - apply Missing.owned_store. exact V.
  - apply Missing.valid_store. exact V.
Qed.

(** The six steps of a run that returned. *)
Lemma pipeline_inv cast_types standardize w w' :
  run_preprocessing_pipeline cast_types standardize w = (Ok tt, w') ->
  exists w1 w2 w3 w4 w5,
    (if cast_types then _cast_types else ret tt) w = (Ok tt, w1) /\
    _process_price 17500000 w1 = (Ok tt, w2) /\
    _process_size 1000 w2 = (Ok tt, w3) /\
    _process_floor 30 w3 = (Ok tt, w4) /\
    (if standardize then _standardize else ret tt) w4 = (Ok tt, w5) /\
    _select_features w5 = (Ok tt, w').
Proof.
  unfold run_preprocessing_pipeline. intros E.
  apply bind_inv in E. destruct E as ([] & w1 & E1 & E).
  apply bind_inv in E. destruct E as ([] & w2 & E2 & E).
  apply bind_inv in E. destruct E as ([] & w3 & E3 & E).
  apply bind_inv in E. destruct E as ([] & w4 & E4 & E).
  apply bind_inv in E. destruct E as ([] & w5 & E5 & E).
  exists w1, w2, w3, w4, w5. auto 10.
Qed.

Lemma all_numbers_mask P m vals :
  all_numbers P vals -> all_numbers P (filter_mask m vals).
Proof. apply Missing.Forall_filter_mask. Qed.

Lemma all_numbers_weaken (P Q : R -> Prop) vals :
  (forall x, P x -> Q x) -> all_numbers P vals -> all_numbers Q vals.
Proof.
  intros H. unfold all_numbers. apply Forall_impl.
  intros v (x & -> & Hx). eauto.
Qed.

(** A column that holds numbers below a bound still does after a row
    filter. *)
Lemma bounded_after_mask df m col t :
  (exists s, getitem df col = Ok s /\
             all_numbers (fun x => (x < t)%R) (s_values s)) ->
  exists s, getitem (loc_mask df m) col = Ok s /\
            all_numbers (fun x => (x < t)%R) (s_values s).
Proof.
  intros (s & Hs & Hb). exists (series_mask m s).
  rewrite getitem_loc_mask, Hs. split; [reflexivity |].
  simpl. apply all_numbers_mask, Hb.
Qed.

Lemma bounded_by_mask df col t s :
  getitem df col = Ok s ->
  exists s', getitem (loc_mask df (map (cell_below t) (s_values s))) col
             = Ok s' /\
             all_numbers (fun x => (x < t)%R) (s_values s').
Proof.
  intros Hs. eexists. rewrite getitem_loc_mask, Hs. split; [reflexivity |].
  simpl. apply Filters.below_are_numbers.
Qed.

Lemma pipeline_returns_columns (cast_types standardize : bool) w w' :
  run_preprocessing_pipeline cast_types standardize w = (Ok tt, w') ->
  column_names (owned w') = FEAT_COLS ++ [TARGET_COL].
Proof.
  intros E.
  destruct (pipeline_inv _ _ _ E) as (w1 & w2 & w3 & w4 & w5 & H).
  destruct H as (_ & _ & _ & _ & _ & E6).
  destruct (SelectTwice.select_features_inv _ E6) as (S6 & _).
  destruct (getitem_list_ok (getitem_list_ok_has _ _ S6))
    as (X & EX & _ & Hn & _).
  rewrite S6 in EX. injection EX as <-. exact Hn.
Qed.

(** X9.  What holds whenever [run_preprocessing_pipeline] returns.  The
    owned dataset has the columns [FEAT_COLS] followed by [TARGET_COL].
    Each of [price], [size] and [floor] that is among these columns and
    was not standardized (the flag is off, or the column is not a numeric
    feature) holds only numbers strictly below its threshold, 17500000,
    1000 and 30: no such cell is missing and none is a string. *)
Theorem pipeline_postconditions (cast_types standardize : bool)
        (w w' : World) :
  run_preprocessing_pipeline cast_types standardize w = (Ok tt, w') ->
  column_names (owned w') = FEAT_COLS ++ [TARGET_COL] /\
  forall col t,
    In (col, t) [("price", 17500000%R); ("size", 1000%R); ("floor", 30%R)] ->
    In col (FEAT_COLS ++ [TARGET_COL]) ->
    standardize = false \/ ~ In col NUMERIC_FEATS ->
    exists s, getitem (owned w') col = Ok s /\
              all_numbers (fun x => (x < t)%R) (s_values s).
Proof.
  intros E.
  destruct (pipeline_inv _ _ _ E)
    as (w1 & w2 & w3 & w4 & w5 & _ & E2 & E3 & E4 & E5 & E6).
  destruct (process_price_inv _ _ E2) as (p & Hp & O2 & V2).
  assert (P1000 : (0 < 1000)%R) by lra.
  assert (P30 : (0 < 30)%R) by lra.
  destruct (@guarded_filter_inv (ProcessSize 1000) "size" 1000%R w2 w3
              P1000 E3) as (sz & Hsz & _ & O3 & V3).
  destruct (@guarded_filter_inv (ProcessFloor 30) "floor" 30%R w3 w4
              P30 E4) as (fl & Hfl & _ & O4 & V4).
  destruct (SelectTwice.select_features_inv _ E6) as (S6 & _).
  destruct (getitem_list_ok (getitem_list_ok_has _ _ S6))
    as (X & EX & _ & Hn & Hg).
  rewrite S6 in EX. injection EX as <-.
  split; [exact Hn |].
  (* the three columns before standardization *)
  assert (B4 : forall col t,
             In (col, t) [("price", 17500000%R); ("size", 1000%R);
                          ("floor", 30%R)] ->
             exists s, getitem (owned w4) col = Ok s /\
                       all_numbers (fun x => (x < t)%R) (s_values s)).
  { intros col t Hin. simpl in Hin.
    destruct Hin as [H | [H | [H | []]]]; injection H as <- <-.
    - rewrite O4, O3. do 2 apply bounded_after_mask.
      rewrite O2, getitem_setitem_same. eexists. split; [reflexivity |].
      simpl. eapply all_numbers_weaken;
        [| apply Price.kept_prices_are_numbers].
      intros x Hx. apply Hx. lra.
    - rewrite O4. apply bounded_after_mask. rewrite O3.
      apply bounded_by_mask, Hsz.
    - rewrite O4. apply bounded_by_mask, Hfl. }
  intros col t Hin Hsel Hstd.
  destruct (B4 col t Hin) as (s & Hs & Hb).
  exists s. split; [| exact Hb].
  rewrite (Hg col Hsel), <- Hs.
  destruct standardize.
  - destruct Hstd as [Hstd | Hstd]; [discriminate |].
    destruct (standardize_inv V4 E5) as (arr & O5 & _).
    rewrite O5. apply Scaler.getitem_setitem_list_other, Hstd.
  - simpl in E5. injection E5 as <-. reflexivity.
Qed.

Lemma keeps_old_tail n (standardize : bool) :
  keeps_old n (_process_size 1000 ;; _process_floor 30 ;;
               (if standardize then _standardize else ret tt) ;;
               _select_features).
Proof.
  pose proof (@keeps_old_process_size n 1000%R).
  pose proof (@keeps_old_process_floor n 30%R).
  pose proof (@keeps_old_standardize RT VARS n).
  pose proof (@keeps_old_select_features VARS n).
  apply keeps_old_bind; [assumption | intros _].
  apply keeps_old_bind; [assumption | intros _].
  apply keeps_old_bind; [| intros _; assumption].
  destruct standardize; [assumption | apply keeps_old_ret].
Qed.

(** From [_process_price] on, the pipeline writes into new objects
    only. *)
Lemma pipeline_from_price (standardize : bool) w1 :
  let m := (_process_price 17500000 ;; _process_size 1000 ;;
            _process_floor 30 ;;
            (if standardize then _standardize else ret tt) ;;
            _select_features) in
  same_objects w1 (snd (m w1)) /\
  (is_ok (fst (m w1)) = true -> length (heap w1) <= self_df (snd (m w1))).
Proof.
  intros m.
  set (tail := (_process_size 1000 ;; _process_floor 30 ;;
                (if standardize then _standardize else ret tt) ;;
                _select_features) : M unit).
  assert (E : m w1 = match _process_price 17500000 w1 with
                     | (Ok _, w2) => tail w2
                     | (Raise e, w2) => (Raise e, w2)
                     end) by reflexivity.
  rewrite E. clear E.
  destruct (process_price_objects 17500000 w1) as (S2 & N2).
  destruct (_process_price 17500000 w1) as [[[] | e] w2]; simpl in S2, N2.
  - destruct (@keeps_old_tail (length (heap w1)) standardize w2 (N2 eq_refl))
      as ((Hn & _) & D). fold tail in Hn, D. split.
    + intros r Hr. rewrite (D r Hr). apply S2, Hr.
    + intros _. exact Hn.
  - split; [exact S2 | discriminate].
Qed.

(** X10.  Which objects the pipeline writes.  [get] returns the object the
    instance owns, not a copy.  Of the objects that exist when
    [run_preprocessing_pipeline] is entered, only the owned one can change,
    and only by the casts of [_cast_types] when that flag is set: the
    filters, the scaler and the selection work on new objects.  When the
    run returns, [self.df] is a new object, so the object [get] returned
    before the run does not hold the result. *)
Theorem pipeline_objects (cast_types standardize : bool) (w : World) :
  valid_world w ->
  get w = (Ok (self_df w), entered Get w) /\
  deref (snd (run_preprocessing_pipeline cast_types standardize w))
        (self_df w)
  = (if cast_types then snd (cast_frame (owned w)) else owned w) /\
  (forall r, r < length (heap w) -> r <> self_df w ->
     deref (snd (run_preprocessing_pipeline cast_types standardize w)) r
     = deref w r) /\
  (is_ok (fst (run_preprocessing_pipeline cast_types standardize w)) = true ->
   length (heap w)
   <= self_df (snd (run_preprocessing_pipeline cast_types standardize w))).
Proof.
  intros V. split; [reflexivity |].
  set (rest := (_process_price 17500000 ;; _process_size 1000 ;;
                _process_floor 30 ;;
                (if standardize then _standardize else ret tt) ;;
                _select_features) : M unit).
  destruct cast_types.
  - assert (E : run_preprocessing_pipeline true standardize w
                = match _cast_types w with
                  | (Ok _, w1) => rest w1
                  | (Raise e, w1) => (Raise e, w1)
                  end) by reflexivity.
    rewrite E. clear E. rewrite (Cast.cast_types_run V).
    set (X := snd (cast_frame (owned w))).
    set (w1 := with_object (self_df w) X (entered CastTypes w)).
    assert (L1 : length (heap w1) = length (heap w)).
    { unfold w1. rewrite Cast.length_with_object. reflexivity. }
    assert (D1 : deref w1 (self_df w) = X).
    { apply (@Cast.deref_with_object (self_df w) X (entered CastTypes w) V). }
    assert (D2 : forall r, r <> self_df w -> deref w1 r = deref w r).
    { intros r Hn.
      apply (@Cast.deref_with_object_other (self_df w) r X
               (entered CastTypes w) Hn). }
    destruct (fst (cast_frame (owned w))) as [[] | e].
    + destruct (pipeline_from_price standardize w1) as (S & N).
      cbv zeta in S, N. fold rest in S, N. split; [| split].
      * rewrite S by (rewrite L1; exact V). exact D1.
      * intros r Hr Hn. rewrite S by (rewrite L1; exact Hr). apply D2, Hn.
      * intros Hok. rewrite <- L1. apply N, Hok.
    + split; [exact D1 |]. split; [intros r _ Hn; apply D2, Hn |].
      discriminate.
  - assert (E : run_preprocessing_pipeline false standardize w = rest w)
      by reflexivity.
    rewrite E. clear E.
    destruct (pipeline_from_price standardize w) as (S & N).
    cbv zeta in S, N. fold rest in S, N. split; [| split].
    + apply S, V.
    + intros r Hr _. apply S, Hr.
    + exact N.
Qed.

(** X11.  With [cast_types] set, the pipeline cannot return when [size] or
    [floor] is listed in [CATEGORICAL_FEATS]: the column is categorical
    after [_cast_types], and the comparison with the threshold raises (or
    an earlier step does). *)
Theorem pipeline_raises_on_categorical_threshold (standardize : bool)
        (w : World) :
  valid_world w ->
  In "size" CATEGORICAL_FEATS \/ In "floor" CATEGORICAL_FEATS ->
  is_ok (fst (run_preprocessing_pipeline true standardize w)) = false.
Proof.
  intros V Hcat.
  destruct (run_preprocessing_pipeline true standardize w)
    as [[[] | e] w'] eqn:E; [exfalso | reflexivity].
  destruct (pipeline_inv _ _ _ E)
    as (w1 & w2 & w3 & w4 & w5 & E1 & E2 & E3 & E4 & _).
  rewrite (Cast.cast_types_run V) in E1. injection E1 as E1 <-.
  set (w1 := with_object _ _ _) in *.
  assert (O1 : owned w1 = snd (cast_frame (owned w))).
  { unfold owned at 1. simpl self_df.
    apply (@Cast.deref_with_object (self_df w) _ (entered CastTypes w) V). }
  assert (C : cast_frame (owned w) = (Ok tt, owned w1)).
  { rewrite O1. destruct (cast_frame (owned w)) as [r df]. simpl in *.
    rewrite E1. reflexivity. }
  destruct (Cast.cast_frame_dtypes _ C) as (_ & Dc).
  destruct (process_price_inv _ _ E2) as (p & Hp & O2 & V2).
  assert (P1000 : (0 < 1000)%R) by lra.
  assert (P30 : (0 < 30)%R) by lra.
  destruct (@guarded_filter_inv (ProcessSize 1000) "size" 1000%R w2 w3
              P1000 E3) as (sz & Hsz & Csz & O3 & V3).
  destruct (@guarded_filter_inv (ProcessFloor 30) "floor" 30%R w3 w4
              P30 E4) as (fl & Hfl & Cfl & O4 & V4).
  assert (K : forall c, c <> "price" ->
            dtype_of (owned w2) c = dtype_of (owned w1) c).
  { intros c Hc. unfold dtype_of. rewrite O2.
    rewrite getitem_setitem_other by exact Hc. rewrite getitem_loc_mask.
    destruct (getitem (owned w1) c); reflexivity. }
  destruct Hcat as [Hcat | Hcat].
  - destruct (Dc _ Hcat) as (cats & Hd).
    rewrite <- K in Hd by discriminate. unfold dtype_of in Hd.
    rewrite Hsz in Hd. injection Hd as Hd. rewrite Hd in Csz. discriminate.
  - destruct (Dc _ Hcat) as (cats & Hd).
    rewrite <- K in Hd by discriminate. unfold dtype_of in Hd.
    rewrite O3, getitem_loc_mask in Hfl.
    destruct (getitem (owned w2) "floor") as [s |]; [| discriminate].
    simpl in Hfl. injection Hfl as <-. injection Hd as Hd. simpl in Cfl.
    rewrite Hd in Cfl. discriminate.
Qed.

(** X12.  The pipeline followed by the split, as the entry point runs
    them.  When the pipeline returned, the split finds its columns: it
    raises [ValueError] when fewer than two rows are left, and otherwise
    returns a holdout part of a fifth of the rows (rounded up) and a
    training part of the others, with the features in the columns
    [FEAT_COLS]. *)
Theorem pipeline_then_split (cast_types standardize : bool) (w w' : World) :
  rng_lawful ->
  run_preprocessing_pipeline cast_types standardize w = (Ok tt, w') ->
  (nrows (owned w') < 2 -> fst (train_test_split w') = Raise ValueError) /\
  (2 <= nrows (owned w') ->
   exists X_train X_test y_train y_test,
     fst (train_test_split w') = Ok (X_train, X_test, y_train, y_test) /\
     column_names X_train = FEAT_COLS /\
     column_names X_test = FEAT_COLS /\
     nrows X_test = (nrows (owned w') + 4) / 5 /\
     nrows X_train = nrows (owned w') - (nrows (owned w') + 4) / 5).
Proof.
  intros L E. pose proof (pipeline_returns_columns _ _ _ E) as Hn.
  assert (Hc : has_columns (owned w') (FEAT_COLS ++ [TARGET_COL])).
  { intros c Hin. rewrite Hn. exact Hin. }
  assert (HF : has_columns (owned w') FEAT_COLS).
  { intros c H. apply Hc, in_or_app. left. exact H. }
  destruct (getitem_list_ok HF) as (X & EX & Hi & Hnm & _).
  destruct (getitem_ok (owned w') TARGET_COL) as (y & Ey).
  { apply Hc, in_or_app. right. left. reflexivity. }
  assert (HnX : nrows X = nrows (owned w')) by (unfold nrows; congruence).
  rewrite Split.train_test_split_run. simpl fst. rewrite EX. simpl rbind.
  rewrite Ey. simpl rbind. split.
  - intros Hlt. unfold Sklearn.train_test_split.
    rewrite Split.n_test_of_fifth, HnX.
    assert (Z : (nrows (owned w') - (nrows (owned w') + 4) / 5 =? 0)%nat
                = true).
    { apply Nat.eqb_eq.
      destruct (nrows (owned w')) as [| [| n]]; [reflexivity | reflexivity |].
      lia. }
    rewrite Z. reflexivity.
  - intros Hge. destruct (Split.sk_split_ok X y L) as (it & ie & Es & Hle & Hlt & _);
      [lia |].
    rewrite Es. do 4 eexists. split; [reflexivity |].
    rewrite !Split.column_names_iloc, !Split.nrows_iloc, <- HnX.
    auto.
Qed.

End WithContext.

Lemma pipeline_postconditions_witness :
  exists w' s,
    run_preprocessing_pipeline (RT := Demo.runtime) (VARS := Demo.variables)
                               true true (Demo.world_of Demo.listings)
      = (Ok tt, w') /\
    getitem (owned w') "price" = Ok s /\
    all_numbers (fun x => (x < 17500000)%R) (s_values s).
Proof.
  destruct (run_preprocessing_pipeline
              (RT := Demo.runtime) (VARS := Demo.variables)
              true true (Demo.world_of Demo.listings))
    as [[[] | e] w'] eqn:E.
  2:{ pose proof Pipeline.listings_pipeline_returns as H.
      rewrite E in H. discriminate H. }
  destruct (@pipeline_postconditions Demo.runtime Demo.variables
              _ _ _ _ E) as (_ & H).
  destruct (H "price" 17500000%R) as (s & Hs & Hb).
  - simpl. tauto.
  - simpl. tauto.
  - right. simpl. intros C.
    repeat (destruct C as [C | C]; [discriminate |]). exact C.
  - exists w', s. auto.
Defined.

Lemma pipeline_objects_witness :
  deref (snd (run_preprocessing_pipeline
                (RT := Demo.runtime) (VARS := Demo.variables) false true
                (Demo.world_of Demo.listings))) 0
  = Demo.listings.
Proof.
  apply (fun V => proj1 (proj2 (@pipeline_objects Demo.runtime Demo.variables
                                  false true
                                  (Demo.world_of Demo.listings) V))).
  unfold valid_world. simpl. lia.
Defined.

Lemma pipeline_raises_on_categorical_threshold_witness :
  is_ok (fst (run_preprocessing_pipeline
                (RT := Demo.runtime) (VARS := MoreTables.floor_as_category)
                true true (Demo.world_of Demo.listings))) = false.
Proof.
  apply (@pipeline_raises_on_categorical_threshold
           Demo.runtime MoreTables.floor_as_category true
           (Demo.world_of Demo.listings)).
  - unfold valid_world. simpl. lia.
  - right. simpl. tauto.
Defined.

Lemma pipeline_then_split_witness :
  exists w' X_train X_test y_train y_test,
    run_preprocessing_pipeline (RT := Demo.runtime) (VARS := Demo.variables)
                               true true (Demo.world_of Demo.listings)
      = (Ok tt, w') /\
    fst (train_test_split (RT := Demo.runtime) (VARS := Demo.variables) w')
      = Ok (X_train, X_test, y_train, y_test) /\
    nrows X_test = 1 /\ nrows X_train = 3.
Proof.
  pose proof Pipeline.listings_pipeline_returns as Hok.
  pose proof Pipeline.listings_pipeline_result as (Hi & _).
  destruct (run_preprocessing_pipeline
              (RT := Demo.runtime) (VARS := Demo.variables)
              true true (Demo.world_of Demo.listings))
    as [[[] | e] w'] eqn:E; [| discriminate Hok].
  simpl in Hi.
  assert (Hn : nrows (owned w') = 4) by (unfold nrows; rewrite Hi; reflexivity).
  destruct (proj2 (@pipeline_then_split Demo.runtime Demo.variables
                     true true (Demo.world_of Demo.listings) w'
                     Split.demo_rng_lawful E))
    as (a & b & c & d & Es & _ & _ & Hte & Htr).
  { rewrite Hn. lia. }
  exists w', a, b, c, d. rewrite Hn in Hte, Htr.
  repeat split; assumption.
Defined.

End Whole.

(** ** Rows left by the missing-value step *)

Module NoDuplicates.
Import DataPreprocessor.

Lemma getitem_length df c s :
  well_formed df -> getitem df c = Ok s -> length (s_values s) = nrows df.
Proof.
  unfold well_formed, getitem. intros W.
  induction W as [| [k a] l Hk W IH]; simpl; [discriminate |].
  destruct (String.eqb c k); [| exact IH].
  intros E. injection E as <-. exact Hk.
Qed.

Lemma well_formed_setitem df c s :
  well_formed df -> length (s_values s) = nrows df ->
  well_formed (setitem df c s).
Proof.
  unfold well_formed, setitem, nrows. simpl. intros W Hs.
  induction W as [| [k a] l Hk W IH]; simpl.
  - constructor; [exact Hs | constructor].
  - destruct (String.eqb c k); constructor; simpl; auto.
Qed.

Lemma length_fillna v s s' :
  fillna v s = Ok s' -> length (s_values s') = length (s_values s).
Proof.
  unfold fillna.
  destruct (s_dtype s); [| | destruct (existsb _ _); [| discriminate]];
    intros E; injection E as <-; simpl; apply length_map.
Qed.

Lemma well_formed_fill_column c v df :
  well_formed df -> well_formed (fill_column c v df).
Proof.
  intros W. unfold fill_column.
  destruct (getitem df c) as [s |] eqn:Es; simpl; [| exact W].
  destruct (fillna v s) as [s' |] eqn:Ef; [| exact W].
  apply well_formed_setitem; [exact W |].
  rewrite (length_fillna _ _ Ef). eapply getitem_length; eassumption.
Qed.

Lemma well_formed_fill_all df : well_formed df -> well_formed (fill_all df).
Proof.
  intros W. unfold fill_all. simpl.
  repeat apply well_formed_fill_column. exact W.
Qed.

Lemma well_formed_loc_mask df m :
  well_formed df -> length m = nrows df -> well_formed (loc_mask df m).
Proof.
  unfold well_formed, nrows. intros W Hm. simpl.
  apply Forall_forall. intros c Hc. apply in_map_iff in Hc.
  destruct Hc as (c0 & <- & Hc0). simpl.
  rewrite Forall_forall in W.
  rewrite !Twice.length_filter_mask_eq; [reflexivity | exact Hm |].
  rewrite (W _ Hc0). exact Hm.
Qed.

(** Masking the columns masks the rows. *)
Lemma mask_heads m cols :
  Forall (fun c : list value => c <> []) cols ->
  map (hd NA) (map (filter_mask (true :: m)) cols) = map (hd NA) cols /\
  map (@tl value) (map (filter_mask (true :: m)) cols)
  = map (filter_mask m) (map (@tl value) cols) /\
  map (filter_mask (false :: m)) cols
  = map (filter_mask m) (map (@tl value) cols).
Proof.
  induction 1 as [| c cols Hc H (IH1 & IH2 & IH3)]; [simpl; auto |].
  destruct c as [| v c]; [congruence |].
  rewrite !map_cons, IH1, IH2, IH3. repeat split; reflexivity.
Qed.

Lemma transpose_mask m : forall cols,
  Forall (fun c : list value => length c = length m) cols ->
  transpose (count_true m) (map (filter_mask m) cols)
  = filter_mask m (transpose (length m) cols).
Proof.
  induction m as [| b m IH]; intros cols H; [reflexivity |].
  assert (Hne : Forall (fun c : list value => c <> []) cols).
  { eapply Forall_impl; [| exact H]. intros [| v c]; simpl;
      [discriminate | congruence]. }
  assert (Htl : Forall (fun c : list value => length c = length m)
                       (map (@tl value) cols)).
  { apply Forall_forall. intros c Hc. apply in_map_iff in Hc.
    destruct Hc as (c0 & <- & Hc0). rewrite Forall_forall in H.
    specialize (H _ Hc0). destruct c0; simpl in *; [discriminate | lia]. }
  destruct (mask_heads m Hne) as (E1 & E2 & E3).
  destruct b.
  - change (count_true (true :: m)) with (S (count_true m)).
    change (length (true :: m)) with (S (length m)).
    cbn [transpose]. rewrite E1, E2, (IH _ Htl). reflexivity.
  - change (count_true (false :: m)) with (count_true m).
    change (length (false :: m)) with (S (length m)).
    cbn [transpose]. rewrite E3, (IH _ Htl). reflexivity.
Qed.

Lemma rows_loc_mask df m :
  well_formed df -> length m = nrows df ->
  rows (loc_mask df m) = filter_mask m (rows df).
Proof.
  intros W Hm. unfold rows, nrows. simpl.
  rewrite Twice.length_filter_mask_eq by exact Hm.
  rewrite map_map. simpl.
  rewrite <- (map_map (fun c : string * Series => s_values (snd c))
                      (filter_mask m)).
  fold (nrows df). rewrite <- Hm. apply transpose_mask.
  apply Forall_forall. intros c Hc. apply in_map_iff in Hc.
  destruct Hc as (c0 & <- & Hc0). unfold well_formed in W.
  rewrite Forall_forall in W. rewrite (W _ Hc0). symmetry. exact Hm.
Qed.

(** Rows that repeat none of the rows seen before. *)
Lemma existsb_incl A (f : A -> bool) l l' :
  incl l' l -> existsb f l = false -> existsb f l' = false.
Proof.
  intros Hi H. destruct (existsb f l') eqn:E; [| reflexivity].
  apply existsb_exists in E. destruct E as (x & Hx & Hf).
  rewrite <- H. symmetry. apply existsb_exists. exists x.
  split; [apply Hi, Hx | exact Hf].
Qed.

Lemma kept_rows_fresh rs : forall seen seen',
  incl seen' seen ->
  Forall (fun b => b = false)
    (duplicated_from seen'
       (filter_mask (map negb (duplicated_from seen rs)) rs)).
Proof.
  induction rs as [| r rs IH]; intros seen seen' Hi; simpl; [constructor |].
  destruct (existsb (row_eqb r) seen) eqn:E; simpl.
  - apply IH. apply incl_tl, Hi.
  - constructor; [eapply existsb_incl; eassumption |].
    apply IH. intros x [<- | Hx]; [left; reflexivity | right; apply Hi, Hx].
Qed.

Lemma masked_rows_fresh rs : forall m seen seen',
  incl seen' seen ->
  Forall (fun b => b = false) (duplicated_from seen rs) ->
  Forall (fun b => b = false) (duplicated_from seen' (filter_mask m rs)).
Proof.
  induction rs as [| r rs IH]; intros m seen seen' Hi H.
  - rewrite filter_mask_nil. constructor.
  - simpl in H. inversion H as [| b l Hb Hl]; subst.
    destruct m as [| [] m]; simpl; [constructor | |].
    + constructor; [eapply existsb_incl; eassumption |].
      eapply IH; [| exact Hl].
      intros x [<- | Hx]; [left; reflexivity | right; apply Hi, Hx].
    + eapply IH; [| exact Hl]. apply incl_tl, Hi.
Qed.

Lemma drop_duplicates_fresh df :
  well_formed df ->
  well_formed (drop_duplicates df) /\
  Forall (fun b => b = false) (duplicated (drop_duplicates df)).
Proof.
  intros W.
  assert (Hm : length (map negb (duplicated df)) = nrows df).
  { rewrite length_map. unfold duplicated.
    rewrite <- (Missing.length_rows df).
    generalize (@nil row). induction (rows df) as [| r rs IH]; intros seen;
      simpl; [reflexivity | rewrite IH; reflexivity]. }
  split; [apply well_formed_loc_mask; assumption |].
  unfold duplicated at 1, drop_duplicates.
  rewrite rows_loc_mask by assumption.
  unfold duplicated. apply kept_rows_fresh. apply incl_refl.
Qed.

Lemma keep_present_fresh c df :
  well_formed df ->
  Forall (fun b => b = false) (duplicated df) ->
  well_formed (keep_present c df) /\
  Forall (fun b => b = false) (duplicated (keep_present c df)).
Proof.
  intros W H. unfold keep_present.
  destruct (getitem df c) as [s |] eqn:Es; [| auto].
  assert (Hm : length (notna s) = nrows df).
  { unfold notna. rewrite length_map. eapply getitem_length; eassumption. }
  split; [apply well_formed_loc_mask; assumption |].
  unfold duplicated. rewrite rows_loc_mask by assumption.
  eapply masked_rows_fresh; [apply incl_refl | exact H].
Qed.

Lemma fresh_distinct df :
  Forall (fun b => b = false) (duplicated df) -> distinct_rows df.
Proof.
  intros H i j Hj Hi.
  destruct (row_eqb (nth i (rows df) []) (nth j (rows df) [])) eqn:E;
    [| reflexivity].
  assert (D : nth i (duplicated df) false = true).
  { apply Missing.duplicated_spec; [exact Hi |]. exists j. auto. }
  destruct (nth_in_or_default i (duplicated df) false) as [Hin | Hd].
  - rewrite Forall_forall in H. rewrite (H _ Hin) in D. discriminate D.
  - congruence.
Qed.

(** X13.  When every filled column exists and is not categorical, and price
    and size exist, [_handle_missing_and_duplicated_values] returns and
    leaves a dataset in which no row equals an earlier row (missing cells
    counting as equal to each other), with every column still as long as
    the index: the two filters on price and size that follow
    [drop_duplicates] only remove rows. *)
Theorem handle_missing_no_duplicates (w : World) :
  valid_world w ->
  well_formed (owned w) ->
  (forall c, In c (map fst fills) -> fillable (owned w) c) ->
  has_columns (owned w) ["price"; "size"] ->
  exists w',
    _handle_missing_and_duplicated_values w = (Ok tt, w') /\
    well_formed (owned w') /\
    distinct_rows (owned w').
Proof.
  intros V W Hf Hc.
  destruct (Missing.handle_missing_general V Hf Hc) as (w' & E & O & _).
  exists w'. split; [exact E |]. rewrite O.
  destruct (drop_duplicates_fresh (well_formed_fill_all W)) as (W1 & D1).
  destruct (keep_present_fresh "price" W1 D1) as (W2 & D2).
  destruct (keep_present_fresh "size" W2 D2) as (W3 & D3).
  split; [exact W3 | apply fresh_distinct, D3].
Qed.

Lemma handle_missing_no_duplicates_witness :
  exists w',
    _handle_missing_and_duplicated_values
      (Demo.world_of DemoTables.raw_listings) = (Ok tt, w') /\
    well_formed (owned w') /\
    distinct_rows (owned w').
Proof.
  apply (@handle_missing_no_duplicates
           (Demo.world_of DemoTables.raw_listings)).
  - unfold valid_world. simpl. lia.
  - unfold well_formed. simpl. repeat constructor.
  - exact Missing.raw_listings_fillable.
  - exact Missing.raw_listings_has_price_size.
Defined.

End NoDuplicates.

(** ** When the casts return *)

Module CastDomain.
Import DataPreprocessor.

Section WithContext.
Context {RT : Runtime} {VARS : Variables}.

Lemma float_cells_parse vals :
  is_ok (mapR float_cell vals) = forallb parses vals.
Proof.
  induction vals as [| v vals IH]; [reflexivity |].
  cbn [mapR forallb]. rewrite <- IH.
  destruct v as [| x | s]; simpl;
    [| | destruct (str_to_float s); simpl; [| reflexivity]];
    destruct (mapR float_cell vals); reflexivity.
Qed.

Lemma float_cells_raise vals e :
  mapR float_cell vals = Raise e -> e = ValueError.
Proof.
  induction vals as [| v vals IH]; [discriminate |].
  cbn [mapR].
  destruct v as [| x | s]; simpl;
    [| | destruct (str_to_float s); simpl; [| congruence]];
    destruct (mapR float_cell vals); simpl; try discriminate;
    intros E; injection E as <-; apply IH; reflexivity.
Qed.

Lemma parses_coerce v : parses (coerce_cell v) = true.
Proof.
  destruct v as [| x | s]; simpl; try reflexivity.
  destruct (str_to_float s); reflexivity.
Qed.

Lemma getitem_raise df c e :
  getitem df c = Raise e -> e = KeyError c /\ ~ In c (column_names df).
Proof.
  intros E. split.
  - unfold getitem in E. destruct (assoc c (columns df)); congruence.
  - intros Hin. destruct (getitem_ok df c Hin) as (s & Hs). congruence.
Qed.

Lemma cast_float_frame_castable c df :
  is_ok (cast_float_frame c df) = true <-> castable df c.
Proof.
  unfold cast_float_frame, castable, astype_float.
  destruct (getitem df c) as [s |]; simpl.
  - pose proof (float_cells_parse (s_values s)) as P.
    destruct (mapR float_cell (s_values s)); simpl in *; split.
    + intros _. exists s. split; [reflexivity | symmetry; exact P].
    + reflexivity.
    + discriminate.
    + intros (s' & E & H). injection E as <-. rewrite H in P.
      discriminate P.
  - split; [discriminate | intros (s & E & _); discriminate E].
Qed.

Lemma cast_float_frame_raise c df e :
  cast_float_frame c df = Raise e ->
  e = ValueError \/ (e = KeyError c /\ ~ In c (column_names df)).
Proof.
  unfold cast_float_frame, astype_float.
  destruct (getitem df c) as [s | e0] eqn:Es; simpl.
  - destruct (mapR float_cell (s_values s)) eqn:Ev; simpl; [discriminate |].
    intros E. injection E as <-. left. eapply float_cells_raise, Ev.
  - intros E. injection E as <-. right. apply getitem_raise, Es.
Qed.

Lemma cast_category_frame_raise c df e :
  cast_category_frame c df = Raise e ->
  e = ValueError \/ (e = KeyError c /\ ~ In c (column_names df)).
Proof.
  unfold cast_category_frame.
  destruct (getitem df c) as [s | e0] eqn:Es; simpl; [discriminate |].
  intros E. injection E as <-. right. apply getitem_raise, Es.
Qed.

Lemma cast_float_frame_names c df df' :
  cast_float_frame c df = Ok df' -> column_names df' = column_names df.
Proof.
  intros E. destruct (CastTwice.cast_float_frame_inv _ _ E) as (s & Hs & ->).
  apply column_names_setitem. eapply getitem_ok_in, Hs.
Qed.

Lemma cast_category_frame_names c df df' :
  cast_category_frame c df = Ok df' -> column_names df' = column_names df.
Proof.
  intros E.
  destruct (CastTwice.cast_category_frame_inv _ _ E) as (s & Hs & ->).
  apply column_names_setitem. eapply getitem_ok_in, Hs.
Qed.

(** A loop of casts keeps the column names and raises what one cast
    raises. *)
Lemma cast_each_outcome (f : string -> DataFrame -> result DataFrame) :
  (forall c df df', f c df = Ok df' -> column_names df' = column_names df) ->
  (forall c df e, f c df = Raise e ->
     e = ValueError \/ (e = KeyError c /\ ~ In c (column_names df))) ->
  forall cols df r df',
    cast_each f cols df = (r, df') ->
    column_names df' = column_names df /\
    forall e, r = Raise e ->
      e = ValueError \/
      exists c, e = KeyError c /\ In c cols /\ ~ In c (column_names df).
Proof.
  intros Hn Hr. induction cols as [| c0 cols IH]; intros df r df' E;
    simpl in E.
  - injection E as <- <-. split; [reflexivity | discriminate].
  - destruct (f c0 df) as [d1 | e0] eqn:E0.
    + destruct (IH _ _ _ E) as (N & R). rewrite (Hn _ _ _ E0) in N, R.
      split; [exact N |]. intros e He.
      destruct (R e He) as [-> | (c & -> & Hc & Hm)]; [left; reflexivity |].
      right. exists c. simpl. auto.
    + injection E as <- <-. split; [reflexivity |]. intros e He.
      injection He as <-.
      destruct (Hr _ _ _ E0) as [-> | (-> & Hm)]; [left; reflexivity |].
      right. exists c0. simpl. auto.
Qed.

Lemma castable_setitem_float df c0 s0 c :
  getitem df c0 = Ok s0 -> castable df c0 ->
  castable (setitem df c0 (float_series s0)) c <-> castable df c.
Proof.
  intros Hs0 H0. destruct (string_dec c c0) as [-> | N].
  - split; [intros _; exact H0 |]. intros _.
    exists (float_series s0). rewrite getitem_setitem_same.
    split; [reflexivity |]. unfold float_series. simpl.
    apply forallb_forall. intros v Hv. apply in_map_iff in Hv.
    destruct Hv as (v0 & <- & _). apply parses_coerce.
  - unfold castable. rewrite getitem_setitem_other by exact N. reflexivity.
Qed.

Lemma cast_each_float_castable cols : forall df,
  is_ok (fst (cast_each cast_float_frame cols df)) = true <->
  forall c, In c cols -> castable df c.
Proof.
  induction cols as [| c0 cols IH]; intros df; simpl.
  - split; [intros _ c [] | reflexivity].
  - destruct (cast_float_frame c0 df) as [d1 | e0] eqn:E0.
    + assert (C0 : castable df c0).
      { apply cast_float_frame_castable. rewrite E0. reflexivity. }
      destruct (CastTwice.cast_float_frame_inv _ _ E0) as (s0 & Hs0 & ->).
      rewrite IH. split.
      * intros H c [<- | Hc]; [exact C0 |].
        eapply castable_setitem_float; eauto.
      * intros H c Hc. apply castable_setitem_float; auto.
    + simpl. split; [discriminate |]. intros H.
      assert (C0 : castable df c0) by (apply H; left; reflexivity).
      apply cast_float_frame_castable in C0. rewrite E0 in C0.
      discriminate C0.
Qed.

Lemma cast_each_category_columns cols : forall df,
  is_ok (fst (cast_each cast_category_frame cols df)) = true <->
  has_columns df cols.
Proof.
  intros df. split.
  - revert df. induction cols as [| c0 cols IH]; intros df; simpl.
    + intros _ c [].
    + destruct (cast_category_frame c0 df) as [d1 | e0] eqn:E0;
        [| discriminate].
      intros H c [<- | Hc].
      * destruct (CastTwice.cast_category_frame_inv _ _ E0) as (s & Hs & _).
        eapply getitem_ok_in, Hs.
      * rewrite <- (cast_category_frame_names _ _ E0). apply (IH _ H), Hc.
  - intros H. destruct (CastTwice.cast_each_category_ok H) as (df' & ->).
    reflexivity.
Qed.

Lemma cast_frame_domain df :
  (is_ok (fst (cast_frame df)) = true <->
   (forall c, In c NUMERIC_FEATS -> castable df c) /\
   has_columns df CATEGORICAL_FEATS) /\
  (forall e, fst (cast_frame df) = Raise e ->
     e = ValueError \/
     exists c, e = KeyError c /\
               In c (NUMERIC_FEATS ++ CATEGORICAL_FEATS) /\
               ~ In c (column_names df)).
Proof.
  unfold cast_frame.
  pose proof (cast_each_float_castable NUMERIC_FEATS df) as F.
  destruct (cast_each cast_float_frame NUMERIC_FEATS df) as [r1 d1] eqn:E1.
  destruct (@cast_each_outcome cast_float_frame cast_float_frame_names
              cast_float_frame_raise _ _ _ _ E1) as (N1 & R1).
  destruct r1 as [[] | e1]; simpl in F.
  - pose proof (cast_each_category_columns CATEGORICAL_FEATS d1) as C.
    destruct (cast_each cast_category_frame CATEGORICAL_FEATS d1)
      as [r2 d2] eqn:E2.
    destruct (@cast_each_outcome cast_category_frame
                cast_category_frame_names cast_category_frame_raise
                _ _ _ _ E2) as (N2 & R2).
    simpl in *. split.
    + rewrite C. unfold has_columns. rewrite N1. split.
      * intros H. split; [apply F; reflexivity | exact H].
      * intros (_ & H). exact H.
    + intros e He. destruct (R2 e He) as [-> | (c & -> & Hc & Hm)];
        [left; reflexivity |].
      right. exists c. rewrite N1 in Hm.
      repeat split; [apply in_or_app; right; exact Hc | exact Hm].
  - simpl. split.
    + split; [discriminate |]. intros (H & _). apply F in H. discriminate H.
    + intros e He. destruct (R1 e He) as [-> | (c & -> & Hc & Hm)];
        [left; reflexivity |].
      right. exists c.
      repeat split; [apply in_or_app; left; exact Hc | exact Hm].
Qed.

(** X14.  [_cast_types] returns exactly when every column of
    [NUMERIC_FEATS] exists and holds only cells that [astype(float)]
    accepts (numbers, missing cells, strings that parse) and every column
    of [CATEGORICAL_FEATS] exists.  Otherwise it raises a ValueError (a
    string that does not parse) or the KeyError of a feature column that
    the dataset lacks, and nothing else. *)
Theorem cast_types_domain (w : World) :
  valid_world w ->
  (is_ok (fst (_cast_types w)) = true <->
   (forall c, In c NUMERIC_FEATS -> castable (owned w) c) /\
   has_columns (owned w) CATEGORICAL_FEATS) /\
  (forall e, fst (_cast_types w) = Raise e ->
     e = ValueError \/
     exists c, e = KeyError c /\
               In c (NUMERIC_FEATS ++ CATEGORICAL_FEATS) /\
               ~ In c (column_names (owned w))).
Proof.
  intros V. rewrite (Cast.cast_types_run V). simpl.
  apply cast_frame_domain.
Qed.

End WithContext.

Lemma cast_types_domain_witness :
  is_ok (fst (_cast_types (RT := Demo.runtime) (VARS := Demo.variables)
                          (Demo.world_of DemoTables.served))) = true <->
  (forall c, In c (NUMERIC_FEATS (Variables := Demo.variables)) ->
             castable (RT := Demo.runtime)
                      (owned (Demo.world_of DemoTables.served)) c) /\
  has_columns (owned (Demo.world_of DemoTables.served))
              (CATEGORICAL_FEATS (Variables := Demo.variables)).
Proof.
  apply (@cast_types_domain Demo.runtime Demo.variables
           (Demo.world_of DemoTables.served)).
  unfold valid_world. simpl. lia.
Defined.

End CastDomain.
